(** * QuranLookup: the verse fetcher, embedded and verified

    A shallow embedding of [quran_verse_fetcher.py]: the reference
    validator ([InputValidator]), the HTTP client ([QuranAPI]), the
    formatter ([OutputFormatter]), the one-shot command line ([main]) and
    the interactive loop ([run_interactive_mode]), followed by the
    properties the specification states about them and by further
    properties of the code.

    Conventions of the embedding:
    - a Python [str] is the list of its code points ([list N]), so that
      [strip], the pattern class [\d] and [int] see the characters Python
      sees (full-width or Arabic-Indic digits, no-break spaces, ...);
    - a Python [int] is a [Z];
    - JSON payloads and [dict]s are values of [Py.value], dictionaries
      being finite maps keyed by strings;
    - a call either returns, raises an exception or leaves through
      [sys.exit]: the three constructors of [Py.result];
    - the network, the file system and [repr] of containers belong to the
      world the program runs in and are the fields of [World]. *)

From stdpp Require Import base numbers option list gmap strings.

#[local] Open Scope Z_scope.

(** ** The Python runtime the program relies on *)

Module Py.

(** [lit "abc"] is the Python literal ['abc']: one code point per ASCII
    character. *)
Definition lit (s : string) : list N :=
  Ascii.N_of_ascii <$> String.list_ascii_of_string s.

(** *** Characters *)

(** [str.isspace] on one character ([Py_UNICODE_ISSPACE]): the characters
    [str.strip] removes. *)
Definition whitespace : list N :=
  [ 0x09; 0x0A; 0x0B; 0x0C; 0x0D; 0x1C; 0x1D; 0x1E; 0x1F; 0x20; 0x85; 0xA0;
    0x1680; 0x2000; 0x2001; 0x2002; 0x2003; 0x2004; 0x2005; 0x2006; 0x2007;
    0x2008; 0x2009; 0x200A; 0x2028; 0x2029; 0x202F; 0x205F; 0x3000 ]%N.

Definition isspace (c : N) : bool := bool_decide (c ∈ whitespace).

(** The code points of the digit zero of every decimal script (general
    category Nd, Unicode 14); the nine other digits of a script follow
    its zero. *)
Definition decimal_zeros : list N :=
  [ 0x30; 0x660; 0x6F0; 0x7C0; 0x966; 0x9E6; 0xA66; 0xAE6; 0xB66; 0xBE6;
    0xC66; 0xCE6; 0xD66; 0xDE6; 0xE50; 0xED0; 0xF20; 0x1040; 0x1090;
    0x17E0; 0x1810; 0x1946; 0x19D0; 0x1A80; 0x1A90; 0x1B50; 0x1BB0;
    0x1C40; 0x1C50; 0xA620; 0xA8D0; 0xA900; 0xA9D0; 0xA9F0; 0xAA50;
    0xABF0; 0xFF10; 0x104A0; 0x10D30; 0x11066; 0x110F0; 0x11136; 0x111D0;
    0x112F0; 0x11450; 0x114D0; 0x11650; 0x116C0; 0x11730; 0x118E0;
    0x11950; 0x11C50; 0x11D50; 0x11DA0; 0x16A60; 0x16AC0; 0x16B50;
    0x1D7CE; 0x1D7D8; 0x1D7E2; 0x1D7EC; 0x1D7F6; 0x1E140; 0x1E2F0;
    0x1E950; 0x1FBF0 ]%N.

(** [Py_UNICODE_TODECIMAL]: the value of a decimal digit, [None] for any
    other character. Both [\d] and [int] go through it. *)
Definition to_decimal (c : N) : option Z :=
  (λ zero, Z.of_N (c - zero)) <$>
    find (λ zero, (zero <=? c)%N && (c <? zero + 10)%N) decimal_zeros.

Definition isdecimal (c : N) : bool :=
  match to_decimal c with Some _ => true | None => false end.

(** *** Strings *)

Fixpoint lstrip (s : list N) : list N :=
  match s with
  | c :: s' => if isspace c then lstrip s' else s
  | [] => []
  end.

Definition rstrip (s : list N) : list N := reverse (lstrip (reverse s)).

(** [s.strip()] *)
Definition strip (s : list N) : list N := rstrip (lstrip s).

(** [sep.join(items)] on strings *)
Fixpoint join (sep : list N) (items : list (list N)) : list N :=
  match items with
  | [] => []
  | [x] => x
  | x :: rest => x ++ sep ++ join sep rest
  end.

(** [s * n] *)
Definition times (s : list N) (n : nat) : list N := mjoin (replicate n s).

(** *** Integers and their decimal text *)

(** The digits of [n], most significant first; [fuel] bounds the number
    of digits produced. *)
Fixpoint digits (fuel : nat) (n : N) : list N :=
  match fuel with
  | O => []
  | S fuel' =>
      (if (n <? 10)%N then [] else digits fuel' (n / 10)%N)
        ++ [(0x30 + n mod 10)%N]
  end.

(** [str(n)] for [n >= 0]: a number below [2 ^ k] has at most [k]
    decimal digits. *)
Definition str_of_N (n : N) : list N := digits (S (N.to_nat (N.log2 n))) n.

(** [str(z)], which is also what [f"{z}"] inserts. Python refuses to
    write an [int] of more than [int_max_str_digits] digits (below); the
    numbers the program writes never are that long: they came out of
    [int] or out of [json], which both refuse to read a longer number, or
    they are status codes and lengths. *)
Definition str_of_int (z : Z) : list N :=
  if z <? 0 then 0x2D%N :: str_of_N (Z.to_N (- z)) else str_of_N (Z.to_N z).

(** The number a run of decimal digits writes, [None] when a character
    is no digit. *)
Definition int_of_digits (s : list N) : option Z :=
  foldl (λ acc c, a ← acc; d ← to_decimal c; Some (10 * a + d)) (Some 0) s.

(** *** Exceptions *)

(** The exception classes the program names or can meet, each with the
    text [str(e)] gives. The last five are those of [requests]. *)
Inductive exn :=
| ValueError (msg : list N)
| UnicodeEncodeError (msg : list N)
| JSONDecodeError (msg : list N)
| AttributeError (msg : list N)
| KeyError (msg : list N)
| TypeError (msg : list N)
| OSError (msg : list N)
| OtherException (msg : list N)
| KeyboardInterrupt
| RequestException (msg : list N)
| Timeout (msg : list N)
| ConnectionError (msg : list N)
| HTTPError (status_code : Z) (msg : list N)
| RequestsJSONDecodeError (msg : list N).

Definition str_of_exn (e : exn) : list N :=
  match e with
  | ValueError m | UnicodeEncodeError m | JSONDecodeError m
  | AttributeError m | KeyError m | TypeError m | OSError m
  | OtherException m | RequestException m | Timeout m
  | ConnectionError m | HTTPError _ m | RequestsJSONDecodeError m => m
  | KeyboardInterrupt => []
  end.

(** The class hierarchy, as the [except] clauses of the program see it.
    [requests.exceptions.JSONDecodeError] derives from both
    [RequestException] and [json.JSONDecodeError]. *)
Definition is_RequestException (e : exn) : bool :=
  match e with
  | RequestException _ | Timeout _ | ConnectionError _ | HTTPError _ _
  | RequestsJSONDecodeError _ => true
  | _ => false
  end.

Definition is_JSONDecodeError (e : exn) : bool :=
  match e with
  | JSONDecodeError _ | RequestsJSONDecodeError _ => true
  | _ => false
  end.

Definition is_ValueError (e : exn) : bool :=
  match e with
  | ValueError _ | UnicodeEncodeError _ => true
  | _ => is_JSONDecodeError e
  end.

(** [IOError] is [OSError], and [RequestException] derives from it. *)
Definition is_IOError (e : exn) : bool :=
  match e with
  | OSError _ => true
  | _ => is_RequestException e
  end.

Definition is_KeyboardInterrupt (e : exn) : bool :=
  match e with
  | KeyboardInterrupt => true
  | _ => false
  end.

(** [Exception]: everything but [KeyboardInterrupt] ([SystemExit] is the
    [Exit] outcome below). *)
Definition is_Exception (e : exn) : bool :=
  match e with
  | KeyboardInterrupt => false
  | _ => true
  end.

(** *** Outcomes of a call *)

Inductive result (A : Type) :=
| Return (a : A)
| Raise (e : exn)
| Exit (code : Z).
Arguments Return {A} a.
Arguments Raise {A} e.
Arguments Exit {A} code.

#[export] Instance result_ret : MRet result := λ A a, Return a.
#[export] Instance result_bind : MBind result := λ A B f m,
  match m with
  | Return a => f a
  | Raise e => Raise e
  | Exit code => Exit code
  end.

(** *** [int] on decimal text *)

(** [sys.get_int_max_str_digits()]: the number of digits beyond which
    Python (3.11, and the later releases of 3.7 to 3.10) converts no
    decimal text to an [int] and no [int] to decimal text. The program
    leaves the limit as it is. *)
Definition int_max_str_digits : nat := 4300.

(** [int(s)] for a string of decimal digits, which is all the validator
    passes to it. Every digit counts for the limit, leading zeros
    included. The last [ValueError] is the one Python raises on a
    character that is no digit. *)
Definition int_of_str (s : list N) : result Z :=
  if bool_decide (length s ≤ int_max_str_digits)%nat then
    match int_of_digits s with
    | Some z => Return z
    | None =>
        Raise (ValueError
          (lit "invalid literal for int() with base 10: '" ++ s ++ lit "'"))
    end
  else
    Raise (ValueError
      (lit "Exceeds the limit (" ++ str_of_int (Z.of_nat int_max_str_digits)
         ++ lit " digits) for integer string conversion: value has "
         ++ str_of_int (Z.of_nat (length s))
         ++ lit " digits; use sys.set_int_max_str_digits() to increase the limit")).

(** *** Values *)

(** What [json()] returns and what the program builds from it: [None],
    booleans, integers, strings, lists and dictionaries keyed by strings.
    JSON numbers with a fraction or an exponent (Python floats) are not
    represented, and the integers are those [json] reads: of at most
    [int_max_str_digits] digits. *)
#[warnings="-register-all"]
Inductive value :=
| VNone
| VBool (b : bool)
| VInt (z : Z)
| VStr (s : list N)
| VList (l : list value)
| VDict (d : gmap (list N) value).

Definition type_name (v : value) : list N :=
  match v with
  | VNone => lit "NoneType"
  | VBool _ => lit "bool"
  | VInt _ => lit "int"
  | VStr _ => lit "str"
  | VList _ => lit "list"
  | VDict _ => lit "dict"
  end.

(** The truth value of [v] in [if v:]. *)
Definition truthy (v : value) : bool :=
  match v with
  | VNone => false
  | VBool b => b
  | VInt z => negb (z =? 0)
  | VStr s => negb (bool_decide (s = []))
  | VList l => negb (bool_decide (length l = 0%nat))
  | VDict d => negb (bool_decide (size d = 0%nat))
  end.

(** [v.get(key, default)]: only a [dict] has the method. *)
Definition get (v : value) (key : list N) (default_ : value) : result value :=
  match v with
  | VDict d => Return (default default_ (d !! key))
  | _ => Raise (AttributeError
           (lit "'" ++ type_name v ++ lit "' object has no attribute 'get'"))
  end.

(** [v[key]] for a string [key]; the [KeyError] carries [repr(key)], the
    key between quotes for the plain keys the program uses. *)
Definition getitem (v : value) (key : list N) : result value :=
  match v with
  | VDict d =>
      match d !! key with
      | Some x => Return x
      | None => Raise (KeyError (lit "'" ++ key ++ lit "'"))
      end
  | _ => Raise (TypeError
           (lit "'" ++ type_name v ++ lit "' object is not subscriptable"))
  end.

(** [v == 200] *)
Definition eq_200 (v : value) : bool :=
  match v with
  | VInt z => z =? 200
  | _ => false
  end.

(** [sep.join(items)]: every item has to be a [str]. *)
Fixpoint strings_of (index : Z) (items : list value) : result (list (list N)) :=
  match items with
  | [] => Return []
  | VStr s :: rest => rest' ← strings_of (index + 1) rest; Return (s :: rest')
  | v :: _ => Raise (TypeError
      (lit "sequence item " ++ str_of_int index ++ lit ": expected str instance, "
         ++ type_name v ++ lit " found"))
  end.

Definition join_values (sep : list N) (items : list value) : result (list N) :=
  strings ← strings_of 0 items; Return (join sep strings).

(** *** UTF-8 *)

(** The bytes of one code point; a surrogate (and anything beyond the last
    code point) has none. *)
Definition utf8_encode_char (c : N) : option (list N) :=
  if (c <? 0x80)%N then Some [c]
  else if (c <? 0x800)%N then
    Some [0xC0 + c / 0x40; 0x80 + c mod 0x40]%N
  else if (0xD800 <=? c)%N && (c <=? 0xDFFF)%N then None
  else if (c <? 0x10000)%N then
    Some [0xE0 + c / 0x1000; 0x80 + (c / 0x40) mod 0x40; 0x80 + c mod 0x40]%N
  else if (c <=? 0x10FFFF)%N then
    Some [0xF0 + c / 0x40000; 0x80 + (c / 0x1000) mod 0x40;
          0x80 + (c / 0x40) mod 0x40; 0x80 + c mod 0x40]%N
  else None.

(** [s.encode('utf-8')], [None] standing for [UnicodeEncodeError]. *)
Fixpoint utf8_encode (s : list N) : option (list N) :=
  match s with
  | [] => Some []
  | c :: s' =>
      bytes ← utf8_encode_char c; rest ← utf8_encode s'; Some (bytes ++ rest)
  end.

Definition is_surrogate (c : N) : bool := (0xD800 <=? c)%N && (c <=? 0xDFFF)%N.

(** The number of surrogates at the head of [s]. *)
Fixpoint surrogate_run (s : list N) : nat :=
  match s with
  | c :: s' => if is_surrogate c then S (surrogate_run s') else O
  | [] => O
  end.

Definition hex_digit (n : N) : N :=
  if (n <? 10)%N then (0x30 + n)%N else (0x57 + n)%N.

(** The escape [\uXXXX] with which [repr] writes a surrogate. *)
Definition escape_u (c : N) : list N :=
  lit "\u" ++ [hex_digit (c / 0x1000 mod 0x10); hex_digit (c / 0x100 mod 0x10);
               hex_digit (c / 0x10 mod 0x10); hex_digit (c mod 0x10)].

(** [str(e)] for the [UnicodeEncodeError] of [s.encode('utf-8')]: it names
    the first character that cannot be encoded and its position, or the
    positions of the run of surrogates that starts there. *)
Fixpoint utf8_encode_error (position : Z) (s : list N) : list N :=
  match s with
  | [] => []
  | c :: s' =>
      match utf8_encode_char c with
      | Some _ => utf8_encode_error (position + 1) s'
      | None =>
          match surrogate_run s' with
          | O =>
              lit "'utf-8' codec can't encode character '" ++ escape_u c
                ++ lit "' in position " ++ str_of_int position
                ++ lit ": surrogates not allowed"
          | S more =>
              lit "'utf-8' codec can't encode characters in position "
                ++ str_of_int position ++ lit "-"
                ++ str_of_int (position + Z.of_nat (S more))
                ++ lit ": surrogates not allowed"
          end
      end
  end.

End Py.

Import Py.

(** ** [class InputValidator] *)

Module InputValidator.

(** Total verses in each chapter (1-114). *)
Definition CHAPTER_VERSES : gmap Z Z := list_to_map
  [ (1, 7); (2, 286); (3, 200); (4, 176); (5, 120); (6, 165); (7, 206); (8, 75); (9, 129); (10, 109);
    (11, 123); (12, 111); (13, 43); (14, 52); (15, 99); (16, 128); (17, 111); (18, 110); (19, 98); (20, 135);
    (21, 112); (22, 78); (23, 118); (24, 64); (25, 77); (26, 227); (27, 93); (28, 88); (29, 69); (30, 60);
    (31, 34); (32, 30); (33, 73); (34, 54); (35, 45); (36, 83); (37, 182); (38, 88); (39, 75); (40, 85);
    (41, 54); (42, 53); (43, 89); (44, 59); (45, 37); (46, 35); (47, 38); (48, 29); (49, 18); (50, 45);
    (51, 60); (52, 49); (53, 62); (54, 55); (55, 78); (56, 96); (57, 29); (58, 22); (59, 24); (60, 13);
    (61, 14); (62, 11); (63, 11); (64, 18); (65, 12); (66, 12); (67, 30); (68, 52); (69, 52); (70, 44);
    (71, 28); (72, 28); (73, 20); (74, 56); (75, 40); (76, 31); (77, 50); (78, 40); (79, 46); (80, 42);
    (81, 29); (82, 19); (83, 36); (84, 25); (85, 22); (86, 17); (87, 19); (88, 26); (89, 30); (90, 20);
    (91, 15); (92, 21); (93, 11); (94, 8); (95, 8); (96, 19); (97, 5); (98, 8); (99, 8); (100, 11);
    (101, 11); (102, 8); (103, 3); (104, 9); (105, 5); (106, 4); (107, 7); (108, 3); (109, 6); (110, 3);
    (111, 5); (112, 4); (113, 5); (114, 6) ].

(** The longest run of decimal digits at the head of [s], and what
    follows it: how the greedy [\d+] consumes its input. *)
Fixpoint span_digits (s : list N) : list N * list N :=
  match s with
  | c :: s' =>
      if isdecimal c
      then let '(ds, rest) := span_digits s' in (c :: ds, rest)
      else ([], s)
  | [] => ([], [])
  end.

(** [$] without [re.MULTILINE]: the end of the string, or just before a
    newline that ends it. *)
Definition at_dollar (rest : list N) : bool :=
  bool_decide (rest = []) || bool_decide (rest = [0x0A%N]).

(** [re.match(r'^(\d+):(\d+)$', s)]: the two groups of a match. No digit
    is a colon, a newline or the end of the string, so giving a digit back
    never turns a failure of the greedy attempt into a match. *)
Definition re_match (s : list N) : option (list N * list N) :=
  let '(group1, rest1) := span_digits s in
  match group1, rest1 with
  | _ :: _, c :: rest2 =>
      if (c =? 0x3A)%N then
        let '(group2, rest3) := span_digits rest2 in
        match group2 with
        | _ :: _ => if at_dollar rest3 then Some (group1, group2) else None
        | [] => None
        end
      else None
  | _, _ => None
  end.

Definition validate_input (user_input : list N) : result (Z * Z) :=
  if bool_decide (user_input = []) then
    Raise (ValueError (lit "Input cannot be empty"))
  else
    match re_match (strip user_input) with
    | None =>
        Raise (ValueError (lit
          "Invalid format. Please use 'chapter:verse' format (e.g., '2:255', '3:10')"))
    | Some (group1, group2) =>
        chapter ← int_of_str group1;
        verse ← int_of_str group2;
        if (chapter <? 1) || (chapter >? 114) then
          Raise (ValueError
            (lit "Chapter number must be between 1 and 114. Got: "
               ++ str_of_int chapter))
        else
          match CHAPTER_VERSES !! chapter with
          | Some max_verses =>
              if max_verses =? 0 then
                Raise (ValueError (lit "Unknown chapter: " ++ str_of_int chapter))
              else if (verse <? 1) || (verse >? max_verses) then
                Raise (ValueError
                  (lit "Chapter " ++ str_of_int chapter ++ lit " has "
                     ++ str_of_int max_verses ++ lit " verses. "
                     ++ lit "Verse number must be between 1 and "
                     ++ str_of_int max_verses
                     ++ lit ". Got: " ++ str_of_int verse))
              else Return (chapter, verse)
          | None =>
              Raise (ValueError (lit "Unknown chapter: " ++ str_of_int chapter))
          end
    end.

End InputValidator.

Import InputValidator.

(** ** The world around the program *)

(** What a call into the world gives back: a value, or an exception. *)
Inductive attempt (A : Type) :=
| Done (a : A)
| Failed (e : exn).
Arguments Done {A} a.
Arguments Failed {A} e.

Module requests.

(** A [requests.Response], as far as the program looks at it. *)
Record Response := {
  status_code : Z;
  reason : list N;
  url : list N;
  json : attempt value
}.

(** [response.raise_for_status()] *)
Definition raise_for_status (response : Response) : result unit :=
  let code := status_code response in
  if (400 <=? code) && (code <? 500) then
    Raise (HTTPError code
      (str_of_int code ++ lit " Client Error: " ++ reason response
         ++ lit " for url: " ++ url response))
  else if (500 <=? code) && (code <? 600) then
    Raise (HTTPError code
      (str_of_int code ++ lit " Server Error: " ++ reason response
         ++ lit " for url: " ++ url response))
  else Return ().

End requests.

(** The world: the server behind [session.get] (which sees the earlier
    requests and the URL asked for), the standard output, the file system,
    the name and usage line [argparse] prints, and [repr] on containers.
    Writing to the standard error stream always succeeds. *)
Class World := {
  repr : value → list N;
  session_get : list (list N) → list N → attempt requests.Response;
  stdout_write : list N → option exn;
  os_open : list N → option exn;
  os_write : list N → list N → option exn;
  os_close : list N → option exn;
  prog : list N;
  usage : list N
}.

(** What the program has done so far: the lines printed on both streams,
    the URLs requested and the contents of the files written. *)
Record state := State {
  stdout : list (list N);
  stderr : list (list N);
  requested : list (list N);
  files : gmap (list N) (list N)
}.

(** A computation that may print, request and write. *)
Definition M (A : Type) : Type := state → result A * state.

#[export] Instance M_ret : MRet M := λ A a σ, (Return a, σ).
#[export] Instance M_bind : MBind M := λ A B f m σ,
  match m σ with
  | (Return a, σ') => f a σ'
  | (Raise e, σ') => (Raise e, σ')
  | (Exit code, σ') => (Exit code, σ')
  end.

Definition lift {A} (r : result A) : M A := λ σ, (r, σ).

Definition lift_attempt {A} (a : attempt A) : M A :=
  match a with
  | Done x => mret x
  | Failed e => lift (Raise e)
  end.

Definition raise {A} (e : exn) : M A := lift (Raise e).

(** [sys.exit(code)] *)
Definition sys_exit {A} (code : Z) : M A := lift (Exit code).

(** [try: body except ...], the handler choosing the first clause that
    matches; [sys.exit] goes through every clause of the program. *)
Definition try_except {A} (body : M A) (handler : exn → option (M A)) : M A :=
  λ σ, match body σ with
       | (Raise e, σ') =>
           match handler e with
           | Some handle => handle σ'
           | None => (Raise e, σ')
           end
       | other => other
       end.

(** [print(line, file=sys.stderr)] *)
Definition print_stderr (line : list N) : M unit :=
  λ σ, (Return (),
        State (stdout σ) (stderr σ ++ [line]) (requested σ) (files σ)).

Section Effects.

Context {W : World}.

(** [str(v)], which is what an f-string inserts for [{v}]. *)
Definition str_of_value (v : value) : list N :=
  match v with
  | VStr s => s
  | VInt z => str_of_int z
  | VBool true => lit "True"
  | VBool false => lit "False"
  | VNone => lit "None"
  | VList _ | VDict _ => repr v
  end.

(** [print(line)] *)
Definition print (line : list N) : M unit :=
  λ σ, match stdout_write line with
       | None => (Return (),
                  State (stdout σ ++ [line]) (stderr σ) (requested σ) (files σ))
       | Some e => (Raise e, σ)
       end.

(** [self.session.get(url, timeout=self.timeout)] *)
Definition session_get_ (url : list N) : M requests.Response :=
  λ σ, let σ' := State (stdout σ) (stderr σ) (requested σ ++ [url]) (files σ) in
       match session_get (requested σ) url with
       | Done response => (Return response, σ')
       | Failed e => (Raise e, σ')
       end.

(** [open(filename, 'w', encoding='utf-8')] truncates the file. *)
Definition open_w (filename : list N) : M unit :=
  λ σ, match os_open filename with
       | None => (Return (),
                  State (stdout σ) (stderr σ) (requested σ)
                        (<[filename := []]> (files σ)))
       | Some e => (Raise e, σ)
       end.

(** [f.write(content)]: the text is encoded, then handed to the system. *)
Definition write (filename content : list N) : M unit :=
  λ σ, match utf8_encode content with
       | None => (Raise (UnicodeEncodeError (utf8_encode_error 0 content)), σ)
       | Some bytes =>
           match os_write filename bytes with
           | None => (Return (),
                      State (stdout σ) (stderr σ) (requested σ)
                            (<[filename := bytes]> (files σ)))
           | Some e => (Raise e, σ)
           end
       end.

Definition close (filename : list N) : M unit :=
  λ σ, match os_close filename with
       | None => (Return (), σ)
       | Some e => (Raise e, σ)
       end.

(** [with open(filename, 'w', encoding='utf-8') as f: body]: the file is
    closed however the body ends, and a failure of [close] is the one that
    leaves the block. *)
Definition closing {A} (filename : list N) (body : M A) : M A :=
  λ σ, let '(r, σ') := body σ in
       match close filename σ' with
       | (Return _, σ'') => (r, σ'')
       | (Raise e, σ'') => (Raise e, σ'')
       | (Exit code, σ'') => (Exit code, σ'')
       end.

Definition with_open_w {A} (filename : list N) (body : M A) : M A :=
  open_w filename;; closing filename body.

End Effects.

(** ** [class QuranAPI] *)

Module QuranAPI.

Definition BASE_URL : list N := lit "http://api.alquran.cloud/v1".

(** Popular translation editions, in the order of the source. *)
Definition TRANSLATIONS : list (list N * list N) :=
  [ (lit "sahih", lit "en.sahih");
    (lit "pickthall", lit "en.pickthall");
    (lit "yusufali", lit "en.yusufali");
    (lit "asad", lit "en.asad");
    (lit "hilali", lit "en.hilali");
    (lit "shakir", lit "en.shakir");
    (lit "wahiduddin", lit "en.wahiduddin");
    (lit "clearquran", lit "en.clearquran") ].

(** [self.TRANSLATIONS.get(key, default)] *)
Definition TRANSLATIONS_get (key default_ : list N) : list N :=
  default default_ ((list_to_map TRANSLATIONS : gmap (list N) (list N)) !! key).

Definition get_available_translations : list (list N) := TRANSLATIONS.*1.

Section QuranAPI.

Context {W : World}.

Definition _make_request (url : list N) : M requests.Response :=
  try_except
    (response ← session_get_ url;
     lift (requests.raise_for_status response);;
     mret response)
    (λ e, match e with
          | Timeout _ =>
              Some (raise (RequestException (lit
                "Request timed out. Please check your internet connection.")))
          | ConnectionError _ =>
              Some (raise (RequestException (lit
                "Connection error. Please check your internet connection.")))
          | HTTPError status_code _ =>
              Some (if status_code =? 404 then
                      raise (RequestException (lit
                        "Verse not found. Please check chapter and verse numbers."))
                    else if status_code =? 429 then
                      raise (RequestException (lit
                        "Too many requests. Please wait a moment and try again."))
                    else
                      raise (RequestException
                        (lit "HTTP error " ++ str_of_int status_code ++ lit ": "
                           ++ str_of_exn e)))
          | _ => None
          end).

(** The record [get_verse] builds at line 67. *)
Definition verse_record (verse_key : list N) (arabic translation : value) : value :=
  VDict (<[lit "verse_key" := VStr verse_key]>
          (<[lit "arabic" := arabic]>
            (<[lit "translation" := translation]> ∅))).

(** Lines 75-87 of [get_verse]: the second request, for the translation,
    and what becomes of its failures. *)
Definition fetch_translation (verse_key translation : list N) (arabic : value) : M value :=
  let result := verse_record verse_key arabic VNone in
  let trans_edition := TRANSLATIONS_get translation translation in
  let trans_url :=
    BASE_URL ++ lit "/ayah/" ++ verse_key ++ lit "/" ++ trans_edition in
  try_except
    (trans_response ← _make_request trans_url;
     trans_data ← lift_attempt (requests.json trans_response);
     code ← lift (get trans_data (lit "code") VNone);
     if eq_200 code then
       data ← lift (getitem trans_data (lit "data"));
       mret (verse_record verse_key arabic data)
     else
       print_stderr (lit "Warning: Could not fetch translation '"
                       ++ translation ++ lit "'. Using Arabic only.");;
       mret result)
    (λ e, if is_RequestException e then
            Some (print_stderr (lit "Warning: Translation request failed: "
                                  ++ str_of_exn e);;
                  mret result)
          else None).

(** Lines 91-94 of [get_verse]: the two outer [except] clauses. *)
Definition reraise (e : exn) : option (M value) :=
  if is_RequestException e then
    Some (raise (RequestException
            (lit "Network error while fetching verse: " ++ str_of_exn e)))
  else if is_JSONDecodeError e then
    Some (raise (ValueError
            (lit "Invalid JSON response from API: " ++ str_of_exn e)))
  else None.

Definition get_verse (chapter verse : Z) (translation : option (list N)) : M value :=
  let verse_key := str_of_int chapter ++ lit ":" ++ str_of_int verse in
  let arabic_url := BASE_URL ++ lit "/ayah/" ++ verse_key in
  try_except
    (arabic_response ← _make_request arabic_url;
     arabic_data ← lift_attempt (requests.json arabic_response);
     code ← lift (get arabic_data (lit "code") VNone);
     if negb (eq_200 code) then
       status ← lift (get arabic_data (lit "status") (VStr (lit "Unknown error")));
       raise (ValueError (lit "API Error: " ++ str_of_value status))
     else
       arabic ← lift (getitem arabic_data (lit "data"));
       let result := verse_record verse_key arabic VNone in
       match translation with
       | Some ((_ :: _) as translation) =>
           fetch_translation verse_key translation arabic
       | _ => mret result
       end)
    reraise.

End QuranAPI.

End QuranAPI.

Import QuranAPI.

(** ** [class OutputFormatter] *)

Module OutputFormatter.

(** The mark in front of a detail line. *)
Definition detail : list N := lit "   " ++ [0x2514; 0x2500]%N ++ lit " ".

(** The right-to-left mark. *)
Definition RLM : list N := [0x200F%N].

Definition rule : value := VStr (times (lit "=") 60).

Section OutputFormatter.

Context {W : World}.

(** Lines 215-224: the Arabic text and the index of the verse. *)
Definition arabic_section (arabic : value) : result (list value) :=
  arabic_text ← get arabic (lit "text") (VStr (lit "No Arabic text available"));
  let formatted_arabic := RLM ++ str_of_value arabic_text in
  let lines := [VStr ([0x0A%N] ++ lit " Arabic Text:"); VStr formatted_arabic] in
  number ← get arabic (lit "numberInSurah") VNone;
  if truthy number then
    number ← getitem arabic (lit "numberInSurah");
    Return (lines ++ [VStr (detail ++ lit "Verse " ++ str_of_value number
                              ++ lit " in Surah")])
  else Return lines.

(** Lines 227-233: the translation and the name of its edition. *)
Definition translation_section (translation : value) : result (list value) :=
  text ← get translation (lit "text") (VStr (lit "No translation available"));
  edition ← get translation (lit "edition") (VDict ∅);
  edition_name ← get edition (lit "englishName") (VStr (lit "Unknown"));
  Return [VStr ([0x0A%N] ++ lit " English Translation:"); text;
          VStr (detail ++ lit "Translation: " ++ str_of_value edition_name)].

(** Lines 236-244: where the verse is. *)
Definition location_section (arabic : value) : result (list value) :=
  juz ← get arabic (lit "juz") VNone;
  page ← get arabic (lit "page") VNone;
  if truthy juz || truthy page then
    Return ([VStr ([0x0A%N] ++ lit " Location:")]
            ++ (if truthy juz
                then [VStr (detail ++ lit "Juz (Para): " ++ str_of_value juz)]
                else [])
            ++ (if truthy page
                then [VStr (detail ++ lit "Page: " ++ str_of_value page)]
                else []))
  else Return [].

(** Lines 204-212: the reference and the name of the chapter, between two
    rules. *)
Definition header (verse_data arabic : value) : result (list value) :=
  verse_key ← get verse_data (lit "verse_key") (VStr (lit "Unknown"));
  surah ← get arabic (lit "surah") (VDict ∅);
  surah_name ← get surah (lit "englishName") (VStr (lit "Unknown"));
  surah ← get arabic (lit "surah") (VDict ∅);
  surah_arabic ← get surah (lit "name") (VStr []);
  let formatted_surah_arabic :=
    if truthy surah_arabic then RLM ++ str_of_value surah_arabic else [] in
  Return [rule;
          VStr (lit "Verse: " ++ str_of_value verse_key ++ lit " | Surah: "
                  ++ str_of_value surah_name ++ lit " ("
                  ++ formatted_surah_arabic ++ lit ")");
          rule].

(** Lines 199-246: the list [lines] when [format_verse] reaches its
    [return]. *)
Definition format_lines (verse_data : value) (output_format : list N) : result (list value) :=
  arabic ← get verse_data (lit "arabic") (VDict ∅);
  translation ← get verse_data (lit "translation") VNone;
  lines ← header verse_data arabic;
  lines ← (if bool_decide (output_format ∈ [lit "arabic"; lit "both"]) && truthy arabic
           then section ← arabic_section arabic; Return (lines ++ section)
           else Return lines);
  lines ← (if bool_decide (output_format ∈ [lit "translation"; lit "both"])
              && truthy translation
           then section ← translation_section translation; Return (lines ++ section)
           else Return lines);
  lines ← (if truthy arabic
           then section ← location_section arabic; Return (lines ++ section)
           else Return lines);
  Return (lines ++ [VStr ([0x0A%N] ++ times (lit "=") 60)]).

Definition format_verse (verse_data : value) (output_format : list N) : result (list N) :=
  lines ← format_lines verse_data output_format;
  join_values [0x0A%N] lines.

Definition save_to_file (content filename : list N) : M bool :=
  try_except
    (with_open_w filename (write filename content);;
     mret true)
    (λ e, if is_IOError e then
            Some (print_stderr (lit "Error saving to file '" ++ filename ++ lit "': "
                                  ++ str_of_exn e);;
                  mret false)
          else None).

End OutputFormatter.

End OutputFormatter.

Import OutputFormatter.

(** ** [main] *)

(** The [argparse.Namespace] that [parser.parse_args()] returns. *)
Module Namespace.

Record t := {
  verse : option (list N);
  translation : list N;
  format : list N;
  output : option (list N);
  list_translations : bool;
  interactive : bool
}.

End Namespace.

Section Main.

Context {W : World}.

(** [parser.error(message)]: the usage line and the message on the
    standard error stream, then exit status 2. *)
Definition parser_error {A} (message : list N) : M A :=
  print_stderr usage;;
  print_stderr (prog ++ lit ": error: " ++ message);;
  sys_exit 2.

(** Lines 430-454 of [main]: the body of the [try] statement. *)
Definition one_shot (args : Namespace.t) (reference : list N) : M unit :=
  '(chapter, verse) ← lift (validate_input reference);
  let translation :=
    if bool_decide (Namespace.format args ∈ [lit "translation"; lit "both"])
    then Some (Namespace.translation args) else None in
  print_stderr (lit "Fetching verse " ++ str_of_int chapter ++ lit ":"
                  ++ str_of_int verse ++ lit "...");;
  verse_data ← get_verse chapter verse translation;
  formatted_output ← lift (format_verse verse_data (Namespace.format args));
  match Namespace.output args with
  | Some ((_ :: _) as output) =>
      saved ← save_to_file formatted_output output;
      if saved : bool then
        print_stderr (lit "Verse saved to '" ++ output ++ lit "'")
      else sys_exit 1
  | _ => print formatted_output
  end.

(** Lines 456-473 of [main]: the four [except] clauses. *)
Definition report (e : exn) : option (M unit) :=
  if is_ValueError e then
    Some (print_stderr (lit "Input Error: " ++ str_of_exn e);;
          print_stderr (lit "Use --help for usage information.");;
          sys_exit 1)
  else if is_RequestException e then
    Some (print_stderr (lit "Network Error: " ++ str_of_exn e);;
          print_stderr (lit "Please check your internet connection and try again.");;
          sys_exit 1)
  else if is_KeyboardInterrupt e then
    Some (print_stderr ([0x0A%N] ++ lit "Operation cancelled by user.");;
          sys_exit 1)
  else if is_Exception e then
    Some (print_stderr (lit "Unexpected Error: " ++ str_of_exn e);;
          print_stderr (lit "Please try again or report this issue.");;
          sys_exit 1)
  else None.

(** [main], from the parsed arguments on. The interactive loop is a
    computation of its own, taken as given. *)
Definition main (run_interactive_mode : M unit) (args : Namespace.t) : M unit :=
  if Namespace.list_translations args then
    let translations := get_available_translations in
    print (lit "Available translations:");;
    foldr (λ trans rest, print (lit "  - " ++ trans);; rest) (mret ()) translations
  else if Namespace.interactive args then
    run_interactive_mode
  else
    match Namespace.verse args with
    | Some ((_ :: _) as reference) => try_except (one_shot args reference) report
    | _ => parser_error (lit "the following arguments are required: verse")
    end.

End Main.


(** ** Vocabulary of the specification *)

(** The raise sites of [validate_input], under the names the
    specification gives to its failures. A [FormatError] is one of the two
    failures raised before any number is parsed. *)
Definition FormatError (e : exn) : Prop :=
  e = ValueError (lit "Input cannot be empty")
  ∨ e = ValueError (lit
      "Invalid format. Please use 'chapter:verse' format (e.g., '2:255', '3:10')").

(** A [RangeError] names the interval of chapters, or the verse count of
    the chapter, together with the offending number. *)
Definition ChapterRangeError (chapter : Z) : exn :=
  ValueError (lit "Chapter number must be between 1 and 114. Got: "
                ++ str_of_int chapter).

Definition VerseRangeError (chapter max_verses verse : Z) : exn :=
  ValueError (lit "Chapter " ++ str_of_int chapter ++ lit " has "
                ++ str_of_int max_verses ++ lit " verses. "
                ++ lit "Verse number must be between 1 and "
                ++ str_of_int max_verses ++ lit ". Got: " ++ str_of_int verse).

Definition RangeError (e : exn) : Prop :=
  (∃ chapter, e = ChapterRangeError chapter)
  ∨ (∃ chapter max_verses verse, e = VerseRangeError chapter max_verses verse).

Definition UnknownChapter (chapter : Z) : exn :=
  ValueError (lit "Unknown chapter: " ++ str_of_int chapter).

(** The failure of [int] on a number written with [digits] digits, more
    than the limit: a [ValueError] that is neither of the above. *)
Definition DigitLimitError (digits : nat) : exn :=
  ValueError
    (lit "Exceeds the limit (4300 digits) for integer string conversion: value has "
       ++ str_of_int (Z.of_nat digits)
       ++ lit " digits; use sys.set_int_max_str_digits() to increase the limit").

(** The shape [<digits>:<digits>]: two non-empty runs of decimal digits
    around one colon, and nothing else. *)
Definition reference_shape (s : list N) : Prop :=
  ∃ g1 g2 : list N,
    g1 ≠ [] ∧ g2 ≠ [] ∧ Forall (λ c, isdecimal c = true) g1
    ∧ Forall (λ c, isdecimal c = true) g2 ∧ s = g1 ++ lit ":" ++ g2.

(** A verse record, as far as the formatter depends on its shape: a
    dictionary whose Arabic payload is a dictionary, in which the chapter
    (when given) is a dictionary too. *)
Definition verse_record_shape (verse_data : value) : Prop :=
  ∃ d a s,
    verse_data = VDict d
    ∧ default (VDict ∅) (d !! lit "arabic") = VDict a
    ∧ default (VDict ∅) (a !! lit "surah") = VDict s.

(** [verse_data.get('arabic', {})] and [verse_data.get('translation')] on a
    dictionary. *)
Definition arabic_of (d : gmap (list N) value) : value :=
  default (VDict ∅) (d !! lit "arabic").

Definition translation_of (d : gmap (list N) value) : value :=
  default VNone (d !! lit "translation").

(** The first line of the Arabic section, of the translation section, and
    the last line of a block. *)
Definition arabic_heading : value := VStr ([0x0A%N] ++ lit " Arabic Text:").

Definition translation_heading : value :=
  VStr ([0x0A%N] ++ lit " English Translation:").

Definition footer : value := VStr ([0x0A%N] ++ times (lit "=") 60).

(** The ten ASCII digits, which are what [str] of a number is made of. *)
Definition ascii_digit (c : N) : bool := (0x30 <=? c)%N && (c <=? 0x39)%N.

(** Lines that open no section. *)
Definition plain_line (l : value) : Prop :=
  (∃ s, l = VStr s) ∧ l ≠ arabic_heading ∧ l ≠ translation_heading.

(** Lines 166-181 of [validate_input], on the two parsed numbers. *)
Definition range_checks (chapter verse : Z) : result (Z * Z) :=
  if (chapter <? 1) || (chapter >? 114) then Raise (ChapterRangeError chapter)
  else
    match CHAPTER_VERSES !! chapter with
    | Some max_verses =>
        if max_verses =? 0 then Raise (UnknownChapter chapter)
        else if (verse <? 1) || (verse >? max_verses) then
          Raise (VerseRangeError chapter max_verses verse)
        else Return (chapter, verse)
    | None => Raise (UnknownChapter chapter)
    end.

(** Line 164 of [validate_input], on the two groups of the match: both
    numbers are read, the chapter first, before [checks] are made. *)
Definition digit_checks (g1 g2 : list N) (checks : result (Z * Z)) : result (Z * Z) :=
  if bool_decide (length g1 ≤ int_max_str_digits)%nat then
    if bool_decide (length g2 ≤ int_max_str_digits)%nat then checks
    else Raise (DigitLimitError (length g2))
  else Raise (DigitLimitError (length g1)).

(** Two references of the right shape with a number of 4301 digits: the
    chapter 11...1 with verse 1, and verse 99...9 of chapter 1. *)
Definition long_chapter : list N := replicate 4301 0x31%N.

Definition long_verse : list N := replicate 4301 0x39%N.

(** ** A sample world *)

(** The payload of verse 1:1 and of one translation of it, as the API
    sends them (text shortened). *)
Definition sample_surah : gmap (list N) value :=
  <[lit "englishName" := VStr (lit "Al-Faatiha")]>
    (<[lit "name" := VStr [0x633; 0x648; 0x631; 0x629]%N]> ∅).

Definition sample_ayah_fields : gmap (list N) value :=
  <[lit "text" := VStr [0x628; 0x650; 0x633; 0x652; 0x645; 0x650]%N]>
    (<[lit "surah" := VDict sample_surah]>
      (<[lit "numberInSurah" := VInt 1]>
        (<[lit "juz" := VInt 1]>
          (<[lit "page" := VInt 1]> ∅)))).

Definition sample_ayah : value := VDict sample_ayah_fields.

Definition sample_translation : value :=
  VDict (<[lit "text" := VStr (lit "In the name of Allah")]>
        (<[lit "edition" :=
             VDict (<[lit "englishName" := VStr (lit "Saheeh International")]> ∅)]>
          ∅)).

(** The fields of the record for verse 1:1 with the given translation. *)
Definition sample_fields (translation : value) : gmap (list N) value :=
  <[lit "verse_key" := VStr (lit "1:1")]>
    (<[lit "arabic" := sample_ayah]>
      (<[lit "translation" := translation]> ∅)).

(** The envelope around a payload: [{"code": 200, "status": "OK", "data": ...}]. *)
Definition envelope_fields (data : value) : gmap (list N) value :=
  <[lit "code" := VInt 200]>
    (<[lit "status" := VStr (lit "OK")]>
      (<[lit "data" := data]> ∅)).

Definition envelope (data : value) : value := VDict (envelope_fields data).

Definition response_200 (url : list N) (body : attempt value) : requests.Response :=
  {| requests.status_code := 200; requests.reason := lit "OK";
     requests.url := url; requests.json := body |}.

(** A world in which the first request is answered with the sample verse
    and every later one as [later] says; the standard output and the file
    system accept everything. *)
Definition sample_world (later : list N → attempt requests.Response) : World :=
  {| repr := λ _, lit "{...}";
     session_get := λ earlier url,
       match earlier with
       | [] => Done (response_200 url (Done (envelope sample_ayah)))
       | _ => later url
       end;
     stdout_write := λ _, None;
     os_open := λ _, None;
     os_write := λ _ _, None;
     os_close := λ _, None;
     prog := lit "quran_verse_fetcher.py";
     usage := lit "usage: quran_verse_fetcher.py [-h] [-t TRANSLATION] [-f FORMAT] [-o OUTPUT] [--list-translations] [-i] [verse]" |}.

(** The server also has the translation. *)
Definition friendly_world : World :=
  sample_world (λ url, Done (response_200 url (Done (envelope sample_translation)))).

(** The same world on a file system that refuses to open files. *)
Definition readonly_world : World :=
  {| repr := repr (World := friendly_world);
     session_get := session_get (World := friendly_world);
     stdout_write := λ _, None;
     os_open := λ filename,
       Some (OSError (lit "[Errno 13] Permission denied: '" ++ filename ++ lit "'"));
     os_write := λ _ _, None;
     os_close := λ _, None;
     prog := prog (World := friendly_world);
     usage := usage (World := friendly_world) |}.

(** The arguments of [quran_verse_fetcher.py 1:1], and of a call without
    any argument. *)
Definition sample_args : Namespace.t :=
  {| Namespace.verse := Some (lit "1:1");
     Namespace.translation := lit "sahih";
     Namespace.format := lit "both";
     Namespace.output := None;
     Namespace.list_translations := false;
     Namespace.interactive := false |}.


(** Nothing printed, requested or written yet. *)
Definition initial : state := State [] [] [] ∅.

(** The two URLs of a reference, and the state once a URL was requested
    or a line was printed on the standard error stream. *)
Definition arabic_url (chapter verse : Z) : list N :=
  BASE_URL ++ lit "/ayah/" ++ str_of_int chapter ++ lit ":" ++ str_of_int verse.

Definition translation_url (chapter verse : Z) (edition : list N) : list N :=
  BASE_URL ++ lit "/ayah/" ++ (str_of_int chapter ++ lit ":" ++ str_of_int verse)
    ++ lit "/" ++ edition.

(** The URL of the second request, from the key of the translation. *)
Definition edition_url (verse_key key : list N) : list N :=
  BASE_URL ++ lit "/ayah/" ++ verse_key ++ lit "/" ++ TRANSLATIONS_get key key.

Definition sent (url : list N) (σ : state) : state :=
  State (stdout σ) (stderr σ) (requested σ ++ [url]) (files σ).

Definition warned (line : list N) (σ : state) : state :=
  State (stdout σ) (stderr σ ++ [line]) (requested σ) (files σ).

Section Fetches.

Context {W : World}.

(** A fetch succeeds: the server answers with a status that is no error
    and a JSON object whose code is 200 and which carries [data]. *)
Definition fetch_succeeds (earlier : list (list N)) (url : list N) (data : value) : Prop :=
  ∃ response body,
    session_get earlier url = Done response
    ∧ requests.raise_for_status response = Return ()
    ∧ requests.json response = Done (VDict body)
    ∧ body !! lit "code" = Some (VInt 200)
    ∧ body !! lit "data" = Some data.

(** The failures of a fetch that [requests] reports as a
    [RequestException] (no answer, an error status, a body that
    [response.json()] rejects with its own exception), and the answer
    whose envelope has another code than 200. *)
Definition fetch_fails_gracefully (earlier : list (list N)) (url : list N) : Prop :=
  (∃ e, session_get earlier url = Failed e ∧ is_RequestException e = true)
  ∨ (∃ response e,
       session_get earlier url = Done response
       ∧ requests.raise_for_status response = Raise e)
  ∨ (∃ response e,
       session_get earlier url = Done response
       ∧ requests.raise_for_status response = Return ()
       ∧ requests.json response = Failed e ∧ is_RequestException e = true)
  ∨ (∃ response body,
       session_get earlier url = Done response
       ∧ requests.raise_for_status response = Return ()
       ∧ requests.json response = Done (VDict body)
       ∧ eq_200 (default VNone (body !! lit "code")) = false).

End Fetches.

Section Files.

Context {W : World}.

(** The file system refuses with nothing but [IOError] ([OSError]). *)
Definition file_system_raises_IOError (filename : list N) : Prop :=
  ∀ e bytes,
    os_open filename = Some e ∨ os_write filename bytes = Some e
    ∨ os_close filename = Some e →
    is_IOError e = true.

(** The exception comes from the file system. *)
Definition raised_by_file_system (content filename : list N) (e : exn) : Prop :=
  os_open filename = Some e
  ∨ (∃ bytes, utf8_encode content = Some bytes ∧ os_write filename bytes = Some e)
  ∨ os_close filename = Some e.

(** Opening, writing [bytes] and closing all succeed. *)
Definition write_succeeds (filename bytes : list N) : Prop :=
  os_open filename = None ∧ os_write filename bytes = None
  ∧ os_close filename = None.

End Files.

(** A result that is no [sys.exit]. *)
Definition no_exit {A} (r : result A) : Prop := ∀ code, r ≠ Exit code.

(** From [σ] to [σ'] nothing was printed on the standard output, no file
    was written, and the standard error stream only grew. *)
Definition extends (σ σ' : state) : Prop :=
  stdout σ' = stdout σ ∧ files σ' = files σ
  ∧ ∃ lines, stderr σ' = stderr σ ++ lines.

(** A computation that never exits and leaves the standard output and the
    files alone. *)
Definition quiet {A} (m : M A) : Prop :=
  ∀ σ, no_exit (m σ).1 ∧ extends σ (m σ).2.

(** The labels under which failures are reported. *)
Definition category_labels : list (list N) :=
  [ lit "Input Error: "; lit "Network Error: ";
    [0x0A%N] ++ lit "Operation cancelled by user."; lit "Unexpected Error: ";
    lit "Error saving to file '" ].

Definition labelled (line : list N) : Prop :=
  ∃ label, label ∈ category_labels ∧ label `prefix_of` line.

Section Delivery.

Context {W : World}.

(** The translation a one-shot run asks for, and its first line on the
    standard error stream. *)
Definition translation_wanted (args : Namespace.t) : option (list N) :=
  if bool_decide (Namespace.format args ∈ [lit "translation"; lit "both"])
  then Some (Namespace.translation args) else None.

Definition fetching (chapter verse : Z) : list N :=
  lit "Fetching verse " ++ str_of_int chapter ++ lit ":" ++ str_of_int verse
    ++ lit "...".


End Delivery.

(** The server answers the second request with a JSON array. *)
Definition array_world : World :=
  sample_world (λ url, Done (response_200 url (Done (VList [])))).

(** The server answers the second request with [{"code": 200}]: no data. *)
Definition dataless_world : World :=
  sample_world (λ url,
    Done (response_200 url (Done (VDict (<[lit "code" := VInt 200]> ∅))))).

(** The second request times out. *)
Definition timeout_world : World :=
  sample_world (λ url, Failed (Timeout (lit "Read timed out."))).

(** A run of ASCII digits, written with the digits of the script whose
    zero is [zero] (U+0660 for Arabic-Indic, U+0966 for Devanagari, ...). *)
Definition in_script (zero : N) (g : list N) : list N :=
  (λ c, zero + (c - 0x30))%N <$> g.

(** A world whose server is [server]; the standard output and the file
    system accept everything. *)
Definition world_of (server : list (list N) → list N → attempt requests.Response) : World :=
  {| repr := repr (World := friendly_world);
     session_get := server;
     stdout_write := λ _, None;
     os_open := λ _, None;
     os_write := λ _ _, None;
     os_close := λ _, None;
     prog := prog (World := friendly_world);
     usage := usage (World := friendly_world) |}.

(** No network: every request times out. *)
Definition offline_world : World :=
  world_of (λ _ _, Failed (Timeout (lit "Read timed out. (read timeout=10)"))).

(** The server does not know the verse: status 404. *)
Definition not_found_world : World :=
  world_of (λ _ url,
    Done {| requests.status_code := 404; requests.reason := lit "Not Found";
            requests.url := url; requests.json := Done (VDict ∅) |}).

(** The server answers with status 200 and an envelope that reports an
    error: [{"code": 400, "status": "Bad Request"}]. *)
Definition error_envelope : gmap (list N) value :=
  <[lit "code" := VInt 400]> (<[lit "status" := VStr (lit "Bad Request")]> ∅).

Definition refusing_world : World :=
  world_of (λ _ url, Done (response_200 url (Done (VDict error_envelope)))).

(** The server answers with [{"code": 200, "status": "OK", "data": null}]:
    an envelope of success around no payload. *)
Definition null_world : World :=
  world_of (λ _ url, Done (response_200 url (Done (envelope VNone)))).

(** The arguments of [quran_verse_fetcher.py 1:1 -f translation]. *)
Definition translation_args : Namespace.t :=
  {| Namespace.verse := Some (lit "1:1");
     Namespace.translation := lit "sahih";
     Namespace.format := lit "translation";
     Namespace.output := None;
     Namespace.list_translations := false;
     Namespace.interactive := false |}.

Section TranslationLines.

Context {W : World}.

(** The two lines under the heading of the translation section: the text
    of the translation, as the payload has it, and the name of its
    edition. *)
Definition translation_text (t : gmap (list N) value) : value :=
  default (VStr (lit "No translation available")) (t !! lit "text").

Definition edition_of (t : gmap (list N) value) : value :=
  default (VDict ∅) (t !! lit "edition").

Definition translation_credit (edition : gmap (list N) value) : value :=
  VStr (detail ++ lit "Translation: "
          ++ str_of_value (default (VStr (lit "Unknown"))
                             (edition !! lit "englishName"))).

End TranslationLines.

(** *** The block, in the words of the specification

    Section 4.3 of the specification describes the block by its parts: a
    header line with the reference and the name of the chapter in both
    scripts, between two rules; the Arabic section, with the mark of
    right-to-left text in front of the text, and the index of the verse in
    its chapter; the translation section, with the text and the name of
    the edition; the location, with the juz and the page; the closing
    rule. Each definition below gives the lines of one part from the
    fields of the record: [d] is the record, [a] its Arabic payload, [s]
    the chapter of the payload, [e] the edition of the translation. *)
Section Block.

Context {W : World}.

Definition title (d s : gmap (list N) value) : list N :=
  lit "Verse: "
    ++ str_of_value (default (VStr (lit "Unknown")) (d !! lit "verse_key"))
    ++ lit " | Surah: "
    ++ str_of_value (default (VStr (lit "Unknown")) (s !! lit "englishName"))
    ++ lit " ("
    ++ (if truthy (default (VStr []) (s !! lit "name"))
        then RLM ++ str_of_value (default (VStr []) (s !! lit "name"))
        else [])
    ++ lit ")".

Definition arabic_lines (a : gmap (list N) value) : list (list N) :=
  [ [0x0A%N] ++ lit " Arabic Text:";
    RLM ++ str_of_value
             (default (VStr (lit "No Arabic text available")) (a !! lit "text")) ]
  ++ (if truthy (default VNone (a !! lit "numberInSurah"))
      then [detail ++ lit "Verse "
              ++ str_of_value (default VNone (a !! lit "numberInSurah"))
              ++ lit " in Surah"]
      else []).

Definition translation_lines (text : list N) (e : gmap (list N) value) : list (list N) :=
  [ [0x0A%N] ++ lit " English Translation:";
    text;
    detail ++ lit "Translation: "
      ++ str_of_value (default (VStr (lit "Unknown")) (e !! lit "englishName")) ].

Definition location_lines (a : gmap (list N) value) : list (list N) :=
  if truthy (default VNone (a !! lit "juz"))
     || truthy (default VNone (a !! lit "page"))
  then
    [[0x0A%N] ++ lit " Location:"]
      ++ (if truthy (default VNone (a !! lit "juz"))
          then [detail ++ lit "Juz (Para): "
                  ++ str_of_value (default VNone (a !! lit "juz"))]
          else [])
      ++ (if truthy (default VNone (a !! lit "page"))
          then [detail ++ lit "Page: "
                  ++ str_of_value (default VNone (a !! lit "page"))]
          else [])
  else [].

(** The lines of the block in mode [mode], around the lines [shown] of the
    translation section. The Arabic section and the location need a
    payload that is not empty. *)
Definition block (d a s : gmap (list N) value) (mode : list N)
    (shown : list (list N)) : list (list N) :=
  [times (lit "=") 60; title d s; times (lit "=") 60]
  ++ (if bool_decide (mode ∈ [lit "arabic"; lit "both"]) && truthy (VDict a)
      then arabic_lines a else [])
  ++ shown
  ++ (if truthy (VDict a) then location_lines a else [])
  ++ [[0x0A%N] ++ times (lit "=") 60].

End Block.

(** The fields of the sample translation. *)
Definition sample_translation_fields : gmap (list N) value :=
  <[lit "text" := VStr (lit "In the name of Allah")]>
    (<[lit "edition" :=
         VDict (<[lit "englishName" := VStr (lit "Saheeh International")]> ∅)]>
      ∅).

(** A translation whose text is [null]. *)
Definition null_translation_fields : gmap (list N) value :=
  <[lit "text" := VNone]> ∅.

(** What a one-shot run for [chapter]:[verse] has asked the server between
    [σ] and [σ']: the Arabic text, and after it at most the edition of the
    translation the arguments want. *)
Definition asked (args : Namespace.t) (chapter verse : Z) (σ σ' : state) : Prop :=
  requested σ' = requested σ ++ [arabic_url chapter verse]
  ∨ ∃ key,
      translation_wanted args = Some key ∧ key ≠ []
      ∧ requested σ'
        = requested σ ++ [arabic_url chapter verse;
                          translation_url chapter verse (TRANSLATIONS_get key key)].

(** The arguments of [quran_verse_fetcher.py --list-translations -i 1:1]
    and of [quran_verse_fetcher.py 115:1]. *)
Definition list_args : Namespace.t :=
  {| Namespace.verse := Some (lit "1:1");
     Namespace.translation := lit "sahih";
     Namespace.format := lit "both";
     Namespace.output := None;
     Namespace.list_translations := true;
     Namespace.interactive := true |}.

Definition invalid_args : Namespace.t :=
  {| Namespace.verse := Some (lit "115:1");
     Namespace.translation := lit "sahih";
     Namespace.format := lit "both";
     Namespace.output := None;
     Namespace.list_translations := false;
     Namespace.interactive := false |}.

(** ** [run_interactive_mode] *)

Module Interactive.

(** [c.lower()] when it is one ASCII character. Besides the ASCII
    characters, only the Kelvin sign (U+212A, which lowers to [k]) has
    such a lower case. *)
Definition lower_ascii (c : N) : option N :=
  if (0x41 <=? c)%N && (c <=? 0x5A)%N then Some (c + 0x20)%N
  else if (c <? 0x80)%N then Some c
  else if (c =? 0x212A)%N then Some 0x6B%N
  else None.

(** [s.lower() == word] for a [word] of ASCII characters. [str.lower]
    works character by character (a final sigma apart, which stays
    outside ASCII), and every character has a lower case of one character
    at least. *)
Fixpoint lower_is (s word : list N) : bool :=
  match s, word with
  | [], [] => true
  | c :: s', x :: word' =>
      bool_decide (lower_ascii c = Some x) && lower_is s' word'
  | _, _ => false
  end.

(** [s.lower() in words] *)
Definition lower_in (s : list N) (words : list (list N)) : bool :=
  existsb (lower_is s) words.

(** The program at its terminal: what it has done so far, what [input]
    will find on the standard input (the lines typed, a line being also
    the place of an interruption or of another failure of [input]), and
    the prompts [input] was called with. Where a prompt is shown (on the
    terminal, or on the standard output when the input is redirected) is
    the business of [input], so the prompts are kept apart from the lines
    [print] wrote. *)
Record console := Console {
  world : state;
  stdin : list (attempt (list N));
  prompts : list (list N)
}.

(** A computation that may also read the standard input. *)
Definition IO (A : Type) : Type := console → result A * console.

#[export] Instance IO_ret : MRet IO := λ A a κ, (Return a, κ).
#[export] Instance IO_bind : MBind IO := λ A B f m κ,
  match m κ with
  | (Return a, κ') => f a κ'
  | (Raise e, κ') => (Raise e, κ')
  | (Exit code, κ') => (Exit code, κ')
  end.

(** A computation of the one-shot part, at the terminal. *)
Definition run {A} (m : M A) : IO A :=
  λ κ, let '(r, σ) := m (world κ) in (r, Console σ (stdin κ) (prompts κ)).

(** [input(prompt)]: the next line, without its end; [EOFError] when the
    standard input is exhausted. *)
Definition input (prompt : list N) : IO (list N) :=
  λ κ, match stdin κ with
       | Done line :: rest =>
           (Return line, Console (world κ) rest (prompts κ ++ [prompt]))
       | Failed e :: rest =>
           (Raise e, Console (world κ) rest (prompts κ ++ [prompt]))
       | [] =>
           (Raise (OtherException (lit "EOF when reading a line")),
            Console (world κ) [] (prompts κ ++ [prompt]))
       end.

(** [try: body except ...] at the terminal. *)
Definition try_io {A} (body : IO A) (handler : exn → option (IO A)) : IO A :=
  λ κ, match body κ with
       | (Raise e, κ') =>
           match handler e with
           | Some handle => handle κ'
           | None => (Raise e, κ')
           end
       | other => other
       end.

(** How an iteration of [while True] ends: [continue] (or the end of the
    body), or [break]. *)
Inductive control := Continue | Break.

Definition farewell : list N :=
  [0x0A%N] ++ lit " Thank you for using Quran Verse Fetcher! May Allah bless you.".

Section Interactive.

Context {W : World}.

(** Lines 312-345: the questions that follow a valid reference, the fetch
    and the block. *)
Definition fetch_and_show (chapter verse : Z) : IO control :=
  run (print ([0x0A%N]
         ++ lit " Choose translation (press Enter for default 'sahih'):"));;
  run (print (lit
    "Options: sahih, pickthall, yusufali, asad, hilali, shakir, wahiduddin, clearquran"));;
  line ← input (lit "Translation: ");
  let translation_input := strip line in
  let translation :=
    if bool_decide (translation_input = []) then lit "sahih"
    else translation_input in
  translation ←
    (if bool_decide (translation ∈ get_available_translations)
     then mret translation
     else
       run (print (lit " Unknown translation '" ++ translation
                     ++ lit "', using 'sahih' instead."));;
       mret (lit "sahih"));
  run (print ([0x0A%N] ++ lit " Choose format (press Enter for default 'both'):"));;
  run (print (lit "Options: arabic, translation, both"));;
  line ← input (lit "Format: ");
  let format_input := strip line in
  let format_choice :=
    if bool_decide (format_input ∈ [lit "arabic"; lit "translation"; lit "both"])
    then format_input else lit "both" in
  run (print ([0x0A%N] ++ lit " Fetching verse " ++ str_of_int chapter ++ lit ":"
                ++ str_of_int verse ++ lit "..."));;
  run (print (times (lit "-") 60));;
  verse_data ← run (get_verse chapter verse (Some translation));
  formatted_output ← run (lift (format_verse verse_data format_choice));
  run (print formatted_output);;
  run (print (times (lit "-") 60));;
  run (print (lit " Would you like to fetch another verse? (y/n)"));;
  line ← input (lit "Continue: ");
  let continue_input := strip line in
  if lower_in continue_input [lit "n"; lit "no"; lit "quit"; lit "exit"] then
    run (print farewell);;
    mret Break
  else
    run (print []);;
    mret Continue.

(** Lines 280-345: the body of the [try] statement of the loop. *)
Definition body : IO control :=
  run (print (lit
    "Enter a verse in format 'chapter:verse' (e.g., '2:255', '1:1')"));;
  run (print (lit
    "Or type 'list' to see available translations, 'help' for examples, or 'quit' to exit."));;
  line ← input ([0x0A%N] ++ lit " Verse: ");
  let user_input := strip line in
  if lower_in user_input [lit "quit"; lit "exit"; lit "q"] then
    run (print farewell);;
    mret Break
  else if lower_is user_input (lit "list") then
    let translations := get_available_translations in
    run (print ([0x0A%N] ++ lit " Available translations:"));;
    foldr (λ trans rest, run (print (lit "  - " ++ trans));; rest)
      (mret ()) translations;;
    run (print []);;
    mret Continue
  else if lower_is user_input (lit "help") then
    run (print ([0x0A%N] ++ lit " Examples:"));;
    run (print (lit "  2:255     - Ayat al-Kursi"));;
    run (print (lit "  1:1       - Al-Fatiha, verse 1"));;
    run (print (lit "  3:10      - Surah Al-Imran, verse 10"));;
    run (print (lit "  18:65     - Surah Al-Kahf, verse 65"));;
    run (print []);;
    mret Continue
  else
    (* the inner [try]: only [validate_input] is in it *)
    match validate_input user_input with
    | Return (chapter, verse) => fetch_and_show chapter verse
    | Raise e =>
        if is_ValueError e then
          run (print (lit " Error: " ++ str_of_exn e));;
          run (print (lit "Please use format 'chapter:verse' (e.g., '2:255')"
                        ++ [0x0A%N]));;
          mret Continue
        else run (raise e)
    | Exit code => run (sys_exit code)
    end.

(** Lines 347-352: the two [except] clauses of the loop. *)
Definition recover (e : exn) : option (IO control) :=
  if is_KeyboardInterrupt e then
    Some (run (print ([0x0A%N] ++ farewell));;
          mret Break)
  else if is_Exception e then
    Some (run (print (lit " An error occurred: " ++ str_of_exn e));;
          run (print (lit "Please try again." ++ [0x0A%N]));;
          mret Continue)
  else None.

(** One turn of [while True]. *)
Definition iteration : IO control := try_io body recover.

(** [while True]: [None] when the loop is still running after [fuel]
    turns. *)
Fixpoint loop (fuel : nat) (κ : console) : option (result unit * console) :=
  match fuel with
  | O => None
  | S fuel' =>
      match iteration κ with
      | (Return Continue, κ') => loop fuel' κ'
      | (Return Break, κ') => Some (Return (), κ')
      | (Raise e, κ') => Some (Raise e, κ')
      | (Exit code, κ') => Some (Exit code, κ')
      end
  end.

(** Lines 271-274: the banner. *)
Definition banner : IO unit :=
  run (print (times (lit "=") 60));;
  run (print (lit "Quran Verse Fetcher"));;
  run (print (times (lit "=") 60));;
  run (print []).

Definition run_interactive_mode (fuel : nat) (κ : console) : option (result unit * console) :=
  match banner κ with
  | (Return _, κ') => loop fuel κ'
  | (Raise e, κ') => Some (Raise e, κ')
  | (Exit code, κ') => Some (Exit code, κ')
  end.

End Interactive.

End Interactive.

Import Interactive.

(** The console after [print] wrote [lines], and after [input] took a
    line for [prompt]. *)
Definition printed (lines : list (list N)) (κ : console) : console :=
  Console (State (stdout (world κ) ++ lines) (stderr (world κ))
                 (requested (world κ)) (files (world κ)))
          (stdin κ) (prompts κ).

Definition answered (prompt : list N) (κ : console) : console :=
  Console (world κ) (tail (stdin κ)) (prompts κ ++ [prompt]).

(** The two lines that open every turn of the loop, the four of the
    banner, and the prompt for the reference. *)
Definition instructions : list (list N) :=
  [ lit "Enter a verse in format 'chapter:verse' (e.g., '2:255', '1:1')";
    lit "Or type 'list' to see available translations, 'help' for examples, or 'quit' to exit." ].

Definition banner_lines : list (list N) :=
  [ times (lit "=") 60; lit "Quran Verse Fetcher"; times (lit "=") 60; [] ].

Definition verse_prompt : list N := [0x0A%N] ++ lit " Verse: ".

(** The words that are no reference: [quit], [exit], [q], [list] and
    [help], in any case. *)
Definition is_command (s : list N) : bool :=
  lower_in s [lit "quit"; lit "exit"; lit "q"]
  || lower_is s (lit "list") || lower_is s (lit "help").

(** A warning of [get_verse] on the standard error stream. *)
Definition warning_line (l : list N) : Prop := lit "Warning: " `prefix_of` l.

(** From [κ] to [κ'] no file was written and the standard error stream
    got nothing but warnings. *)
Definition calm (κ κ' : console) : Prop :=
  files (world κ') = files (world κ)
  ∧ ∃ lines, stderr (world κ') = stderr (world κ) ++ lines
             ∧ Forall warning_line lines.

(** Computations that never exit and leave the files and the standard
    error stream alone, warnings apart: at the terminal, and in the
    one-shot part. *)
Definition well_behaved {A} (m : IO A) : Prop :=
  ∀ κ, no_exit (m κ).1 ∧ calm κ (m κ).2.

Definition mild {A} (m : M A) : Prop :=
  ∀ σ, no_exit (m σ).1
       ∧ files (m σ).2 = files σ
       ∧ ∃ lines, stderr (m σ).2 = stderr σ ++ lines ∧ Forall warning_line lines.

(** The requests of a computation, as a relation between the requests
    sent before it and after it. *)
Definition sends {A} (Q : list (list N) → list (list N) → Prop) (m : IO A) : Prop :=
  ∀ κ, Q (requested (world κ)) (requested (world (m κ).2)).

Definition keeps_requests {A} (m : IO A) : Prop :=
  sends (λ before after, after = before) m.

(** The requests of a fetch at the terminal: the Arabic text of the
    reference, and after it at most an edition of the catalogue. *)
Definition fetched (chapter verse : Z) (before after : list (list N)) : Prop :=
  after = before ++ [arabic_url chapter verse]
  ∨ ∃ key,
      key ∈ get_available_translations
      ∧ after = before ++ [arabic_url chapter verse;
                           translation_url chapter verse (TRANSLATIONS_get key key)].

(** The requests of one turn of the loop: none, or those of a fetch for a
    reference of the table. *)
Definition asked_at_terminal (before after : list (list N)) : Prop :=
  after = before
  ∨ ∃ chapter verse max_verses,
      1 ≤ chapter ≤ 114
      ∧ CHAPTER_VERSES !! chapter = Some max_verses
      ∧ 1 ≤ verse ≤ max_verses
      ∧ fetched chapter verse before after.

(** The translation and the format a turn works with, from the answers to
    its second and third questions (lines 316-320 and 326). *)
Definition chosen_translation (line : list N) : list N :=
  let translation :=
    if bool_decide (strip line = []) then lit "sahih" else strip line in
  if bool_decide (translation ∈ get_available_translations)
  then translation else lit "sahih".

Definition chosen_format (line : list N) : list N :=
  if bool_decide (strip line ∈ [lit "arabic"; lit "translation"; lit "both"])
  then strip line else lit "both".

(** What a turn prints between a valid reference and the fetch, [line]
    being the answer to the question about the translation. *)
Definition questions (line : list N) (chapter verse : Z) : list (list N) :=
  let translation :=
    if bool_decide (strip line = []) then lit "sahih" else strip line in
  [ [0x0A%N] ++ lit " Choose translation (press Enter for default 'sahih'):";
    lit "Options: sahih, pickthall, yusufali, asad, hilali, shakir, wahiduddin, clearquran" ]
  ++ (if bool_decide (translation ∈ get_available_translations) then []
      else [lit " Unknown translation '" ++ translation
              ++ lit "', using 'sahih' instead."])
  ++ [ [0x0A%N] ++ lit " Choose format (press Enter for default 'both'):";
       lit "Options: arabic, translation, both";
       [0x0A%N] ++ lit " Fetching verse " ++ str_of_int chapter ++ lit ":"
         ++ str_of_int verse ++ lit "...";
       times (lit "-") 60 ].

(** A terminal at which nothing was done yet, with [lines] typed ahead. *)
Definition terminal (lines : list (attempt (list N))) : console :=
  Console initial lines [].

(** * Properties *)

(** ** Characters and decimal text *)

(** [lia] on quotients and remainders by a constant. *)
#[local] Ltac Zify.zify_post_hook ::= Z.to_euclidean_division_equations.

Section Text.

Implicit Types (s g : list N) (c : N).

Lemma ascii_digit_cases c :
  ascii_digit c = true →
  to_decimal c = Some (Z.of_N c - 0x30) ∧ isspace c = false.
Proof.
  unfold ascii_digit. intros [H1%N.leb_le H2%N.leb_le]%andb_prop.
  assert (c = 48 ∨ c = 49 ∨ c = 50 ∨ c = 51 ∨ c = 52 ∨ c = 53 ∨ c = 54
          ∨ c = 55 ∨ c = 56 ∨ c = 57)%N as Hc by lia.
  repeat (destruct Hc as [-> | Hc]); try subst c; by vm_compute.
Qed.

Lemma ascii_digit_isdecimal c : ascii_digit c = true → isdecimal c = true.
Proof.
  intros [H _]%ascii_digit_cases. unfold isdecimal. by rewrite H.
Qed.

Lemma int_of_digits_snoc s c :
  int_of_digits (s ++ [c])
  = a ← int_of_digits s; d ← to_decimal c; Some (10 * a + d).
Proof. unfold int_of_digits. by rewrite foldl_app. Qed.

Lemma digits_ascii fuel n : Forall (λ c, ascii_digit c = true) (digits fuel n).
Proof.
  revert n. induction fuel as [|fuel IH]; intros n; cbn [digits]; [constructor|].
  apply Forall_app. split.
  - destruct (n <? 10)%N; [constructor | apply IH].
  - repeat constructor. unfold ascii_digit.
    apply andb_true_intro. split; apply N.leb_le; lia.
Qed.

Lemma digits_nonempty fuel n : digits (S fuel) n ≠ [].
Proof. cbn [digits]. by destruct (if (n <? 10)%N then _ else _). Qed.

(** Reading back the digits written for [n] gives [n]. *)
Lemma int_of_digits_digits fuel n :
  (n < 2 ^ N.of_nat fuel)%N →
  int_of_digits (digits fuel n) = Some (Z.of_N n).
Proof.
  revert n. induction fuel as [|fuel IH]; intros n Hn.
  - simpl in Hn. assert (n = 0%N) as -> by lia. reflexivity.
  - cbn [digits]. rewrite int_of_digits_snoc.
    assert (ascii_digit (48 + n mod 10)%N = true) as [Hd _]%ascii_digit_cases.
    { unfold ascii_digit. apply andb_true_intro. split; apply N.leb_le; lia. }
    rewrite Hd. destruct (n <? 10)%N eqn:Hlt.
    + apply N.ltb_lt in Hlt. cbn. f_equal. lia.
    + apply N.ltb_ge in Hlt. rewrite IH.
      * cbn. f_equal. lia.
      * rewrite Nat2N.inj_succ, N.pow_succ_r' in Hn. lia.
Qed.

Lemma str_of_N_nonempty n : str_of_N n ≠ [].
Proof. apply digits_nonempty. Qed.

Lemma str_of_N_ascii n : Forall (λ c, ascii_digit c = true) (str_of_N n).
Proof. apply digits_ascii. Qed.

Lemma int_of_digits_str_of_N n : int_of_digits (str_of_N n) = Some (Z.of_N n).
Proof.
  apply int_of_digits_digits. rewrite Nat2N.inj_succ, N2Nat.id.
  destruct (decide (n = 0%N)) as [->|]; [done|].
  apply N.log2_spec. lia.
Qed.

Lemma str_of_int_nonneg z : 0 ≤ z → str_of_int z = str_of_N (Z.to_N z).
Proof. intros. unfold str_of_int. by rewrite (proj2 (Z.ltb_ge z 0)). Qed.

Lemma int_of_digits_str_of_int z : 0 ≤ z → int_of_digits (str_of_int z) = Some z.
Proof.
  intros. rewrite str_of_int_nonneg, int_of_digits_str_of_N by done.
  f_equal. lia.
Qed.

(** [int] is defined on every run of decimal digits, and is not
    negative there. *)
Lemma int_of_digits_decimal s :
  Forall (λ c, isdecimal c = true) s → ∃ z, int_of_digits s = Some z ∧ 0 ≤ z.
Proof.
  induction s as [|c s IH] using rev_ind; intros Hs.
  - exists 0. by split.
  - apply Forall_app in Hs as [Hs Hc]. destruct (IH Hs) as (a & Ha & Hpos).
    rewrite int_of_digits_snoc, Ha.
    rewrite Forall_singleton in Hc. unfold isdecimal in Hc.
    destruct (to_decimal c) as [d|] eqn:Hd; [|done].
    exists (10 * a + d). split; [reflexivity|].
    unfold to_decimal in Hd. destruct (find _ _); [|done].
    injection Hd as <-. lia.
Qed.

End Text.

(** ** [strip] *)

Section Strip.

Implicit Types (s : list N) (c : N).

Lemma lstrip_head s c : head (lstrip s) = Some c → isspace c = false.
Proof.
  induction s as [|x s IH]; simpl; [done|].
  destruct (isspace x) eqn:Hx; [done|]. simpl. by intros [= <-].
Qed.

Lemma lstrip_id s :
  (∀ c, head s = Some c → isspace c = false) → lstrip s = s.
Proof.
  destruct s as [|x s]; simpl; [done|]. intros H. by rewrite (H x eq_refl).
Qed.

(** What [strip] returns neither starts nor ends with white space. *)
Lemma strip_last s c : last (strip s) = Some c → isspace c = false.
Proof. unfold strip, rstrip. rewrite last_reverse. apply lstrip_head. Qed.

Lemma strip_id s :
  (∀ c, head s = Some c → isspace c = false) →
  (∀ c, last s = Some c → isspace c = false) →
  strip s = s.
Proof.
  intros Hhead Hlast. unfold strip, rstrip. rewrite (lstrip_id s Hhead).
  rewrite lstrip_id; [apply reverse_involutive|].
  intros c. rewrite head_reverse. apply Hlast.
Qed.

End Strip.

(** ** The pattern [^(\d+):(\d+)$] *)

Section Pattern.

Implicit Types (s g ds rest : list N) (c : N).

#[local] Abbreviation decimal := (λ c : N, isdecimal c = true).

Lemma span_digits_spec s ds rest :
  span_digits s = (ds, rest) →
  s = ds ++ rest ∧ Forall decimal ds
  ∧ ∀ c, head rest = Some c → isdecimal c = false.
Proof.
  revert ds rest. induction s as [|x s IH]; intros ds rest; simpl.
  - intros [= <- <-]. by split_and!.
  - destruct (isdecimal x) eqn:Hx.
    + destruct (span_digits s) as [ds' rest'].
      intros [= <- <-]. destruct (IH _ _ eq_refl) as (-> & Hds & Hrest).
      split_and!; [done| by constructor | done].
    + intros [= <- <-]. split_and!; [done | constructor |].
      simpl. by intros c [= <-].
Qed.

Lemma span_digits_app ds rest :
  Forall decimal ds →
  (∀ c, head rest = Some c → isdecimal c = false) →
  span_digits (ds ++ rest) = (ds, rest).
Proof.
  intros Hds Hrest. induction Hds as [|x ds Hx _ IH]; simpl.
  - destruct rest as [|c rest]; [done|]. simpl. by rewrite (Hrest c eq_refl).
  - by rewrite Hx, IH.
Qed.

Lemma at_dollar_true rest :
  at_dollar rest = true → rest = [] ∨ rest = [0x0A%N].
Proof.
  unfold at_dollar. intros [H|H]%orb_prop; apply bool_decide_eq_true in H; auto.
Qed.

(** The matcher accepts exactly the strings the pattern denotes. *)
Lemma re_match_intro g1 g2 :
  g1 ≠ [] → g2 ≠ [] → Forall decimal g1 → Forall decimal g2 →
  re_match (g1 ++ lit ":" ++ g2) = Some (g1, g2).
Proof.
  intros Hne1 Hne2 Hg1 Hg2. unfold re_match.
  rewrite span_digits_app; [|done|by intros c [= <-]].
  destruct g1 as [|x g1]; [done|].
  change (lit ":" ++ g2) with (0x3A%N :: g2). cbv iota beta.
  change (0x3A =? 58)%N with true. cbv iota.
  rewrite <- (app_nil_r g2) at 1. rewrite span_digits_app; [|done..].
  by destruct g2.
Qed.

Lemma re_match_elim s g1 g2 :
  re_match s = Some (g1, g2) →
  g1 ≠ [] ∧ g2 ≠ [] ∧ Forall decimal g1 ∧ Forall decimal g2
  ∧ (s = g1 ++ lit ":" ++ g2 ∨ s = g1 ++ lit ":" ++ g2 ++ [0x0A%N]).
Proof.
  unfold re_match.
  destruct (span_digits s) as [group1 rest1] eqn:H1.
  destruct group1 as [|x group1]; [done|].
  destruct rest1 as [|c rest2]; [done|].
  destruct (c =? 58)%N eqn:Hc; [|done]. apply N.eqb_eq in Hc as ->.
  destruct (span_digits rest2) as [group2 rest3] eqn:H2.
  destruct group2 as [|y group2]; [done|].
  destruct (at_dollar rest3) eqn:Hend; [|done]. intros [= <- <-].
  apply span_digits_spec in H1 as (-> & Hg1 & _).
  apply span_digits_spec in H2 as (-> & Hg2 & _).
  split_and!; [done..|].
  apply at_dollar_true in Hend as [-> | ->]; [left | right]; [|done].
  by rewrite app_nil_r.
Qed.

(** After [strip], the newline that [$] tolerates cannot be there. *)
Lemma re_match_strip s g1 g2 :
  re_match (strip s) = Some (g1, g2) →
  g1 ≠ [] ∧ g2 ≠ [] ∧ Forall decimal g1 ∧ Forall decimal g2
  ∧ strip s = g1 ++ lit ":" ++ g2.
Proof.
  intros (? & ? & ? & ? & [H | H])%re_match_elim; [done|exfalso].
  assert (last (strip s) = Some 0x0A%N) as Hlast.
  { rewrite H, !app_assoc. apply last_snoc. }
  by apply strip_last in Hlast.
Qed.

End Pattern.

(** ** [InputValidator.validate_input] *)

Section Validator.

Implicit Types (s g : list N) (c : N) (chapter verse : Z).

#[local] Abbreviation decimal := (λ c : N, isdecimal c = true).

(** Every chapter of the table has at least one verse. *)
Lemma CHAPTER_VERSES_total chapter :
  1 ≤ chapter ≤ 114 →
  ∃ max_verses, CHAPTER_VERSES !! chapter = Some max_verses ∧ 1 ≤ max_verses.
Proof.
  intros Hc.
  assert (forallb (λ k, match CHAPTER_VERSES !! k with
                        | Some m => 1 <=? m
                        | None => false
                        end) (seqZ 1 114) = true) as Hall by by vm_compute.
  rewrite forallb_forall in Hall. specialize (Hall chapter).
  destruct (CHAPTER_VERSES !! chapter) as [m|].
  - exists m. split; [done|]. apply Z.leb_le, Hall.
    apply list_elem_of_In, elem_of_seqZ. lia.
  - exfalso. enough (false = true) by done. apply Hall.
    apply list_elem_of_In, elem_of_seqZ. lia.
Qed.

(** No chapter has a thousand verses. *)
Lemma CHAPTER_VERSES_bound chapter max_verses :
  CHAPTER_VERSES !! chapter = Some max_verses → max_verses < 1000.
Proof.
  intros Hmax.
  assert (map_Forall (λ _ m, m < 1000) CHAPTER_VERSES) as Hall.
  { apply (bool_decide_unpack _). by vm_compute. }
  by apply (Hall chapter).
Qed.

Lemma DigitLimitError_eq (digits : nat) :
  DigitLimitError digits
  = ValueError
      (lit "Exceeds the limit (" ++ str_of_int (Z.of_nat int_max_str_digits)
         ++ lit " digits) for integer string conversion: value has "
         ++ str_of_int (Z.of_nat digits)
         ++ lit " digits; use sys.set_int_max_str_digits() to increase the limit").
Proof. reflexivity. Qed.

(** [int] on a run of decimal digits: the number it writes, unless the
    run is longer than the limit. *)
Lemma int_of_str_decimal g z :
  int_of_digits g = Some z →
  int_of_str g
  = if bool_decide (length g ≤ int_max_str_digits)%nat then Return z
    else Raise (DigitLimitError (length g)).
Proof.
  intros Hz. unfold int_of_str. rewrite Hz. by case_bool_decide.
Qed.

(** The ways through [validate_input]: an empty input, a mismatch, and a
    match, whose two numbers are read and then checked. *)
Lemma validate_input_cases s :
  (s = [] ∧ validate_input s = Raise (ValueError (lit "Input cannot be empty")))
  ∨ (s ≠ [] ∧ re_match (strip s) = None
     ∧ validate_input s = Raise (ValueError (lit
         "Invalid format. Please use 'chapter:verse' format (e.g., '2:255', '3:10')")))
  ∨ (∃ g1 g2 chapter verse,
       s ≠ [] ∧ re_match (strip s) = Some (g1, g2)
       ∧ int_of_digits g1 = Some chapter ∧ int_of_digits g2 = Some verse
       ∧ 0 ≤ chapter ∧ 0 ≤ verse
       ∧ validate_input s = digit_checks g1 g2 (range_checks chapter verse)).
Proof.
  unfold validate_input. case_bool_decide as Hs; [by left|right].
  destruct (re_match (strip s)) as [[g1 g2]|] eqn:Hm; [right|by left].
  destruct (re_match_strip _ _ _ Hm) as (_ & _ & Hg1 & Hg2 & _).
  destruct (int_of_digits_decimal _ Hg1) as (chapter & H1 & ?).
  destruct (int_of_digits_decimal _ Hg2) as (verse & H2 & ?).
  exists g1, g2, chapter, verse.
  rewrite (int_of_str_decimal _ _ H1), (int_of_str_decimal _ _ H2).
  unfold digit_checks. split_and!; [done..|].
  by repeat case_bool_decide.
Qed.

Lemma validate_input_parsed s g1 g2 :
  strip s = g1 ++ lit ":" ++ g2 →
  g1 ≠ [] → g2 ≠ [] → Forall decimal g1 → Forall decimal g2 →
  ∃ chapter verse,
    int_of_digits g1 = Some chapter ∧ int_of_digits g2 = Some verse
    ∧ 0 ≤ chapter ∧ 0 ≤ verse
    ∧ validate_input s = digit_checks g1 g2 (range_checks chapter verse).
Proof.
  intros Hs Hne1 Hne2 Hg1 Hg2.
  destruct (validate_input_cases s) as [[-> _] | [(_ & Hm & _) | H]].
  - by destruct g1.
  - by rewrite Hs, re_match_intro in Hm.
  - destruct H as (g1' & g2' & chapter & verse & _ & Hm & H1 & H2 & ? & ? & ->).
    rewrite Hs, re_match_intro in Hm by done. injection Hm as <- <-.
    by exists chapter, verse.
Qed.

Lemma digit_checks_within g1 g2 checks :
  (length g1 ≤ int_max_str_digits)%nat → (length g2 ≤ int_max_str_digits)%nat →
  digit_checks g1 g2 checks = checks.
Proof.
  intros H1 H2. unfold digit_checks. by rewrite !bool_decide_eq_true_2.
Qed.

Lemma digit_checks_chapter g1 g2 checks :
  (int_max_str_digits < length g1)%nat →
  digit_checks g1 g2 checks = Raise (DigitLimitError (length g1)).
Proof.
  intros H1. unfold digit_checks. rewrite bool_decide_eq_false_2; [done | lia].
Qed.

Lemma digit_checks_verse g1 g2 checks :
  (length g1 ≤ int_max_str_digits)%nat → (int_max_str_digits < length g2)%nat →
  digit_checks g1 g2 checks = Raise (DigitLimitError (length g2)).
Proof.
  intros H1 H2. unfold digit_checks. rewrite bool_decide_eq_true_2 by done.
  rewrite bool_decide_eq_false_2; [done | lia].
Qed.

(** How [digit_checks] ends: as the checks do, or with the failure of
    [int] on a number beyond the limit. *)
Lemma digit_checks_cases g1 g2 checks :
  digit_checks g1 g2 checks = checks
  ∨ ∃ digits, (int_max_str_digits < digits)%nat
              ∧ digit_checks g1 g2 checks = Raise (DigitLimitError digits).
Proof.
  unfold digit_checks. repeat case_bool_decide; [by left|right..];
    eexists; (split; [|reflexivity]); lia.
Qed.

Lemma digits_length fuel n : (length (digits fuel n) ≤ fuel)%nat.
Proof.
  revert n. induction fuel as [|fuel IH]; intros n; cbn [digits]; [done|].
  rewrite length_app. cbn [length].
  destruct (n <? 10)%N; [cbn; lia|]. specialize (IH (n / 10)%N). lia.
Qed.

(** A number below 1000 is written with far fewer digits than the limit. *)
Lemma str_of_N_short n :
  (n < 1000)%N → (length (str_of_N n) ≤ int_max_str_digits)%nat.
Proof.
  intros Hn. unfold str_of_N.
  etransitivity; [apply digits_length|].
  assert (N.log2 n < 10)%N.
  { destruct (decide (n = 0%N)) as [->|]; [done|].
    apply N.log2_lt_pow2; [lia|]. change (2 ^ 10)%N with 1024%N. lia. }
  unfold int_max_str_digits. lia.
Qed.

Lemma range_checks_accepts chapter verse max_verses :
  1 ≤ chapter ≤ 114 → CHAPTER_VERSES !! chapter = Some max_verses →
  1 ≤ verse ≤ max_verses →
  range_checks chapter verse = Return (chapter, verse).
Proof.
  intros Hc Hmax Hv. unfold range_checks. rewrite Hmax.
  repeat case_match; try done; lia.
Qed.

Lemma range_checks_chapter chapter verse :
  chapter < 1 ∨ 114 < chapter →
  range_checks chapter verse = Raise (ChapterRangeError chapter).
Proof.
  intros Hc. unfold range_checks. repeat case_match; try done; lia.
Qed.

Lemma range_checks_verse chapter verse max_verses :
  1 ≤ chapter ≤ 114 → CHAPTER_VERSES !! chapter = Some max_verses →
  verse < 1 ∨ max_verses < verse →
  range_checks chapter verse = Raise (VerseRangeError chapter max_verses verse).
Proof.
  intros Hc Hmax Hv. unfold range_checks. rewrite Hmax.
  destruct (CHAPTER_VERSES_total chapter Hc) as (m & Hm & ?).
  assert (m = max_verses) as -> by congruence.
  repeat case_match; try done; lia.
Qed.

(** The messages of the five raise sites start differently. *)
Lemma UnknownChapter_not_raised chapter verse unknown :
  range_checks chapter verse ≠ Raise (UnknownChapter unknown).
Proof.
  unfold range_checks.
  destruct ((chapter <? 1) || (chapter >? 114)) eqn:Hc; [done|].
  apply orb_false_elim in Hc as [H1 H2].
  destruct (CHAPTER_VERSES_total chapter) as (m & -> & Hm); [lia|].
  repeat case_match; try done; lia.
Qed.

Lemma strip_reference g1 g2 :
  g1 ≠ [] → g2 ≠ [] →
  Forall (λ c, ascii_digit c = true) g1 → Forall (λ c, ascii_digit c = true) g2 →
  strip (g1 ++ lit ":" ++ g2) = g1 ++ lit ":" ++ g2.
Proof.
  intros Hne1 Hne2 Hg1 Hg2. apply strip_id; intros c Hc.
  - destruct g1 as [|x g1]; [done|]. injection Hc as <-.
    apply Forall_cons in Hg1 as [Hx _]. by apply ascii_digit_cases in Hx as [_ ?].
  - destruct g2 as [|y g2 _] using rev_ind; [done|].
    rewrite !app_assoc, last_snoc in Hc. injection Hc as <-.
    apply Forall_app in Hg2 as [_ Hy]. rewrite Forall_singleton in Hy.
    by apply ascii_digit_cases in Hy as [_ ?].
Qed.

Lemma range_checks_Return chapter verse r :
  range_checks chapter verse = Return r →
  r = (chapter, verse) ∧ 1 ≤ chapter ≤ 114
  ∧ ∃ max_verses, CHAPTER_VERSES !! chapter = Some max_verses
                  ∧ 1 ≤ verse ≤ max_verses.
Proof.
  unfold range_checks.
  destruct ((chapter <? 1) || (chapter >? 114)) eqn:Hc; [done|].
  apply orb_false_elim in Hc as [H1 H2].
  destruct (CHAPTER_VERSES !! chapter) as [m|]; [|done].
  destruct (m =? 0); [done|].
  destruct ((verse <? 1) || (verse >? m)) eqn:Hv; [done|].
  apply orb_false_elim in Hv as [H3 H4]. intros [= <-].
  split_and!; [done | lia | lia |]. exists m. split; [done | lia].
Qed.

Lemma range_checks_Raise chapter verse e :
  0 ≤ chapter →
  range_checks chapter verse = Raise e → RangeError e.
Proof.
  intros Hpos. unfold range_checks.
  destruct ((chapter <? 1) || (chapter >? 114)) eqn:Hc.
  { intros [= <-]. left. by eexists. }
  apply orb_false_elim in Hc as [H1 H2].
  destruct (CHAPTER_VERSES_total chapter) as (m & -> & Hm); [lia|].
  destruct (m =? 0) eqn:H0; [lia|].
  destruct ((verse <? 1) || (verse >? m)); [|done].
  intros [= <-]. right. by eexists _, _, _.
Qed.

(** What [validate_input] returns has been read within the limit and has
    passed the range checks. *)
Lemma validate_input_Return s r :
  validate_input s = Return r →
  ∃ g1 g2 chapter verse,
    re_match (strip s) = Some (g1, g2)
    ∧ int_of_digits g1 = Some chapter ∧ int_of_digits g2 = Some verse
    ∧ (length g1 ≤ int_max_str_digits)%nat
    ∧ (length g2 ≤ int_max_str_digits)%nat
    ∧ range_checks chapter verse = Return r.
Proof.
  intros Hvalid.
  destruct (validate_input_cases s)
    as [[_ H] | [(_ & _ & H) | (g1 & g2 & c & v & _ & Hm & H1 & H2 & _ & _ & H)]];
    [congruence..|].
  rewrite H in Hvalid. unfold digit_checks in Hvalid.
  repeat case_bool_decide; try discriminate Hvalid.
  by exists g1, g2, c, v.
Qed.

(** The failures of [validate_input]: the two of the shape, the two of
    the range, and the one of [int] on a number beyond the limit. *)
Lemma validate_input_Raise s e :
  validate_input s = Raise e →
  FormatError e ∨ RangeError e
  ∨ ∃ digits, (int_max_str_digits < digits)%nat ∧ e = DigitLimitError digits.
Proof.
  intros Hraise.
  destruct (validate_input_cases s)
    as [[_ H] | [(_ & _ & H) | (g1 & g2 & c & v & _ & _ & _ & _ & Hc & _ & H)]].
  - left. left. congruence.
  - left. right. congruence.
  - rewrite H in Hraise.
    destruct (digit_checks_cases g1 g2 (range_checks c v))
      as [Hsame | (digits & Hdigits & Hlimit)].
    + rewrite Hsame in Hraise. right. left. by eapply range_checks_Raise.
    + rewrite Hlimit in Hraise. right. right. exists digits.
      split; [done | congruence].
Qed.

Lemma validate_input_raises_ValueError user_input e :
  validate_input user_input = Raise e → is_ValueError e = true.
Proof.
  intros [[-> | ->] | [[[c ->] | (c & m & v & ->)] | (digits & _ & ->)]]
    %validate_input_Raise; reflexivity.
Qed.

Lemma validate_input_no_exit user_input code :
  validate_input user_input ≠ Exit code.
Proof.
  destruct (validate_input_cases user_input)
    as [[_ ->] | [(_ & _ & ->) | (g1 & g2 & chapter & verse & H)]]; [done..|].
  destruct H as (_ & _ & _ & _ & _ & _ & ->).
  destruct (digit_checks_cases g1 g2 (range_checks chapter verse))
    as [-> | (digits & _ & ->)]; [|done].
  unfold range_checks. by repeat case_match.
Qed.

(** C1. For every chapter [c] of 1..114 and every verse [v] of
    1..[CHAPTER_VERSES[c]], [validate_input] applied to the text
    ["{c}:{v}"] returns the pair [(c, v)]. *)
Theorem validate_input_accepts_valid_reference (c v max_verses : Z) :
  1 ≤ c ≤ 114 → CHAPTER_VERSES !! c = Some max_verses → 1 ≤ v ≤ max_verses →
  validate_input (str_of_int c ++ lit ":" ++ str_of_int v) = Return (c, v).
Proof.
  intros Hc Hmax Hv.
  rewrite !str_of_int_nonneg by lia.
  destruct (validate_input_parsed
              (str_of_N (Z.to_N c) ++ lit ":" ++ str_of_N (Z.to_N v))
              (str_of_N (Z.to_N c)) (str_of_N (Z.to_N v)))
    as (chapter & verse & H1 & H2 & _ & _ & ->).
  - apply strip_reference;
      auto using str_of_N_nonempty, str_of_N_ascii.
  - apply str_of_N_nonempty.
  - apply str_of_N_nonempty.
  - eapply Forall_impl; [apply str_of_N_ascii | apply ascii_digit_isdecimal].
  - eapply Forall_impl; [apply str_of_N_ascii | apply ascii_digit_isdecimal].
  - rewrite int_of_digits_str_of_N in H1, H2.
    injection H1 as <-. injection H2 as <-. rewrite !Z2N.id by lia.
    pose proof (CHAPTER_VERSES_bound c max_verses Hmax).
    rewrite digit_checks_within by (apply str_of_N_short; lia).
    by apply range_checks_accepts with max_verses.
Qed.

Lemma validate_input_accepts_valid_reference_witness :
  validate_input (str_of_int 2 ++ lit ":" ++ str_of_int 255) = Return (2, 255).
Proof.
  apply (validate_input_accepts_valid_reference 2 255 286);
    [lia | vm_compute; reflexivity | lia].
Defined.

Lemma FormatError_not_RangeError e : FormatError e → ¬ RangeError e.
Proof.
  intros [-> | ->] [[chapter H] | (chapter & max_verses & verse & H)];
    discriminate H.
Qed.

(** C3. An input that, once stripped, is not of the shape
    [digits:digits] (empty, letters, extra colons, a missing part) makes
    [validate_input] fail with a [FormatError], which is no [RangeError];
    and whatever [validate_input] accepts has that shape once stripped. *)
Theorem validate_input_rejects_other_shapes (user_input : list N) :
  (¬ reference_shape (strip user_input) →
   ∃ e, validate_input user_input = Raise e ∧ FormatError e ∧ ¬ RangeError e)
  ∧ (∀ r, validate_input user_input = Return r →
          reference_shape (strip user_input)).
Proof.
  destruct (validate_input_cases user_input)
    as [[-> H] | [(_ & Hm & H) | (g1 & g2 & chapter & verse & _ & Hm & _)]].
  - split; [|by rewrite H]. intros _. eexists. split; [done|].
    assert (FormatError (ValueError (lit "Input cannot be empty"))) by by left.
    eauto using FormatError_not_RangeError.
  - split; [|by rewrite H]. intros _. eexists. split; [done|].
    assert (FormatError (ValueError (lit
      "Invalid format. Please use 'chapter:verse' format (e.g., '2:255', '3:10')")))
      by by right.
    eauto using FormatError_not_RangeError.
  - apply re_match_strip in Hm as (? & ? & ? & ? & Hshape).
    assert (reference_shape (strip user_input)) by by exists g1, g2.
    by split.
Qed.

Lemma validate_input_rejects_other_shapes_witness :
  ∃ e, validate_input (lit "1:2:3") = Raise e ∧ FormatError e ∧ ¬ RangeError e.
Proof.
  apply (validate_input_rejects_other_shapes (lit "1:2:3")).
  intros (g1 & g2 & Hne1 & Hne2 & Hg1 & Hg2 & Hs).
  assert (re_match (strip (lit "1:2:3")) = Some (g1, g2)) as Hm
    by (rewrite Hs; by apply re_match_intro).
  vm_compute in Hm. discriminate Hm.
Defined.

(** C4, as the code has it. On a well-formed input [digits:digits]
    whose two numbers are written with at most 4300 digits each, a chapter
    outside 1..114 is refused with the [RangeError] that names the
    interval 1..114 and the chapter read; a chapter inside it with a verse
    outside 1..[CHAPTER_VERSES[chapter]] is refused with the [RangeError]
    that states the verse count of that chapter. A number written with
    more digits is refused by [int], the chapter first, with the
    [ValueError] that names the limit and the number of digits. *)
Theorem validate_input_range_errors (user_input g1 g2 : list N) :
  strip user_input = g1 ++ lit ":" ++ g2 →
  g1 ≠ [] → g2 ≠ [] →
  Forall (λ c, isdecimal c = true) g1 → Forall (λ c, isdecimal c = true) g2 →
  ∃ chapter verse,
    int_of_digits g1 = Some chapter ∧ int_of_digits g2 = Some verse
    ∧ ((length g1 ≤ int_max_str_digits)%nat →
       (length g2 ≤ int_max_str_digits)%nat →
       (chapter < 1 ∨ 114 < chapter →
        validate_input user_input = Raise (ChapterRangeError chapter))
       ∧ (1 ≤ chapter ≤ 114 →
          ∃ max_verses,
            CHAPTER_VERSES !! chapter = Some max_verses
            ∧ (verse < 1 ∨ max_verses < verse →
               validate_input user_input
               = Raise (VerseRangeError chapter max_verses verse))))
    ∧ ((int_max_str_digits < length g1)%nat →
       validate_input user_input = Raise (DigitLimitError (length g1)))
    ∧ ((length g1 ≤ int_max_str_digits)%nat →
       (int_max_str_digits < length g2)%nat →
       validate_input user_input = Raise (DigitLimitError (length g2))).
Proof.
  intros Hs Hne1 Hne2 Hg1 Hg2.
  destruct (validate_input_parsed _ _ _ Hs Hne1 Hne2 Hg1 Hg2)
    as (chapter & verse & H1 & H2 & _ & _ & ->).
  exists chapter, verse. split_and!; [done..| | |].
  - intros Hlen1 Hlen2. rewrite digit_checks_within by done. split.
    + apply range_checks_chapter.
    + intros Hc. destruct (CHAPTER_VERSES_total chapter Hc) as (m & Hm & _).
      exists m. split; [done|]. by apply range_checks_verse.
  - apply digit_checks_chapter.
  - apply digit_checks_verse.
Qed.

Lemma short_number (g : list N) :
  (length g <=? int_max_str_digits)%nat = true →
  (length g ≤ int_max_str_digits)%nat.
Proof. apply Nat.leb_le. Qed.

Lemma validate_input_range_errors_witness :
  validate_input (lit " 115:1 ") = Raise (ChapterRangeError 115)
  ∧ validate_input (lit "114:7") = Raise (VerseRangeError 114 6 7)
  ∧ validate_input (lit "2:0") = Raise (VerseRangeError 2 286 0).
Proof.
  split_and!.
  - destruct (validate_input_range_errors (lit " 115:1 ") (lit "115") (lit "1"))
      as (chapter & verse & H1 & H2 & Hrange & _);
      [by vm_compute | done | done | by repeat constructor..|].
    destruct Hrange as [Hchapter _]; [by apply short_number..|].
    vm_compute in H1. injection H1 as <-. apply Hchapter. lia.
  - destruct (validate_input_range_errors (lit "114:7") (lit "114") (lit "7"))
      as (chapter & verse & H1 & H2 & Hrange & _);
      [by vm_compute | done | done | by repeat constructor..|].
    destruct Hrange as [_ Hverse]; [by apply short_number..|].
    vm_compute in H1, H2. injection H1 as <-. injection H2 as <-.
    destruct Hverse as (m & Hm & Hv); [lia|].
    vm_compute in Hm. injection Hm as <-. apply Hv. lia.
  - destruct (validate_input_range_errors (lit "2:0") (lit "2") (lit "0"))
      as (chapter & verse & H1 & H2 & Hrange & _);
      [by vm_compute | done | done | by repeat constructor..|].
    destruct Hrange as [_ Hverse]; [by apply short_number..|].
    vm_compute in H1, H2. injection H1 as <-. injection H2 as <-.
    destruct Hverse as (m & Hm & Hv); [lia|].
    vm_compute in Hm. injection Hm as <-. apply Hv. lia.
Defined.

Lemma DigitLimitError_not_RangeError digits : ¬ RangeError (DigitLimitError digits).
Proof.
  intros [[chapter H] | (chapter & max_verses & verse & H)]; discriminate H.
Qed.

Lemma DigitLimitError_not_FormatError digits : ¬ FormatError (DigitLimitError digits).
Proof. intros [H | H]; discriminate H. Qed.

(** C4, as stated, fails. A chapter, or a verse, written with 4301 digits
    makes a well-formed input, and the number it writes is out of range;
    but [int] refuses to read it, and the [ValueError] of [int] is no
    [RangeError]: it names neither the interval of chapters nor a verse
    count. *)
Lemma validate_input_refuses_long_numbers :
  (reference_shape (strip (long_chapter ++ lit ":1"))
   ∧ (∃ chapter, int_of_digits long_chapter = Some chapter ∧ 114 < chapter)
   ∧ validate_input (long_chapter ++ lit ":1") = Raise (DigitLimitError 4301))
  ∧ (reference_shape (strip (lit "1:" ++ long_verse))
     ∧ CHAPTER_VERSES !! 1 = Some 7
     ∧ (∃ verse, int_of_digits long_verse = Some verse ∧ 7 < verse)
     ∧ validate_input (lit "1:" ++ long_verse) = Raise (DigitLimitError 4301))
  ∧ ¬ RangeError (DigitLimitError 4301).
Proof.
  split_and!.
  - exists long_chapter, (lit "1").
    split_and!; [done | done | by apply Forall_replicate | by repeat constructor |].
    by vm_compute.
  - eexists. split; by vm_compute.
  - by vm_compute.
  - exists (lit "1"), long_verse.
    split_and!; [done | done | by repeat constructor | by apply Forall_replicate |].
    by vm_compute.
  - by vm_compute.
  - eexists. split; by vm_compute.
  - by vm_compute.
  - apply DigitLimitError_not_RangeError.
Qed.

(** C9. The table gives every chapter of 1..114 a positive verse count,
    so [validate_input] never fails with "Unknown chapter": the branch
    behind the range check on the chapter is dead. *)
Theorem unknown_chapter_unreachable :
  (∀ chapter, 1 ≤ chapter ≤ 114 →
     ∃ max_verses, CHAPTER_VERSES !! chapter = Some max_verses ∧ 0 < max_verses)
  ∧ (∀ user_input chapter,
       validate_input user_input ≠ Raise (UnknownChapter chapter)).
Proof.
  split.
  - intros chapter Hc. destruct (CHAPTER_VERSES_total chapter Hc) as (m & ? & ?).
    exists m. split; [done | lia].
  - intros user_input unknown.
    destruct (validate_input_cases user_input)
      as [[_ ->] | [(_ & _ & ->) | (g1 & g2 & chapter & verse & H)]];
      [done..|].
    destruct H as (_ & _ & _ & _ & _ & _ & ->).
    destruct (digit_checks_cases g1 g2 (range_checks chapter verse))
      as [-> | (digits & _ & ->)]; [apply UnknownChapter_not_raised | done].
Qed.

Lemma unknown_chapter_unreachable_witness :
  ∃ max_verses, CHAPTER_VERSES !! 114 = Some max_verses ∧ 0 < max_verses.
Proof. apply (proj1 unknown_chapter_unreachable 114). lia. Defined.

End Validator.

(** ** [OutputFormatter.format_verse] *)

Section Formatter.

Context {W : World}.

Implicit Types (d a : gmap (list N) value) (l : value) (lines : list value).

Lemma plain_line_rule : plain_line rule.
Proof. split_and!; [by eexists | done..]. Qed.

Lemma plain_line_footer : plain_line footer.
Proof. split_and!; [by eexists | done..]. Qed.

Lemma plain_line_title t : plain_line (VStr (lit "Verse: " ++ t)).
Proof. split_and!; [by eexists | done..]. Qed.

Lemma plain_line_detail t : plain_line (VStr (detail ++ t)).
Proof. split_and!; [by eexists | done..]. Qed.

Lemma plain_line_RLM t : plain_line (VStr (RLM ++ t)).
Proof. split_and!; [by eexists | done..]. Qed.

Lemma plain_line_location : plain_line (VStr ([0x0A%N] ++ lit " Location:")).
Proof. split_and!; [by eexists | done..]. Qed.

Create HintDb plain.

#[local] Hint Resolve plain_line_rule plain_line_footer plain_line_title
  plain_line_detail plain_line_RLM plain_line_location : plain.

#[local] Ltac plain_lines :=
  repeat first [apply Forall_nil_2 | apply Forall_cons_2]; auto with plain.

Lemma strings_of_strings index lines :
  Forall (λ l, ∃ s, l = VStr s) lines →
  ∃ strings, strings_of index lines = Return strings.
Proof.
  intros Hlines. revert index.
  induction Hlines as [|l lines [s ->] _ IH]; intros index; [by eexists|].
  destruct (IH (index + 1)) as [strings Hs]. exists (s :: strings).
  cbn [strings_of]. by rewrite Hs.
Qed.

Lemma join_values_strings sep lines :
  Forall (λ l, ∃ s, l = VStr s) lines → ∃ out, join_values sep lines = Return out.
Proof.
  intros [strings Hs]%(strings_of_strings 0). unfold join_values.
  rewrite Hs. by eexists.
Qed.

Lemma location_section_lines a :
  ∃ loc, location_section (VDict a) = Return loc ∧ Forall plain_line loc.
Proof.
  unfold location_section. cbn [get mbind result_bind].
  destruct (truthy (default VNone (a !! lit "juz")));
    destruct (truthy (default VNone (a !! lit "page"))); cbn [orb];
    eexists; (split; [reflexivity|]); cbn [app]; plain_lines.
Qed.

(** The block is the header, the sections the mode and the data call
    for, the location and the closing rule. *)
Lemma format_lines_sections d a head loc mode :
  arabic_of d = VDict a →
  header (VDict d) (VDict a) = Return head →
  (if truthy (VDict a) then location_section (VDict a) else Return []) = Return loc →
  format_lines (VDict d) mode =
    asec ← (if bool_decide (mode ∈ [lit "arabic"; lit "both"]) && truthy (VDict a)
            then arabic_section (VDict a) else Return []);
    tsec ← (if bool_decide (mode ∈ [lit "translation"; lit "both"])
               && truthy (translation_of d)
            then translation_section (translation_of d) else Return []);
    Return (head ++ asec ++ tsec ++ loc ++ [footer]).
Proof.
  unfold arabic_of, translation_of. intros Ha Hhead Hloc.
  unfold format_lines. cbn [get mbind result_bind].
  rewrite Ha, Hhead. cbn [mbind result_bind].
  destruct (truthy (VDict a)); rewrite ?andb_true_r, ?andb_false_r.
  - destruct (bool_decide (mode ∈ [lit "arabic"; lit "both"]));
      [destruct (arabic_section (VDict a)) as [asec| |]|];
      cbn [mbind result_bind]; try done.
    all: destruct (bool_decide (mode ∈ [lit "translation"; lit "both"])
                     && truthy _);
      [destruct (translation_section _) as [tsec| |]|];
      cbn [mbind result_bind]; try done.
    all: rewrite Hloc; cbn [mbind result_bind]; unfold footer;
      by rewrite ?app_nil_r, <- ?app_assoc.
  - injection Hloc as <-.
    destruct (bool_decide (mode ∈ [lit "translation"; lit "both"])
                && truthy _);
      [destruct (translation_section _) as [tsec| |]|];
      cbn [mbind result_bind]; try done.
    all: unfold footer; by rewrite ?app_nil_r, <- ?app_assoc.
Qed.

Lemma format_verse_plain lines verse_data mode :
  format_lines verse_data mode = Return lines →
  Forall (λ l, ∃ s, l = VStr s) lines →
  ∃ out, format_verse verse_data mode = Return out.
Proof.
  intros Hlines [out Hout]%(join_values_strings [0x0A%N]).
  exists out. unfold format_verse. by rewrite Hlines.
Qed.

Lemma plain_line_str lines :
  Forall plain_line lines → Forall (λ l, ∃ s, l = VStr s) lines.
Proof. intros H. eapply Forall_impl; [done|]. by intros l [? _]. Qed.

End Formatter.

Lemma sample_fields_shape translation :
  verse_record_shape (VDict (sample_fields translation)).
Proof.
  exists (sample_fields translation), sample_ayah_fields, sample_surah.
  split_and!; [reflexivity | by vm_compute..].
Qed.

(** C5 fails on the code. A record without translation data is to be
    formatted in mode "translation" without failing. The record
    [get_verse] returns when the server answers with an envelope of
    success around [null] is such a record, with [None] for its Arabic
    payload; [format_verse] raises [AttributeError] on it, at line 205,
    where the name of the chapter is read from the payload before any
    test of it, although line 200 and the tests of lines 215 and 236
    provide for a payload that is absent. The command line
    [quran_verse_fetcher.py 1:1 -f translation] ends with "Unexpected
    Error". *)
Theorem format_verse_raises_on_null_payload :
  get_verse (W := null_world) 1 1 (Some (lit "sahih")) initial
  = (Return (verse_record (lit "1:1") VNone VNone),
     sent (translation_url 1 1 (lit "en.sahih")) (sent (arabic_url 1 1) initial))
  ∧ format_verse (W := null_world) (verse_record (lit "1:1") VNone VNone)
      (lit "translation")
    = Raise (AttributeError (lit "'NoneType' object has no attribute 'get'"))
  ∧ main (W := null_world) (mret ()) translation_args initial
    = (Exit 1,
       State []
         [ lit "Fetching verse 1:1...";
           lit "Unexpected Error: 'NoneType' object has no attribute 'get'";
           lit "Please try again or report this issue." ]
         [arabic_url 1 1; translation_url 1 1 (lit "en.sahih")] ∅).
Proof. split_and!; by vm_compute. Qed.


(** ** [QuranAPI.get_verse] *)

Section Client.

Context {W : World}.

Implicit Types (σ : state) (url key : list N) (e : exn).

Lemma make_request_returns url σ response :
  session_get (requested σ) url = Done response →
  requests.raise_for_status response = Return () →
  _make_request url σ = (Return response, sent url σ).
Proof.
  intros Hget Hstatus.
  unfold _make_request, try_except, session_get_, mbind, M_bind, lift.
  by rewrite Hget, Hstatus.
Qed.

(** Whatever [_make_request] raises after a [RequestException] below it is
    a [RequestException] again. *)
Lemma make_request_raises url σ :
  (∃ e, session_get (requested σ) url = Failed e ∧ is_RequestException e = true)
  ∨ (∃ response e,
       session_get (requested σ) url = Done response
       ∧ requests.raise_for_status response = Raise e) →
  ∃ e', _make_request url σ = (Raise e', sent url σ)
        ∧ is_RequestException e' = true.
Proof.
  unfold _make_request, try_except, session_get_, mbind, M_bind, lift.
  intros [(e & -> & He) | (response & e & -> & Hstatus)].
  - destruct e; try discriminate He; unfold raise, lift;
      repeat case_match; eexists; (split; [reflexivity | done]).
  - rewrite Hstatus.
    assert (∃ code msg, e = HTTPError code msg) as (code & msg & ->).
    { unfold requests.raise_for_status in Hstatus.
      destruct (_ && _); [injection Hstatus as <-; by eexists _, _|].
      destruct (_ && _); [injection Hstatus as <-; by eexists _, _|done]. }
    unfold raise, lift; repeat case_match;
      eexists; (split; [reflexivity | done]).
Qed.

(** [_make_request] asks once, and does nothing else. *)
Lemma make_request_state url σ :
  ∃ r, _make_request url σ = (r, sent url σ).
Proof.
  unfold _make_request, try_except, session_get_, mbind, M_bind, lift.
  destruct (session_get (requested σ) url) as [response|e].
  - destruct (requests.raise_for_status response) as [[]|e|code];
      [by eexists| |by eexists].
    destruct e; unfold raise, lift; repeat case_match; by eexists.
  - destruct e; unfold raise, lift; repeat case_match; by eexists.
Qed.

Lemma fetch_translation_warns verse_key key arabic σ :
  fetch_fails_gracefully (requested σ) (edition_url verse_key key) →
  ∃ warning,
    fetch_translation verse_key key arabic σ
    = (Return (verse_record verse_key arabic VNone),
       warned (lit "Warning: " ++ warning) (sent (edition_url verse_key key) σ)).
Proof.
  intros Hfail. unfold fetch_translation. cbv zeta.
  fold (edition_url verse_key key). unfold try_except, mbind at 1, M_bind at 1.
  destruct Hfail as [Hfail | [Hfail | [Hfail | Hfail]]].
  - destruct (make_request_raises (edition_url verse_key key) σ)
      as (e' & -> & ->); [by left|]. by eexists.
  - destruct (make_request_raises (edition_url verse_key key) σ)
      as (e' & -> & ->); [by right|]. by eexists.
  - destruct Hfail as (response & e & Hget & Hstatus & Hjson & He).
    rewrite (make_request_returns _ _ _ Hget Hstatus).
    unfold mbind, M_bind. rewrite Hjson. cbn [lift_attempt lift]. rewrite He.
    by eexists.
  - destruct Hfail as (response & body & Hget & Hstatus & Hjson & Hcode).
    rewrite (make_request_returns _ _ _ Hget Hstatus).
    unfold mbind, M_bind. rewrite Hjson. cbn [lift_attempt lift get mret M_ret].
    rewrite Hcode. by eexists.
Qed.

Lemma fetch_translation_returns verse_key key arabic data σ :
  fetch_succeeds (requested σ) (edition_url verse_key key) data →
  fetch_translation verse_key key arabic σ
  = (Return (verse_record verse_key arabic data),
     sent (edition_url verse_key key) σ).
Proof.
  intros (response & body & Hget & Hstatus & Hjson & Hcode & Hdata).
  unfold fetch_translation. cbv zeta.
  fold (edition_url verse_key key). unfold try_except, mbind at 1, M_bind at 1.
  rewrite (make_request_returns _ _ _ Hget Hstatus).
  unfold mbind, M_bind. rewrite Hjson.
  cbn [lift_attempt lift get getitem mret M_ret]. rewrite Hcode, Hdata. done.
Qed.

(** However it ends, [fetch_translation] has asked for the edition once
    and printed at most one warning. *)
Lemma fetch_translation_state verse_key key arabic σ :
  ∃ r σ',
    fetch_translation verse_key key arabic σ = (r, σ')
    ∧ (σ' = sent (edition_url verse_key key) σ
       ∨ ∃ warning, σ' = warned (lit "Warning: " ++ warning)
                           (sent (edition_url verse_key key) σ)).
Proof.
  unfold fetch_translation. cbv zeta.
  fold (edition_url verse_key key). unfold try_except, mbind at 1, M_bind at 1.
  destruct (make_request_state (edition_url verse_key key) σ) as [r ->].
  destruct r as [response|e|code]; [|destruct (is_RequestException e)|];
    try (eexists _, _; split; [reflexivity|]; by eauto).
  unfold mbind, M_bind.
  destruct (requests.json response) as [trans_data|e];
    cbn [lift_attempt lift mret M_ret];
    [|destruct (is_RequestException e);
      eexists _, _; (split; [reflexivity|]); by eauto].
  destruct (get trans_data (lit "code") VNone) as [code|e|code];
    [|destruct (is_RequestException e)|];
    try (eexists _, _; split; [reflexivity|]; by eauto).
  destruct (eq_200 code);
    [|eexists _, _; split; [reflexivity|]; by eauto].
  destruct (getitem trans_data (lit "data")) as [data|e|code'];
    [|destruct (is_RequestException e)|];
    eexists _, _; (split; [reflexivity|]); by eauto.
Qed.

Lemma get_verse_after_arabic chapter verse key arabic σ :
  key ≠ [] →
  fetch_succeeds (requested σ) (arabic_url chapter verse) arabic →
  get_verse chapter verse (Some key) σ
  = try_except
      (fetch_translation (str_of_int chapter ++ lit ":" ++ str_of_int verse)
         key arabic)
      reraise (sent (arabic_url chapter verse) σ).
Proof.
  intros Hkey (response & body & Hget & Hstatus & Hjson & Hcode & Hdata).
  destruct key as [|k key]; [done|].
  unfold get_verse. cbv zeta. fold (arabic_url chapter verse).
  unfold try_except, mbind at 1, M_bind at 1.
  rewrite (make_request_returns _ _ _ Hget Hstatus).
  unfold mbind at 1, M_bind at 1. rewrite Hjson.
  cbn [lift_attempt lift get getitem mret M_ret mbind M_bind].
  rewrite Hcode, Hdata. unfold mbind, M_bind, lift. reflexivity.
Qed.

(** The outer [except] clauses change the exception, not the state. *)
Lemma try_except_reraise_state (body : M value) σ :
  (try_except body reraise σ).2 = (body σ).2.
Proof.
  unfold try_except, reraise. destruct (body σ) as [[x|e|code] σ']; [done| |done].
  destruct (is_RequestException e); [done|].
  by destruct (is_JSONDecodeError e).
Qed.

Lemma TRANSLATIONS_NoDup : NoDup TRANSLATIONS.*1.
Proof. apply (bool_decide_unpack _). vm_compute. exact I. Qed.

(** C7. A translation key given to [get_verse] goes through the
    catalogue: the second request asks for the edition the catalogue gives
    for the key, and for the key itself when the catalogue does not have
    it, at the reference of the first request. *)
Theorem get_verse_resolves_translation_key
    (chapter verse : Z) (key : list N) (arabic : value) (σ : state) :
  key ≠ [] →
  fetch_succeeds (requested σ) (arabic_url chapter verse) arabic →
  requested (get_verse chapter verse (Some key) σ).2
  = requested σ ++ [arabic_url chapter verse;
                    translation_url chapter verse (TRANSLATIONS_get key key)]
  ∧ (∀ edition, (key, edition) ∈ TRANSLATIONS →
                TRANSLATIONS_get key key = edition)
  ∧ (key ∉ get_available_translations → TRANSLATIONS_get key key = key).
Proof.
  intros Hkey Harabic. split_and!.
  - rewrite (get_verse_after_arabic _ _ _ _ _ Hkey Harabic).
    rewrite try_except_reraise_state.
    destruct (fetch_translation_state
                (str_of_int chapter ++ lit ":" ++ str_of_int verse) key arabic
                (sent (arabic_url chapter verse) σ))
      as (r & σ' & -> & [-> | [warning ->]]); cbn; by rewrite <- app_assoc.
  - intros edition Hin. unfold TRANSLATIONS_get.
    by rewrite (elem_of_list_to_map_1 _ _ _ TRANSLATIONS_NoDup Hin).
  - intros Hnotin. unfold TRANSLATIONS_get.
    by rewrite (not_elem_of_list_to_map_1 _ _ Hnotin).
Qed.

(** X30. The failures of the translation fetch that [get_verse] does
    downgrade. When the Arabic fetch succeeds and the fetch of the
    translation fails with an exception of [requests] (time-out,
    connection failure, error status, ...) or is answered with a JSON
    object whose code is not 200, [get_verse] returns the record with the
    Arabic data and no translation, after the two requests and one warning
    on the standard error stream. *)
Theorem get_verse_translation_failure_warns
    (chapter verse : Z) (key : list N) (arabic : value) (σ : state) :
  key ≠ [] →
  fetch_succeeds (requested σ) (arabic_url chapter verse) arabic →
  fetch_fails_gracefully (requested σ ++ [arabic_url chapter verse])
    (translation_url chapter verse (TRANSLATIONS_get key key)) →
  ∃ warning,
    get_verse chapter verse (Some key) σ
    = (Return (verse_record (str_of_int chapter ++ lit ":" ++ str_of_int verse)
                 arabic VNone),
       warned (lit "Warning: " ++ warning)
         (sent (translation_url chapter verse (TRANSLATIONS_get key key))
            (sent (arabic_url chapter verse) σ))).
Proof.
  intros Hkey Harabic Hfail.
  rewrite (get_verse_after_arabic _ _ _ _ _ Hkey Harabic).
  destruct (fetch_translation_warns
              (str_of_int chapter ++ lit ":" ++ str_of_int verse) key arabic
              (sent (arabic_url chapter verse) σ) Hfail) as [warning Hwarn].
  exists warning. unfold try_except. by rewrite Hwarn.
Qed.

End Client.

Lemma sample_arabic_fetch (later : list N → attempt requests.Response) url :
  fetch_succeeds (W := sample_world later) [] url sample_ayah.
Proof.
  exists (response_200 url (Done (envelope sample_ayah))),
         (envelope_fields sample_ayah).
  split_and!; [reflexivity | reflexivity | reflexivity | by vm_compute..].
Qed.

Lemma get_verse_resolves_translation_key_witness :
  requested (get_verse (W := friendly_world) 1 1 (Some (lit "sahih")) initial).2
  = [arabic_url 1 1; translation_url 1 1 (lit "en.sahih")]
  ∧ requested (get_verse (W := friendly_world) 1 1 (Some (lit "ur.jalandhry"))
                 initial).2
    = [arabic_url 1 1; translation_url 1 1 (lit "ur.jalandhry")].
Proof.
  split.
  - destruct (get_verse_resolves_translation_key (W := friendly_world)
                1 1 (lit "sahih") sample_ayah initial) as (Hurls & Hin & _);
      [done | apply sample_arabic_fetch |].
    rewrite Hurls. by vm_compute.
  - destruct (get_verse_resolves_translation_key (W := friendly_world)
                1 1 (lit "ur.jalandhry") sample_ayah initial)
      as (Hurls & _ & Hout); [done | apply sample_arabic_fetch |].
    rewrite Hurls. by vm_compute.
Defined.

Lemma get_verse_translation_failure_warns_witness :
  ∃ warning,
    get_verse (W := timeout_world) 1 1 (Some (lit "sahih")) initial
    = (Return (verse_record (lit "1:1") sample_ayah VNone),
       warned (lit "Warning: " ++ warning)
         (sent (translation_url 1 1 (lit "en.sahih"))
            (sent (arabic_url 1 1) initial))).
Proof.
  apply (get_verse_translation_failure_warns (W := timeout_world)
           1 1 (lit "sahih") sample_ayah initial).
  - done.
  - apply sample_arabic_fetch.
  - left. by exists (Timeout (lit "Read timed out.")).
Defined.

(** C2 fails on the code. The Arabic fetch succeeds and the fetch of the
    translation fails: the server answers it with a JSON array, or with an
    object of code 200 that carries no data, neither of which is a verse.
    The inner [try] of [get_verse] catches [requests.RequestException]
    only, so the [AttributeError] (the [KeyError]) of reading such a reply
    leaves [get_verse], and no warning is printed. The exception is
    neither of the two the docstring announces ([RequestException],
    [ValueError]), while the failures next to it, an exception of
    [requests] or a code other than 200, do become a warning. *)
Theorem get_verse_raises_on_array_reply :
  fetch_succeeds (W := array_world) [] (arabic_url 1 1) sample_ayah
  ∧ (∀ data, ¬ fetch_succeeds (W := array_world) [arabic_url 1 1]
                 (translation_url 1 1 (lit "en.sahih")) data)
  ∧ get_verse (W := array_world) 1 1 (Some (lit "sahih")) initial
    = (Raise (AttributeError (lit "'list' object has no attribute 'get'")),
       sent (translation_url 1 1 (lit "en.sahih")) (sent (arabic_url 1 1) initial))
  ∧ is_RequestException
      (AttributeError (lit "'list' object has no attribute 'get'")) = false
  ∧ is_ValueError
      (AttributeError (lit "'list' object has no attribute 'get'")) = false
  ∧ fetch_succeeds (W := dataless_world) [] (arabic_url 1 1) sample_ayah
  ∧ (∀ data, ¬ fetch_succeeds (W := dataless_world) [arabic_url 1 1]
                 (translation_url 1 1 (lit "en.sahih")) data)
  ∧ get_verse (W := dataless_world) 1 1 (Some (lit "sahih")) initial
    = (Raise (KeyError (lit "'data'")),
       sent (translation_url 1 1 (lit "en.sahih")) (sent (arabic_url 1 1) initial))
  ∧ is_RequestException (KeyError (lit "'data'")) = false
  ∧ is_ValueError (KeyError (lit "'data'")) = false.
Proof.
  split_and!.
  - apply sample_arabic_fetch.
  - intros data (response & body & Hget & _ & Hjson & _).
    injection Hget as <-. discriminate Hjson.
  - by vm_compute.
  - reflexivity.
  - reflexivity.
  - apply sample_arabic_fetch.
  - intros data (response & body & Hget & _ & Hjson & _ & Hdata).
    injection Hget as <-. injection Hjson as <-. vm_compute in Hdata.
    discriminate Hdata.
  - by vm_compute.
  - reflexivity.
  - reflexivity.
Qed.

(** ** [OutputFormatter.save_to_file] *)

Section Saving.

Context {W : World}.

Implicit Types (σ : state) (content filename bytes : list N) (e : exn).

(** The three ways out of [save_to_file]: the file holds the encoded
    content; an [IOError] was reported; another exception goes on. *)
Lemma save_to_file_cases content filename σ :
  (∃ bytes,
     utf8_encode content = Some bytes ∧ write_succeeds filename bytes
     ∧ save_to_file content filename σ
       = (Return true,
          State (stdout σ) (stderr σ) (requested σ)
                (<[filename := bytes]> (<[filename := []]> (files σ)))))
  ∨ (∃ e σ',
       is_IOError e = true ∧ raised_by_file_system content filename e
       ∧ save_to_file content filename σ = (Return false, σ')
       ∧ stdout σ' = stdout σ
       ∧ stderr σ' = stderr σ ++ [lit "Error saving to file '" ++ filename
                                    ++ lit "': " ++ str_of_exn e])
  ∨ (∃ e σ',
       is_IOError e = false
       ∧ (raised_by_file_system content filename e
          ∨ utf8_encode content = None)
       ∧ save_to_file content filename σ = (Raise e, σ')
       ∧ stdout σ' = stdout σ ∧ stderr σ' = stderr σ).
Proof.
  unfold save_to_file, try_except, with_open_w, closing, open_w, write, close,
    write_succeeds, raised_by_file_system, mbind, M_bind, mret, M_ret,
    print_stderr.
  destruct (os_open filename) as [e|] eqn:Hopen.
  { destruct (is_IOError e) eqn:He; [right; left | right; right];
      exists e; eexists; rewrite ?He; split_and!; auto. }
  destruct (utf8_encode content) as [bytes|] eqn:Hutf8.
  - destruct (os_write filename bytes) as [e|] eqn:Hwrite.
    + destruct (os_close filename) as [e'|] eqn:Hclose.
      * destruct (is_IOError e') eqn:He; [right; left | right; right];
          exists e'; eexists; rewrite ?He; split_and!; auto.
      * destruct (is_IOError e) eqn:He; [right; left | right; right];
          exists e; eexists; rewrite ?He; split_and!; eauto 6.
    + destruct (os_close filename) as [e'|] eqn:Hclose.
      * destruct (is_IOError e') eqn:He; [right; left | right; right];
          exists e'; eexists; rewrite ?He; split_and!; auto.
      * left. by exists bytes.
  - destruct (os_close filename) as [e'|] eqn:Hclose.
    + destruct (is_IOError e') eqn:He; [right; left | right; right];
        exists e'; eexists; rewrite ?He; split_and!; auto.
    + right; right. eexists _, _. split_and!; [| by right | done..]. done.
Qed.

(** X17. What [save_to_file] does keep of its contract. For a content that
    UTF-8 can encode, on a file system that refuses with [IOError] only,
    it returns: [True] exactly when opening, writing the encoded content
    and closing succeed, the file then holding that content; [False]
    otherwise, after an "Error saving to file" line on the standard error
    stream. *)
Lemma save_to_file_reports_IOError content filename bytes σ :
  utf8_encode content = Some bytes →
  file_system_raises_IOError filename →
  ∃ saved σ',
    save_to_file content filename σ = (Return saved, σ')
    ∧ (saved = true ↔ write_succeeds filename bytes)
    ∧ (saved = true →
       files σ' !! filename = Some bytes ∧ stderr σ' = stderr σ)
    ∧ (saved = false →
       ∃ e, stderr σ' = stderr σ ++ [lit "Error saving to file '" ++ filename
                                       ++ lit "': " ++ str_of_exn e]).
Proof.
  intros Hutf8 Hfs.
  destruct (save_to_file_cases content filename σ)
    as [(bytes' & Hutf8' & Hok & ->)
       | [(e & σ' & He & Hfrom & -> & _ & Herr)
         | (e & σ' & He & Hfrom & Hsave & _)]].
  - assert (bytes' = bytes) as -> by congruence.
    eexists _, _. split_and!; [done | done | | done].
    intros _. cbn. by rewrite lookup_insert_eq.
  - exists false, σ'. split_and!; [done | | done | by eauto].
    split; [done|]. intros (Hopen & Hwrite & Hclose). exfalso.
    destruct Hfrom as [? | [(bytes' & ? & ?) | ?]]; congruence.
  - exfalso. destruct Hfrom as [Hfrom | ?]; [|congruence].
    enough (is_IOError e = true) by congruence.
    destruct Hfrom as [? | [(bytes' & ? & ?) | ?]];
      [apply (Hfs e bytes) | apply (Hfs e bytes') | apply (Hfs e bytes)]; auto.
Qed.

End Saving.

Example save_to_file_reports_IOError_sample :
  (∃ σ',
     save_to_file (W := friendly_world) (lit "verse") (lit "verse.txt") initial
     = (Return true, σ')
     ∧ files σ' !! lit "verse.txt" = Some (lit "verse"))
  ∧ (∃ e σ',
       save_to_file (W := readonly_world) (lit "verse") (lit "verse.txt") initial
       = (Return false, σ')
       ∧ stderr σ' = [lit "Error saving to file 'verse.txt': " ++ str_of_exn e]).
Proof.
  split.
  - destruct (save_to_file_reports_IOError (W := friendly_world)
                (lit "verse") (lit "verse.txt") (lit "verse") initial)
      as (saved & σ' & Hsave & Hiff & Htrue & _).
    + by vm_compute.
    + intros e bytes [H | [H | H]]; discriminate H.
    + assert (saved = true) as -> by (by apply Hiff).
      exists σ'. split; [done|]. by apply Htrue.
  - destruct (save_to_file_reports_IOError (W := readonly_world)
                (lit "verse") (lit "verse.txt") (lit "verse") initial)
      as (saved & σ' & Hsave & Hiff & _ & Hfalse).
    + by vm_compute.
    + intros e bytes [H | [H | H]]; [|discriminate H..].
      by injection H as <-.
    + destruct saved.
      { destruct Hiff as [Hiff _]. destruct (Hiff eq_refl) as [H _].
        discriminate H. }
      destruct (Hfalse eq_refl) as [e He]. by exists e, σ'.
Defined.

(** C8 fails on the code. The docstring promises [False] whenever the
    save does not succeed, but a string with a lone surrogate (which JSON
    text can carry) cannot be encoded, and the [UnicodeEncodeError] of
    [f.write] is no [IOError]: [save_to_file] raises, on a file system
    that would have accepted the file. *)
Theorem save_to_file_raises_on_surrogate :
  (save_to_file (W := friendly_world) [0xD800%N] (lit "verse.txt") initial).1
  = Raise (UnicodeEncodeError
             (lit "'utf-8' codec can't encode character '\ud800' in position 0: surrogates not allowed")).
Proof. by vm_compute. Qed.

(** ** [main] in one-shot mode *)

Section OneShot.

Context {W : World}.

Implicit Types (σ : state) (e : exn).

Lemma extends_refl σ : extends σ σ.
Proof. split_and!; [done..|]. exists []. by rewrite app_nil_r. Qed.

Lemma extends_trans σ1 σ2 σ3 : extends σ1 σ2 → extends σ2 σ3 → extends σ1 σ3.
Proof.
  intros (H1 & H2 & w & H3) (H4 & H5 & w' & H6). split_and!; [congruence..|].
  exists (w ++ w'). by rewrite H6, H3, app_assoc.
Qed.

Lemma no_exit_bind {A B} (r : result A) (f : A → result B) :
  no_exit r → (∀ a, no_exit (f a)) → no_exit (r ≫= f).
Proof. intros Hr Hf. destruct r as [a| |code]; [apply Hf|done|]. by destruct (Hr code). Qed.

Lemma no_exit_Return {A} (a : A) : no_exit (Return a).
Proof. done. Qed.

Lemma no_exit_Raise {A} e : no_exit (@Raise A e).
Proof. done. Qed.

Lemma no_exit_get v key default_ : no_exit (get v key default_).
Proof. by destruct v. Qed.

Lemma no_exit_getitem v key : no_exit (getitem v key).
Proof. destruct v; try done. cbn. by destruct (_ !! _). Qed.

Lemma quiet_mret {A} (a : A) : quiet (mret a).
Proof. intros σ. split; [done | apply extends_refl]. Qed.

Lemma quiet_lift {A} (r : result A) : no_exit r → quiet (lift r).
Proof. intros Hr σ. split; [done | apply extends_refl]. Qed.

Lemma quiet_raise {A} e : quiet (raise (A := A) e).
Proof. by apply quiet_lift. Qed.

Lemma quiet_bind {A B} (m : M A) (f : A → M B) :
  quiet m → (∀ a, quiet (f a)) → quiet (m ≫= f).
Proof.
  intros Hm Hf σ. unfold mbind, M_bind. destruct (Hm σ) as [Hexit Hext].
  destruct (m σ) as [[a|e|code] σ1]; cbn in *.
  - destruct (Hf a σ1) as [? ?]. split; [done|]. by eapply extends_trans.
  - done.
  - by destruct (Hexit code).
Qed.

Lemma quiet_try_except {A} (body : M A) handler :
  quiet body → (∀ e h, handler e = Some h → quiet h) →
  quiet (try_except body handler).
Proof.
  intros Hbody Hhandler σ. unfold try_except. destruct (Hbody σ) as [Hexit Hext].
  destruct (body σ) as [[a|e|code] σ1]; cbn in *; [done| |done].
  destruct (handler e) as [h|] eqn:Hh; [|done].
  destruct (Hhandler e h Hh σ1) as [? ?]. split; [done|]. by eapply extends_trans.
Qed.

Lemma quiet_print_stderr line : quiet (print_stderr line).
Proof. intros σ. split; [done|]. split_and!; [done..|]. by eexists. Qed.

Lemma quiet_lift_attempt {A} (a : attempt A) : quiet (lift_attempt a).
Proof. destruct a; [apply quiet_mret | by apply quiet_lift]. Qed.

Lemma quiet_session_get_ url : quiet (session_get_ url).
Proof.
  intros σ. unfold session_get_. destruct (session_get _ _); cbn;
    (split; [done|]); (split_and!; [done..|]); exists []; by rewrite app_nil_r.
Qed.

Lemma no_exit_raise_for_status response :
  no_exit (requests.raise_for_status response).
Proof. unfold requests.raise_for_status. by repeat case_match. Qed.

Create HintDb quiet.
#[local] Hint Resolve quiet_mret quiet_raise quiet_print_stderr quiet_lift_attempt
  quiet_session_get_ no_exit_get no_exit_getitem no_exit_raise_for_status
  no_exit_Return no_exit_Raise : quiet.
#[local] Hint Extern 2 (quiet (_ ≫= _)) => apply quiet_bind; [|intros ?] : quiet.
#[local] Hint Extern 2 (quiet (lift _)) => apply quiet_lift : quiet.
#[local] Hint Extern 2 (quiet (if ?b then _ else _)) => destruct b : quiet.

Lemma quiet_make_request url : quiet (_make_request url).
Proof.
  unfold _make_request. apply quiet_try_except; [auto 10 with quiet|].
  intros e h Hh. destruct e; try discriminate Hh; injection Hh as <-;
    auto 10 with quiet.
Qed.

Lemma quiet_fetch_translation verse_key key arabic :
  quiet (fetch_translation verse_key key arabic).
Proof.
  unfold fetch_translation. cbv zeta. apply quiet_try_except.
  - pose proof quiet_make_request. auto 20 with quiet.
  - intros e h Hh. destruct (is_RequestException e); [|done].
    injection Hh as <-. auto 10 with quiet.
Qed.

Lemma quiet_get_verse chapter verse translation :
  quiet (get_verse chapter verse translation).
Proof.
  unfold get_verse. cbv zeta. apply quiet_try_except.
  - pose proof quiet_make_request. pose proof quiet_fetch_translation.
    apply quiet_bind; [done|intros response].
    apply quiet_bind; [auto with quiet|intros data].
    apply quiet_bind; [auto with quiet|intros code].
    destruct (negb (eq_200 code)); [auto 10 with quiet|].
    apply quiet_bind; [auto with quiet|intros arabic].
    destruct translation as [[|k key]|]; auto with quiet.
  - intros e h Hh. unfold reraise in Hh.
    destruct (is_RequestException e); [injection Hh as <-; auto with quiet|].
    destruct (is_JSONDecodeError e); [injection Hh as <-; auto with quiet|done].
Qed.

Lemma no_exit_validate_input user_input : no_exit (validate_input user_input).
Proof. intros code. apply validate_input_no_exit. Qed.

Lemma no_exit_strings_of index items : no_exit (strings_of index items).
Proof.
  revert index. induction items as [|v items IH]; intros index; [done|].
  destruct v; try done. cbn [strings_of]. apply no_exit_bind; [apply IH|done].
Qed.

#[local] Ltac no_exit_steps :=
  repeat first
    [ apply no_exit_get | apply no_exit_getitem | apply no_exit_Return
    | apply no_exit_Raise | apply no_exit_strings_of
    | apply no_exit_bind; [|intros ?]
    | match goal with |- no_exit (if ?b then _ else _) => destruct b end ].

Lemma no_exit_format_verse verse_data mode : no_exit (format_verse verse_data mode).
Proof.
  unfold format_verse, format_lines, join_values, header, arabic_section,
    translation_section, location_section.
  no_exit_steps.
Qed.

#[local] Ltac labelled_line :=
  match goal with
  | |- labelled (?label ++ ?rest) =>
      exists label; split;
      [ repeat first [apply list_elem_of_here | apply list_elem_of_further]
      | by exists rest ]
  end.

(** Every exception is reported, under a label, before exit status 1. *)
Lemma report_total e σ :
  ∃ h line after,
    report e = Some h
    ∧ h σ = (Exit 1, State (stdout σ) (stderr σ ++ line :: after)
                           (requested σ) (files σ))
    ∧ labelled line.
Proof.
  unfold report.
  destruct (is_ValueError e) eqn:H1.
  { eexists _, (lit "Input Error: " ++ str_of_exn e), _.
    split_and!; [reflexivity | | labelled_line].
    unfold mbind, M_bind, print_stderr, sys_exit, lift.
    cbn [stdout stderr requested files]. rewrite <- app_assoc. reflexivity. }
  destruct (is_RequestException e) eqn:H2.
  { eexists _, (lit "Network Error: " ++ str_of_exn e), _.
    split_and!; [reflexivity | | labelled_line].
    unfold mbind, M_bind, print_stderr, sys_exit, lift.
    cbn [stdout stderr requested files]. rewrite <- app_assoc. reflexivity. }
  destruct (is_KeyboardInterrupt e) eqn:H3.
  { eexists _, (([0x0A%N] ++ lit "Operation cancelled by user.") ++ []), [].
    split_and!; [reflexivity | by rewrite app_nil_r | labelled_line]. }
  destruct (is_Exception e) eqn:H4.
  { eexists _, (lit "Unexpected Error: " ++ str_of_exn e), _.
    split_and!; [reflexivity | | labelled_line].
    unfold mbind, M_bind, print_stderr, sys_exit, lift.
    cbn [stdout stderr requested files]. rewrite <- app_assoc. reflexivity. }
  by destruct e.
Qed.

Implicit Types (args : Namespace.t).



(** X20. A reference that [validate_input] refuses is reported under the label
    of input errors. *)
Lemma main_reports_invalid_reference
    (run_interactive_mode : M unit) args c reference e σ :
  Namespace.list_translations args = false →
  Namespace.interactive args = false →
  Namespace.verse args = Some (c :: reference) →
  validate_input (c :: reference) = Raise e →
  main run_interactive_mode args σ
  = (Exit 1,
     warned (lit "Use --help for usage information.")
       (warned (lit "Input Error: " ++ str_of_exn e) σ)).
Proof.
  intros Hlist Hinteractive Hverse Hraise.
  assert (is_ValueError e = true) as He
    by by eapply validate_input_raises_ValueError.
  unfold main. rewrite Hlist, Hinteractive, Hverse.
  unfold try_except, one_shot, mbind at 1, M_bind at 1, lift at 1.
  rewrite Hraise. unfold report. by rewrite He.
Qed.

End OneShot.



(** ** More about [InputValidator.validate_input] *)

Section MoreValidator.

Implicit Types (s g : list N) (c : N) (chapter verse : Z).

(** X1. Whatever pair [validate_input] returns is a reference of the
    table: the two numbers are the ones written on both sides of the colon
    of the stripped input, the chapter is one of 1..114 and the verse one
    of 1..[CHAPTER_VERSES[chapter]]. *)
Theorem validate_input_sound user_input chapter verse :
  validate_input user_input = Return (chapter, verse) →
  (∃ g1 g2,
     strip user_input = g1 ++ lit ":" ++ g2
     ∧ int_of_digits g1 = Some chapter ∧ int_of_digits g2 = Some verse)
  ∧ 1 ≤ chapter ≤ 114
  ∧ ∃ max_verses, CHAPTER_VERSES !! chapter = Some max_verses
                  ∧ 1 ≤ verse ≤ max_verses.
Proof.
  intros (g1 & g2 & c & v & Hm & H1 & H2 & _ & _ & Hvalid)%validate_input_Return.
  apply range_checks_Return in Hvalid as ([= <- <-] & ? & ?).
  apply re_match_strip in Hm as (_ & _ & _ & _ & Hs).
  split; [by exists g1, g2 | by split].
Qed.

Lemma validate_input_sound_witness :
  (∃ g1 g2,
     strip (lit " 2:255 ") = g1 ++ lit ":" ++ g2
     ∧ int_of_digits g1 = Some 2 ∧ int_of_digits g2 = Some 255)
  ∧ 1 ≤ 2 ≤ 114
  ∧ ∃ max_verses, CHAPTER_VERSES !! 2 = Some max_verses ∧ 1 ≤ 255 ≤ max_verses.
Proof. apply (validate_input_sound (lit " 2:255 ") 2 255). by vm_compute. Defined.

(** X2. [validate_input] ends in one of two ways only: it returns a pair,
    or it raises a [ValueError], which is one of the two format errors,
    one of the two range errors, or the refusal of [int] to read a number
    of more than 4300 digits. It never exits, [int] fails in no other way
    and the "Unknown chapter" branch never raises. *)
Theorem validate_input_failures user_input :
  (∃ chapter verse, validate_input user_input = Return (chapter, verse))
  ∨ (∃ e, validate_input user_input = Raise e
          ∧ (FormatError e ∨ RangeError e
             ∨ ∃ digits, (int_max_str_digits < digits)%nat
                         ∧ e = DigitLimitError digits)).
Proof.
  destruct (validate_input user_input) as [[chapter verse]|e|code] eqn:Hvalid.
  - left. by exists chapter, verse.
  - right. exists e. split; [done|]. by apply validate_input_Raise in Hvalid.
  - by apply validate_input_no_exit in Hvalid.
Qed.

Lemma lstrip_last s c : last (lstrip s) = Some c → last s = Some c.
Proof.
  induction s as [|x s IH]; [done|]. cbn [lstrip].
  destruct (isspace x); [|done]. intros H. specialize (IH H).
  destruct s; [done|]. done.
Qed.

Lemma strip_head s c : head (strip s) = Some c → isspace c = false.
Proof.
  unfold strip, rstrip. rewrite head_reverse. intros H%lstrip_last.
  rewrite last_reverse in H. by apply lstrip_head in H.
Qed.

Lemma strip_strip s : strip (strip s) = strip s.
Proof. apply strip_id; [apply strip_head | apply strip_last]. Qed.

(** X3. White space around a reference does not count: an input is
    judged as its stripped text is. An input made of white space only is
    no empty input for [validate_input]: it is refused with the message of
    an invalid format, not with "Input cannot be empty". *)
Theorem validate_input_ignores_surrounding_space user_input :
  (strip user_input ≠ [] →
   validate_input user_input = validate_input (strip user_input))
  ∧ (user_input ≠ [] → strip user_input = [] →
     validate_input user_input
     = Raise (ValueError (lit
         "Invalid format. Please use 'chapter:verse' format (e.g., '2:255', '3:10')"))).
Proof.
  split.
  - intros Hs. assert (user_input ≠ []) by (by intros ->).
    unfold validate_input. rewrite strip_strip.
    by rewrite !bool_decide_eq_false_2.
  - intros Hne Hs. unfold validate_input. rewrite bool_decide_eq_false_2 by done.
    by rewrite Hs.
Qed.

Lemma validate_input_ignores_surrounding_space_witness :
  validate_input (lit "  2:255 ") = validate_input (strip (lit "  2:255 "))
  ∧ validate_input (lit "   ")
    = Raise (ValueError (lit
        "Invalid format. Please use 'chapter:verse' format (e.g., '2:255', '3:10')")).
Proof.
  split.
  - apply (proj1 (validate_input_ignores_surrounding_space (lit "  2:255 "))).
    intros H. vm_compute in H. discriminate H.
  - apply (proj2 (validate_input_ignores_surrounding_space (lit "   ")));
      [intros H; discriminate H | by vm_compute].
Defined.

Lemma whitespace_not_decimal c : isspace c = true → isdecimal c = false.
Proof.
  unfold isspace. intros Hc%bool_decide_eq_true.
  assert (forallb (λ c, negb (isdecimal c)) whitespace = true) as Hall
    by by vm_compute.
  rewrite forallb_forall in Hall. apply negb_true_iff, Hall.
  by apply list_elem_of_In.
Qed.

Lemma decimal_not_space c : isdecimal c = true → isspace c = false.
Proof.
  intros Hc. destruct (isspace c) eqn:Hs; [|done].
  apply whitespace_not_decimal in Hs. congruence.
Qed.

Lemma strip_decimal_reference g1 g2 :
  g1 ≠ [] → g2 ≠ [] →
  Forall (λ c, isdecimal c = true) g1 → Forall (λ c, isdecimal c = true) g2 →
  strip (g1 ++ lit ":" ++ g2) = g1 ++ lit ":" ++ g2.
Proof.
  intros Hne1 Hne2 Hg1 Hg2. apply strip_id; intros c Hc.
  - destruct g1 as [|x g1]; [done|]. injection Hc as <-.
    apply Forall_cons in Hg1 as [Hx _]. by apply decimal_not_space.
  - destruct g2 as [|y g2 _] using rev_ind; [done|].
    rewrite !app_assoc, last_snoc in Hc. injection Hc as <-.
    apply Forall_app in Hg2 as [_ Hy]. rewrite Forall_singleton in Hy.
    by apply decimal_not_space.
Qed.

(** A well-formed reference is judged on the two numbers it writes. *)
Lemma validate_input_reference g1 g2 :
  g1 ≠ [] → g2 ≠ [] →
  Forall (λ c, isdecimal c = true) g1 → Forall (λ c, isdecimal c = true) g2 →
  ∃ chapter verse,
    int_of_digits g1 = Some chapter ∧ int_of_digits g2 = Some verse
    ∧ validate_input (g1 ++ lit ":" ++ g2)
      = digit_checks g1 g2 (range_checks chapter verse).
Proof.
  intros Hne1 Hne2 Hg1 Hg2.
  destruct (validate_input_parsed (g1 ++ lit ":" ++ g2) g1 g2)
    as (chapter & verse & H1 & H2 & _ & _ & Hvalid); try done.
  - by apply strip_decimal_reference.
  - by exists chapter, verse.
Qed.

Lemma int_of_digits_app g1 g2 :
  int_of_digits (g1 ++ g2)
  = foldl (λ acc c, a ← acc; d ← to_decimal c; Some (10 * a + d))
      (int_of_digits g1) g2.
Proof. unfold int_of_digits. by rewrite foldl_app. Qed.

Lemma int_of_digits_leading_zeros n g :
  int_of_digits (replicate n 0x30%N ++ g) = int_of_digits g.
Proof.
  rewrite int_of_digits_app.
  assert (int_of_digits (replicate n 0x30%N) = Some 0) as ->; [|done].
  induction n as [|n IH]; [done|].
  rewrite replicate_S_end, int_of_digits_snoc, IH. done.
Qed.

(** X4. Leading zeros do not count for the number, but they count for
    the limit of [int]: as long as each number is written with at most
    4300 digits, zeros included, "002:0255" is judged as "2:255" is, with
    the same pair or the same error; with more digits than that the
    reference is refused, whatever number it writes. *)
Theorem validate_input_ignores_leading_zeros (n1 n2 : nat) g1 g2 :
  g1 ≠ [] → g2 ≠ [] →
  Forall (λ c, isdecimal c = true) g1 → Forall (λ c, isdecimal c = true) g2 →
  ((n1 + length g1 ≤ int_max_str_digits)%nat →
   (n2 + length g2 ≤ int_max_str_digits)%nat →
   validate_input ((replicate n1 0x30%N ++ g1) ++ lit ":" ++ replicate n2 0x30%N ++ g2)
   = validate_input (g1 ++ lit ":" ++ g2))
  ∧ ((int_max_str_digits < n1 + length g1)%nat →
     validate_input ((replicate n1 0x30%N ++ g1) ++ lit ":" ++ replicate n2 0x30%N ++ g2)
     = Raise (DigitLimitError (n1 + length g1))).
Proof.
  intros Hne1 Hne2 Hg1 Hg2.
  assert (∀ n, Forall (λ c, isdecimal c = true) (replicate n 0x30%N)) as Hzeros.
  { intros n. apply Forall_replicate. by vm_compute. }
  destruct (validate_input_reference g1 g2) as (c & v & Hc & Hv & ->); [done..|].
  destruct (validate_input_reference (replicate n1 0x30%N ++ g1)
              (replicate n2 0x30%N ++ g2)) as (c' & v' & Hc' & Hv' & ->).
  - by destruct n1, g1.
  - by destruct n2, g2.
  - apply Forall_app; auto.
  - apply Forall_app; auto.
  - rewrite int_of_digits_leading_zeros in Hc', Hv'.
    assert (c' = c) as -> by congruence. assert (v' = v) as -> by congruence.
    assert (length (replicate n1 0x30%N ++ g1) = (n1 + length g1)%nat) as Hlen1
      by (by rewrite length_app, length_replicate).
    assert (length (replicate n2 0x30%N ++ g2) = (n2 + length g2)%nat) as Hlen2
      by (by rewrite length_app, length_replicate).
    split.
    + intros H1 H2. rewrite !digit_checks_within; [done | lia..].
    + intros H1. rewrite digit_checks_chapter by lia. by rewrite Hlen1.
Qed.

Lemma validate_input_ignores_leading_zeros_witness :
  validate_input ((replicate 2 0x30%N ++ lit "2") ++ lit ":"
                    ++ replicate 1 0x30%N ++ lit "255")
  = validate_input (lit "2" ++ lit ":" ++ lit "255")
  ∧ validate_input ((replicate 4300 0x30%N ++ lit "2") ++ lit ":"
                      ++ replicate 0 0x30%N ++ lit "255")
    = Raise (DigitLimitError (4300 + length (lit "2"))).
Proof.
  split.
  - apply (validate_input_ignores_leading_zeros 2 1 (lit "2") (lit "255"));
      [done | done | by repeat constructor.. | |];
      apply Nat.leb_le; by vm_compute.
  - apply (validate_input_ignores_leading_zeros 4300 0 (lit "2") (lit "255"));
      [done | done | by repeat constructor.. |].
    apply Nat.ltb_lt. by vm_compute.
Defined.

Lemma to_decimal_script zero (d : N) :
  zero ∈ decimal_zeros → (d < 10)%N → to_decimal (zero + d) = Some (Z.of_N d).
Proof.
  intros Hzero Hd.
  assert (forallb (λ z, forallb (λ k, bool_decide
            (to_decimal (z + k) = Some (Z.of_N k)))
            [0; 1; 2; 3; 4; 5; 6; 7; 8; 9]%N) decimal_zeros = true) as Hall
    by by vm_compute.
  rewrite forallb_forall in Hall.
  apply list_elem_of_In, Hall in Hzero. rewrite forallb_forall in Hzero.
  apply (bool_decide_eq_true_1 _), Hzero, list_elem_of_In.
  assert (d = 0 ∨ d = 1 ∨ d = 2 ∨ d = 3 ∨ d = 4 ∨ d = 5 ∨ d = 6 ∨ d = 7
          ∨ d = 8 ∨ d = 9)%N as Hcases by lia.
  rewrite !elem_of_cons. tauto.
Qed.

Lemma in_script_decimal zero g :
  zero ∈ decimal_zeros → Forall (λ c, ascii_digit c = true) g →
  Forall (λ c, isdecimal c = true) (in_script zero g)
  ∧ int_of_digits (in_script zero g) = int_of_digits g.
Proof.
  intros Hzero. induction g as [|c g IH] using rev_ind; intros Hg; [by split|].
  - apply Forall_app in Hg as [Hg Hc]. rewrite Forall_singleton in Hc.
    destruct (IH Hg) as [IH1 IH2]. unfold in_script in *.
    rewrite fmap_app. cbn [fmap list_fmap].
    assert (to_decimal (zero + (c - 48)) = to_decimal c) as Hsame.
    { destruct (ascii_digit_cases c Hc) as [-> _].
      unfold ascii_digit in Hc. apply andb_prop in Hc as [?%N.leb_le ?%N.leb_le].
      rewrite to_decimal_script by (done || lia). f_equal. lia. }
    split.
    + apply Forall_app. split; [done|]. apply Forall_singleton.
      unfold isdecimal. rewrite Hsame.
      by destruct (ascii_digit_cases c Hc) as [-> _].
    + by rewrite !int_of_digits_snoc, IH2, Hsame.
Qed.

(** X5. The pattern [\d] and [int] read the decimal digits of every
    script: a reference written with the digits of another script
    (Arabic-Indic, Devanagari, ...) is judged as the same reference in
    ASCII digits is. *)
Theorem validate_input_reads_any_script zero1 zero2 g1 g2 :
  zero1 ∈ decimal_zeros → zero2 ∈ decimal_zeros →
  g1 ≠ [] → g2 ≠ [] →
  Forall (λ c, ascii_digit c = true) g1 → Forall (λ c, ascii_digit c = true) g2 →
  validate_input (in_script zero1 g1 ++ lit ":" ++ in_script zero2 g2)
  = validate_input (g1 ++ lit ":" ++ g2).
Proof.
  intros Hz1 Hz2 Hne1 Hne2 Hg1 Hg2.
  destruct (in_script_decimal zero1 g1 Hz1 Hg1) as [Hd1 Hi1].
  destruct (in_script_decimal zero2 g2 Hz2 Hg2) as [Hd2 Hi2].
  destruct (validate_input_reference g1 g2) as (c & v & Hc & Hv & ->);
    [done | done | | |].
  1,2: eapply Forall_impl; [done | apply ascii_digit_isdecimal].
  destruct (validate_input_reference (in_script zero1 g1) (in_script zero2 g2))
    as (c' & v' & Hc' & Hv' & ->); [by destruct g1 | by destruct g2 | done..|].
  assert (c' = c) as -> by congruence. assert (v' = v) as -> by congruence.
  unfold digit_checks, in_script. by rewrite !length_fmap.
Qed.

Lemma validate_input_reads_any_script_witness :
  validate_input (in_script 0x660 (lit "2") ++ lit ":" ++ in_script 0x6F0 (lit "255"))
  = validate_input (lit "2" ++ lit ":" ++ lit "255").
Proof.
  apply (validate_input_reads_any_script 0x660 0x6F0 (lit "2") (lit "255"));
    [ apply (bool_decide_unpack _); by vm_compute
    | apply (bool_decide_unpack _); by vm_compute
    | done | done | by repeat constructor | by repeat constructor ].
Defined.

End MoreValidator.

(** ** More about [QuranAPI._make_request] and [QuranAPI.get_verse] *)

Section MoreClient.

Context {W : World}.

Implicit Types (σ : state) (url key : list N) (e : exn) (translation : option (list N)).

Lemma raise_for_status_Return response :
  requests.raise_for_status response = Return () ↔
  ¬ (400 ≤ requests.status_code response < 600).
Proof.
  unfold requests.raise_for_status.
  destruct (400 <=? requests.status_code response) eqn:H4;
    destruct (requests.status_code response <? 500) eqn:H5;
    destruct (500 <=? requests.status_code response) eqn:H6;
    destruct (requests.status_code response <? 600) eqn:H7;
    cbn [andb];
    repeat match goal with
           | H : (_ <=? _) = true |- _ => apply Z.leb_le in H
           | H : (_ <=? _) = false |- _ => apply Z.leb_gt in H
           | H : (_ <? _) = true |- _ => apply Z.ltb_lt in H
           | H : (_ <? _) = false |- _ => apply Z.ltb_ge in H
           end;
    (split; [ intros Heq; first [discriminate Heq | lia]
            | intros Hn; first [reflexivity | exfalso; lia] ]).
Qed.

(** X6. [_make_request] asks the server once for the URL and does nothing
    else. It never exits; and the response it returns is the one the
    server gave, with a status that is no error (not in 400..599). *)
Theorem make_request_postcondition url σ :
  ∃ r,
    _make_request url σ = (r, sent url σ)
    ∧ no_exit r
    ∧ ∀ response,
        r = Return response →
        session_get (requested σ) url = Done response
        ∧ ¬ (400 ≤ requests.status_code response < 600).
Proof.
  unfold _make_request, try_except, session_get_, mbind, M_bind, lift.
  destruct (session_get (requested σ) url) as [response|e].
  - destruct (requests.raise_for_status response) as [[]|e|code] eqn:Hstatus.
    + eexists. split_and!; [done..|]. intros ? [= <-].
      split; [done|]. by apply raise_for_status_Return.
    + destruct e; unfold raise, lift; repeat case_match;
        eexists; split_and!; done.
    + exfalso. unfold requests.raise_for_status in Hstatus.
      by repeat case_match.
  - destruct e; unfold raise, lift; repeat case_match;
      eexists; split_and!; done.
Qed.

(** X7. The failures [_make_request] translates. A time-out and a
    connection failure become a [RequestException] with a message of
    their own; so do the statuses 404 and 429; every other error status
    becomes "HTTP error <status>: " followed by the text of the
    [HTTPError] that [raise_for_status] made for it. *)
Theorem make_request_translates_failures url σ :
  (∀ msg,
     session_get (requested σ) url = Failed (Timeout msg) →
     _make_request url σ
     = (Raise (RequestException (lit
          "Request timed out. Please check your internet connection.")),
        sent url σ))
  ∧ (∀ msg,
       session_get (requested σ) url = Failed (ConnectionError msg) →
       _make_request url σ
       = (Raise (RequestException (lit
            "Connection error. Please check your internet connection.")),
          sent url σ))
  ∧ (∀ response,
       session_get (requested σ) url = Done response →
       requests.status_code response = 404 →
       _make_request url σ
       = (Raise (RequestException (lit
            "Verse not found. Please check chapter and verse numbers.")),
          sent url σ))
  ∧ (∀ response,
       session_get (requested σ) url = Done response →
       requests.status_code response = 429 →
       _make_request url σ
       = (Raise (RequestException (lit
            "Too many requests. Please wait a moment and try again.")),
          sent url σ))
  ∧ (∀ response,
       session_get (requested σ) url = Done response →
       400 ≤ requests.status_code response < 600 →
       requests.status_code response ≠ 404 →
       requests.status_code response ≠ 429 →
       _make_request url σ
       = (Raise (RequestException
            (lit "HTTP error " ++ str_of_int (requests.status_code response)
               ++ lit ": " ++ str_of_int (requests.status_code response)
               ++ (if requests.status_code response <? 500
                   then lit " Client Error: " else lit " Server Error: ")
               ++ requests.reason response
               ++ lit " for url: " ++ requests.url response)),
          sent url σ)).
Proof.
  unfold _make_request, try_except, session_get_, mbind, M_bind, lift.
  split_and!.
  - by intros msg ->.
  - by intros msg ->.
  - intros response -> Hcode. unfold requests.raise_for_status. by rewrite Hcode.
  - intros response -> Hcode. unfold requests.raise_for_status. by rewrite Hcode.
  - intros response -> Hcode H404 H429. unfold requests.raise_for_status.
    destruct (requests.status_code response <? 500) eqn:H5.
    + apply Z.ltb_lt in H5.
      rewrite (proj2 (Z.leb_le _ _)) by lia. cbn [andb].
      rewrite !(proj2 (Z.eqb_neq _ _)) by lia. done.
    + apply Z.ltb_ge in H5. rewrite andb_false_r.
      rewrite (proj2 (Z.leb_le 500 _)), (proj2 (Z.ltb_lt _ 600)) by lia.
      cbn [andb]. rewrite !(proj2 (Z.eqb_neq _ _)) by lia. done.
Qed.

Lemma reraise_state e σ :
  ∃ r, match reraise e with
       | Some handle => handle σ
       | None => (Raise e, σ)
       end = (r, σ) ∧ no_exit r.
Proof.
  unfold reraise. destruct (is_RequestException e); [by eexists|].
  destruct (is_JSONDecodeError e); by eexists.
Qed.

(** However it ends, [get_verse] has asked for the Arabic text, then at
    most once for the edition of a translation that was asked for, and has
    printed at most the warning of a failed translation. *)
Lemma get_verse_state chapter verse translation σ :
  (get_verse chapter verse translation σ).2 = sent (arabic_url chapter verse) σ
  ∨ ∃ key,
      translation = Some key ∧ key ≠ []
      ∧ ((get_verse chapter verse translation σ).2
         = sent (translation_url chapter verse (TRANSLATIONS_get key key))
             (sent (arabic_url chapter verse) σ)
         ∨ ∃ warning,
             (get_verse chapter verse translation σ).2
             = warned (lit "Warning: " ++ warning)
                 (sent (translation_url chapter verse (TRANSLATIONS_get key key))
                    (sent (arabic_url chapter verse) σ))).
Proof.
  set (P := λ σ' : state,
    σ' = sent (arabic_url chapter verse) σ
    ∨ ∃ key,
        translation = Some key ∧ key ≠ []
        ∧ (σ' = sent (translation_url chapter verse (TRANSLATIONS_get key key))
                  (sent (arabic_url chapter verse) σ)
           ∨ ∃ warning,
               σ' = warned (lit "Warning: " ++ warning)
                      (sent (translation_url chapter verse
                               (TRANSLATIONS_get key key))
                         (sent (arabic_url chapter verse) σ)))).
  change (P (get_verse chapter verse translation σ).2).
  assert (P (sent (arabic_url chapter verse) σ)) as Harabic by by left.
  assert (∀ key σ',
            translation = Some key → key ≠ [] →
            σ' = sent (edition_url
                         (str_of_int chapter ++ lit ":" ++ str_of_int verse) key)
                   (sent (arabic_url chapter verse) σ)
            ∨ (∃ warning,
                 σ' = warned (lit "Warning: " ++ warning)
                        (sent (edition_url
                                 (str_of_int chapter ++ lit ":" ++ str_of_int verse)
                                 key)
                           (sent (arabic_url chapter verse) σ))) →
            P σ') as Hboth.
  { intros key σ' Hkey Hne Hσ'. right. by exists key. }
  clearbody P.
  unfold get_verse. cbv zeta. rewrite try_except_reraise_state.
  fold (arabic_url chapter verse). unfold mbind at 1, M_bind at 1.
  destruct (make_request_state (arabic_url chapter verse) σ) as [r1 ->].
  destruct r1 as [response|e|code]; [|done..].
  unfold mbind at 1, M_bind at 1.
  destruct (requests.json response) as [data|e]; cbn [lift_attempt]; [|done].
  unfold mret, M_ret. unfold mbind at 1, M_bind at 1, lift at 1.
  destruct (get data (lit "code") VNone) as [code|e|c]; [|done..].
  destruct (negb (eq_200 code)).
  { unfold mbind at 1, M_bind at 1, lift at 1.
    destruct (get data (lit "status") _) as [status|e|c]; done. }
  unfold mbind at 1, M_bind at 1, lift at 1.
  destruct (getitem data (lit "data")) as [arabic|e|c]; [|done..].
  destruct translation as [[|k key]|]; [done| |done].
  destruct (fetch_translation_state
              (str_of_int chapter ++ lit ":" ++ str_of_int verse) (k :: key)
              arabic (sent (arabic_url chapter verse) σ))
    as (r & σ' & -> & Hσ').
  by apply (Hboth (k :: key)).
Qed.

(** X8. Without a translation (none asked for, or the empty key),
    [get_verse] asks for the Arabic text only, however the fetch ends;
    when the fetch succeeds, it returns the record of the reference with
    the Arabic data and no translation, and prints nothing. *)
Theorem get_verse_without_translation chapter verse translation σ :
  translation = None ∨ translation = Some [] →
  (get_verse chapter verse translation σ).2 = sent (arabic_url chapter verse) σ
  ∧ ∀ arabic,
      fetch_succeeds (requested σ) (arabic_url chapter verse) arabic →
      get_verse chapter verse translation σ
      = (Return (verse_record
                   (str_of_int chapter ++ lit ":" ++ str_of_int verse)
                   arabic VNone),
         sent (arabic_url chapter verse) σ).
Proof.
  intros Htranslation.
  split.
  { destruct (get_verse_state chapter verse translation σ)
      as [Hσ | (key & Hkey & Hne & _)]; [done|].
    destruct Htranslation as [-> | ->]; [done|]. by injection Hkey as <-. }
  intros arabic (response & body & Hget & Hstatus & Hjson & Hcode & Hdata).
  unfold get_verse. cbv zeta. fold (arabic_url chapter verse).
  unfold try_except, mbind at 1, M_bind at 1.
  rewrite (make_request_returns _ _ _ Hget Hstatus).
  unfold mbind at 1, M_bind at 1. rewrite Hjson.
  cbn [lift_attempt lift get getitem mret M_ret mbind M_bind].
  rewrite Hcode, Hdata. unfold mbind, M_bind, lift.
  by destruct Htranslation as [-> | ->].
Qed.

(** X9. When both fetches succeed, [get_verse] returns the record of the
    reference with the Arabic data and the data of the translation, after
    exactly the two requests, and prints nothing. *)
Theorem get_verse_returns_translation chapter verse key arabic data σ :
  key ≠ [] →
  fetch_succeeds (requested σ) (arabic_url chapter verse) arabic →
  fetch_succeeds (requested σ ++ [arabic_url chapter verse])
    (translation_url chapter verse (TRANSLATIONS_get key key)) data →
  get_verse chapter verse (Some key) σ
  = (Return (verse_record (str_of_int chapter ++ lit ":" ++ str_of_int verse)
               arabic data),
     sent (translation_url chapter verse (TRANSLATIONS_get key key))
       (sent (arabic_url chapter verse) σ)).
Proof.
  intros Hkey Harabic Htranslation.
  rewrite (get_verse_after_arabic _ _ _ _ _ Hkey Harabic).
  unfold try_except.
  by rewrite (fetch_translation_returns
                (str_of_int chapter ++ lit ":" ++ str_of_int verse) key arabic data
                (sent (arabic_url chapter verse) σ) Htranslation).
Qed.

(** X10. When the request for the Arabic text fails (no answer, or an
    error status), [get_verse] raises a [RequestException] whose message
    is "Network error while fetching verse: " followed by the message
    [_make_request] gave to the failure; the translation is not asked
    for. *)
Theorem get_verse_network_failure chapter verse translation σ :
  (∃ e, session_get (requested σ) (arabic_url chapter verse) = Failed e
        ∧ is_RequestException e = true)
  ∨ (∃ response e,
       session_get (requested σ) (arabic_url chapter verse) = Done response
       ∧ requests.raise_for_status response = Raise e) →
  ∃ cause,
    _make_request (arabic_url chapter verse) σ
    = (Raise cause, sent (arabic_url chapter verse) σ)
    ∧ is_RequestException cause = true
    ∧ get_verse chapter verse translation σ
      = (Raise (RequestException
                  (lit "Network error while fetching verse: "
                     ++ str_of_exn cause)),
         sent (arabic_url chapter verse) σ).
Proof.
  intros Hfail.
  destruct (make_request_raises (arabic_url chapter verse) σ Hfail)
    as (e' & Hrequest & He').
  exists e'. split_and!; [done..|].
  unfold get_verse. cbv zeta. fold (arabic_url chapter verse).
  unfold try_except, mbind at 1, M_bind at 1.
  rewrite Hrequest. unfold reraise. by rewrite He'.
Qed.

(** X11. When the server answers the request for the Arabic text with a
    JSON object whose code is not 200, [get_verse] raises the [ValueError]
    "API Error: " followed by the status the object gives ("Unknown error"
    when it gives none); the translation is not asked for. *)
Theorem get_verse_api_error chapter verse translation response body σ :
  session_get (requested σ) (arabic_url chapter verse) = Done response →
  requests.raise_for_status response = Return () →
  requests.json response = Done (VDict body) →
  eq_200 (default VNone (body !! lit "code")) = false →
  get_verse chapter verse translation σ
  = (Raise (ValueError
              (lit "API Error: "
                 ++ str_of_value (default (VStr (lit "Unknown error"))
                                    (body !! lit "status")))),
     sent (arabic_url chapter verse) σ).
Proof.
  intros Hget Hstatus Hjson Hcode.
  unfold get_verse. cbv zeta. fold (arabic_url chapter verse).
  unfold try_except, mbind at 1, M_bind at 1.
  rewrite (make_request_returns _ _ _ Hget Hstatus).
  unfold mbind at 1, M_bind at 1. rewrite Hjson.
  cbn [lift_attempt lift get getitem mret M_ret mbind M_bind].
  unfold mbind at 1, M_bind at 1, lift at 1. rewrite Hcode. cbn [negb].
  unfold mbind, M_bind, lift, raise. done.
Qed.

(** X12. What [get_verse] does to the world, however it ends: it never
    exits, prints nothing on the standard output and writes no file; it
    sends the request for the Arabic text, and after it at most the one
    for the edition of a translation that was asked for; and it prints at
    most one line on the standard error stream, a warning. *)
Theorem get_verse_effects chapter verse translation σ :
  ∃ r σ',
    get_verse chapter verse translation σ = (r, σ')
    ∧ no_exit r
    ∧ stdout σ' = stdout σ ∧ files σ' = files σ
    ∧ (requested σ' = requested σ ++ [arabic_url chapter verse]
       ∨ ∃ key, translation = Some key ∧ key ≠ []
                ∧ requested σ'
                  = requested σ ++ [arabic_url chapter verse;
                                    translation_url chapter verse
                                      (TRANSLATIONS_get key key)])
    ∧ (stderr σ' = stderr σ
       ∨ ∃ warning, stderr σ' = stderr σ ++ [lit "Warning: " ++ warning]).
Proof.
  destruct (quiet_get_verse chapter verse translation σ)
    as [Hexit (Hout & Hfiles & _)].
  pose proof (get_verse_state chapter verse translation σ) as Hstate.
  destruct (get_verse chapter verse translation σ) as [r σ'].
  cbn [fst snd] in *.
  exists r, σ'. split_and!; [done..| |].
  - destruct Hstate as [-> | (key & -> & Hkey & [-> | [warning ->]])];
      [by left|right; exists key; cbn; by rewrite <- app_assoc..].
  - destruct Hstate as [-> | (key & -> & Hkey & [-> | [warning ->]])];
      [by left..|right; by exists warning].
Qed.

End MoreClient.

Lemma make_request_translates_failures_witness :
  _make_request (W := offline_world) (arabic_url 1 1) initial
  = (Raise (RequestException (lit
       "Request timed out. Please check your internet connection.")),
     sent (arabic_url 1 1) initial)
  ∧ _make_request (W := not_found_world) (arabic_url 1 8) initial
    = (Raise (RequestException (lit
         "Verse not found. Please check chapter and verse numbers.")),
       sent (arabic_url 1 8) initial).
Proof.
  split.
  - destruct (make_request_translates_failures (W := offline_world)
                (arabic_url 1 1) initial) as (Htimeout & _).
    by apply (Htimeout (lit "Read timed out. (read timeout=10)")).
  - destruct (make_request_translates_failures (W := not_found_world)
                (arabic_url 1 8) initial) as (_ & _ & Hmissing & _).
    by eapply Hmissing.
Defined.

Lemma sample_translation_fetch url :
  fetch_succeeds (W := friendly_world) [arabic_url 1 1] url sample_translation.
Proof.
  exists (response_200 url (Done (envelope sample_translation))),
         (envelope_fields sample_translation).
  split_and!; [reflexivity | reflexivity | reflexivity | by vm_compute..].
Qed.

Lemma get_verse_without_translation_witness :
  get_verse (W := friendly_world) 1 1 None initial
  = (Return (verse_record (lit "1:1") sample_ayah VNone),
     sent (arabic_url 1 1) initial).
Proof.
  apply (proj2 (get_verse_without_translation (W := friendly_world)
                  1 1 None initial (or_introl eq_refl)) sample_ayah).
  apply sample_arabic_fetch.
Defined.

Lemma get_verse_returns_translation_witness :
  get_verse (W := friendly_world) 1 1 (Some (lit "sahih")) initial
  = (Return (verse_record (lit "1:1") sample_ayah sample_translation),
     sent (translation_url 1 1 (lit "en.sahih")) (sent (arabic_url 1 1) initial)).
Proof.
  apply (get_verse_returns_translation (W := friendly_world)
           1 1 (lit "sahih") sample_ayah sample_translation initial).
  - done.
  - apply sample_arabic_fetch.
  - apply sample_translation_fetch.
Defined.

Lemma get_verse_network_failure_witness :
  get_verse (W := offline_world) 1 1 (Some (lit "sahih")) initial
  = (Raise (RequestException (lit
       "Network error while fetching verse: Request timed out. Please check your internet connection.")),
     sent (arabic_url 1 1) initial).
Proof.
  destruct (get_verse_network_failure (W := offline_world)
              1 1 (Some (lit "sahih")) initial) as (cause & Hrequest & _ & ->).
  - left. by eexists.
  - vm_compute in Hrequest. injection Hrequest as <-. reflexivity.
Defined.

Lemma get_verse_api_error_witness :
  get_verse (W := refusing_world) 1 1 (Some (lit "sahih")) initial
  = (Raise (ValueError (lit "API Error: Bad Request")),
     sent (arabic_url 1 1) initial).
Proof.
  apply (get_verse_api_error (W := refusing_world) 1 1 (Some (lit "sahih"))
           (response_200 (arabic_url 1 1) (Done (VDict error_envelope)))
           error_envelope initial); by vm_compute.
Defined.

(** ** More about [OutputFormatter.format_verse] *)

Section MoreFormatter.

Context {W : World}.

Implicit Types (d a t : gmap (list N) value) (l : value) (lines : list value).

Lemma truthy_dict d : d ≠ ∅ → truthy (VDict d) = true.
Proof.
  intros Hd. cbn [truthy]. apply negb_true_iff, bool_decide_eq_false_2.
  by apply map_size_non_empty_iff.
Qed.

Lemma mode_wants_translation mode :
  mode ∈ [lit "translation"; lit "both"] →
  bool_decide (mode ∈ [lit "translation"; lit "both"]) = true
  ∧ bool_decide (mode ∈ [lit "arabic"; lit "both"])
    = bool_decide (mode = lit "both").
Proof.
  intros Hmode. split; [by apply bool_decide_eq_true_2|].
  apply elem_of_cons in Hmode as [-> | Hmode]; [done|].
  apply elem_of_cons in Hmode as [-> | Hmode]; [done|].
  by apply elem_of_nil in Hmode.
Qed.

Lemma translation_section_lines t edition :
  edition_of t = VDict edition →
  translation_section (VDict t)
  = Return [translation_heading; translation_text t; translation_credit edition].
Proof.
  unfold edition_of. intros Hedition. unfold translation_section.
  cbn [get mbind result_bind]. rewrite Hedition. done.
Qed.

(** The Arabic section has two or three lines, all of them strings. *)
Lemma arabic_section_strings a :
  ∃ asec,
    arabic_section (VDict a) = Return asec
    ∧ Forall (λ l, ∃ s, l = VStr s) asec
    ∧ (2 ≤ length asec ≤ 3)%nat.
Proof.
  unfold arabic_section. cbn [get getitem mbind result_bind].
  destruct (a !! lit "numberInSurah") as [number|] eqn:Hn; cbn [from_option id].
  - destruct (truthy number); cbn [mbind result_bind app];
      eexists; (split; [reflexivity|]);
      (split; [repeat constructor; by eexists | cbn; lia]).
  - eexists. cbn [truthy]. split; [reflexivity|].
    split; [repeat constructor; by eexists | cbn; lia].
Qed.

(** What the sections of a block are, on a record with a translation, in
    the modes that show it. *)
Lemma format_lines_with_translation d t edition mode :
  verse_record_shape (VDict d) →
  translation_of d = VDict t → t ≠ ∅ →
  edition_of t = VDict edition →
  mode ∈ [lit "translation"; lit "both"] →
  ∃ head asec loc,
    header (VDict d) (arabic_of d) = Return head
    ∧ (if bool_decide (mode = lit "both") && truthy (arabic_of d)
       then arabic_section (arabic_of d) else Return []) = Return asec
    ∧ (if truthy (arabic_of d) then location_section (arabic_of d) else Return [])
      = Return loc
    ∧ format_lines (VDict d) mode
      = Return (head ++ asec
                  ++ [translation_heading; translation_text t;
                      translation_credit edition]
                  ++ loc ++ [footer])
    ∧ Forall (λ l, ∃ s, l = VStr s) head
    ∧ Forall (λ l, ∃ s, l = VStr s) asec
    ∧ Forall (λ l, ∃ s, l = VStr s) loc
    ∧ length head = 3%nat ∧ (length asec ≤ 3)%nat.
Proof.
  intros (d' & a & s & [= <-] & Ha & Hs) Ht Hne Hedition Hmode.
  fold (arabic_of d) in Ha. rewrite Ha.
  destruct (mode_wants_translation mode Hmode) as [Htmode Hamode].
  assert (∃ head, header (VDict d) (VDict a) = Return head
                  ∧ Forall (λ l, ∃ s, l = VStr s) head
                  ∧ length head = 3%nat) as (head & Hhead & Hstr_head & Hlen).
  { unfold header. cbn [get mbind result_bind]. rewrite Hs.
    cbn [get mbind result_bind]. eexists. split; [reflexivity|].
    split; [repeat constructor; by eexists | done]. }
  destruct (location_section_lines a) as (loc' & Hloc' & Hplain_loc').
  destruct (arabic_section_strings a) as (asec' & Hasec' & Hstr_asec' & Hlen').
  set (loc := if truthy (VDict a) then loc' else []).
  set (asec := if bool_decide (mode = lit "both") && truthy (VDict a)
               then asec' else []).
  assert ((if truthy (VDict a) then location_section (VDict a) else Return [])
          = Return loc) as Hloc
    by (unfold loc; by destruct (truthy (VDict a))).
  assert ((if bool_decide (mode = lit "both") && truthy (VDict a)
           then arabic_section (VDict a) else Return []) = Return asec) as Hasec
    by (unfold asec; by destruct (_ && _)).
  exists head, asec, loc. split_and!; try done.
  - rewrite (format_lines_sections d a head loc) by done.
    rewrite Htmode, Hamode, Ht, (truthy_dict t Hne). cbn [andb].
    rewrite Hasec. cbn [mbind result_bind].
    by rewrite (translation_section_lines t edition Hedition).
  - unfold asec. destruct (_ && _); [done | constructor].
  - unfold loc. destruct (truthy (VDict a)); [|constructor].
    by apply plain_line_str.
  - unfold asec. destruct (_ && _); cbn; lia.
Qed.

Lemma header_title d a s :
  default (VDict ∅) (a !! lit "surah") = VDict s →
  header (VDict d) (VDict a) = Return [rule; VStr (title d s); rule].
Proof.
  intros Hs. unfold header. cbn [get mbind result_bind]. rewrite Hs.
  cbn [get mbind result_bind]. reflexivity.
Qed.

Lemma arabic_section_arabic_lines a :
  arabic_section (VDict a) = Return (VStr <$> arabic_lines a).
Proof.
  unfold arabic_section, arabic_lines. cbn [get getitem mbind result_bind].
  destruct (a !! lit "numberInSurah") as [number|] eqn:Hn; cbn [from_option id].
  - destruct (truthy number); reflexivity.
  - reflexivity.
Qed.

Lemma location_section_location_lines a :
  location_section (VDict a) = Return (VStr <$> location_lines a).
Proof.
  unfold location_section, location_lines. cbn [get mbind result_bind].
  destruct (truthy (default VNone (a !! lit "juz")));
    destruct (truthy (default VNone (a !! lit "page"))); reflexivity.
Qed.

Lemma strings_of_fmap index (strings : list (list N)) :
  strings_of index (VStr <$> strings) = Return strings.
Proof.
  revert index. induction strings as [|x strings IH]; intros index; [done|].
  cbn [fmap list_fmap strings_of]. fold (fmap VStr strings).
  by rewrite IH.
Qed.

Lemma join_values_fmap sep (strings : list (list N)) :
  join_values sep (VStr <$> strings) = Return (join sep strings).
Proof. unfold join_values. by rewrite strings_of_fmap. Qed.

(** The block of a record whose Arabic payload and chapter are
    dictionaries, given what the translation section turns out to be. *)
Lemma format_verse_lines d a s mode (shown : list (list N)) :
  arabic_of d = VDict a →
  default (VDict ∅) (a !! lit "surah") = VDict s →
  (if bool_decide (mode ∈ [lit "translation"; lit "both"])
      && truthy (translation_of d)
   then translation_section (translation_of d) else Return [])
  = Return (VStr <$> shown) →
  format_verse (VDict d) mode = Return (join [0x0A%N] (block d a s mode shown)).
Proof.
  intros Ha Hs Hshown. unfold format_verse.
  rewrite (format_lines_sections d a [rule; VStr (title d s); rule]
             (VStr <$> (if truthy (VDict a) then location_lines a else [])));
    [|done | by apply header_title
     |destruct (truthy (VDict a));
      [apply location_section_location_lines | done]].
  rewrite Hshown.
  assert ((if bool_decide (mode ∈ [lit "arabic"; lit "both"]) && truthy (VDict a)
           then arabic_section (VDict a) else Return [])
          = Return (VStr <$> (if bool_decide (mode ∈ [lit "arabic"; lit "both"])
                                 && truthy (VDict a)
                              then arabic_lines a else []))) as ->.
  { destruct (bool_decide (mode ∈ [lit "arabic"; lit "both"]) && truthy (VDict a));
      [apply arabic_section_arabic_lines | done]. }
  cbn [mbind result_bind].
  change [rule; VStr (title d s); rule]
    with (VStr <$> [times (lit "=") 60; title d s; times (lit "=") 60]).
  change [footer] with (VStr <$> [[0x0A%N] ++ times (lit "=") 60]).
  rewrite <- !fmap_app. apply join_values_fmap.
Qed.

Lemma format_verse_without_translation d a s mode :
  arabic_of d = VDict a →
  default (VDict ∅) (a !! lit "surah") = VDict s →
  bool_decide (mode ∈ [lit "translation"; lit "both"])
    && truthy (translation_of d) = false →
  format_verse (VDict d) mode = Return (join [0x0A%N] (block d a s mode [])).
Proof.
  intros Ha Hs Hnot. apply format_verse_lines; [done..|]. by rewrite Hnot.
Qed.

(** X13. The block [format_verse] returns, line by line. For a record
    whose Arabic payload is a dictionary (in which the chapter, when
    given, is a dictionary too), the block is: the rule of sixty "=", the
    line "Verse: <reference> | Surah: <name> (<name in Arabic>)" and the
    rule again; in the modes "arabic" and "both", when the payload is not
    empty, the Arabic section; in the modes "translation" and "both", when
    the record has a translation, the translation section, which is its
    heading, the text of the translation and the name of its edition; the
    location; an empty line and the rule. The lines are joined by
    newlines. So in mode "arabic" the block has no translation section
    whatever the record carries, and in a mode that is none of the three
    it has the header, the location and the closing rule only. *)
Theorem format_verse_block d a s mode :
  arabic_of d = VDict a →
  default (VDict ∅) (a !! lit "surah") = VDict s →
  (bool_decide (mode ∈ [lit "translation"; lit "both"])
     && truthy (translation_of d) = false →
   format_verse (VDict d) mode = Return (join [0x0A%N] (block d a s mode [])))
  ∧ (∀ t text e,
       mode ∈ [lit "translation"; lit "both"] →
       translation_of d = VDict t → t ≠ ∅ →
       translation_text t = VStr text →
       edition_of t = VDict e →
       format_verse (VDict d) mode
       = Return (join [0x0A%N] (block d a s mode (translation_lines text e))))
  ∧ format_verse (VDict d) (lit "arabic")
    = Return (join [0x0A%N]
        ([times (lit "=") 60; title d s; times (lit "=") 60]
           ++ (if truthy (VDict a) then arabic_lines a else [])
           ++ (if truthy (VDict a) then location_lines a else [])
           ++ [[0x0A%N] ++ times (lit "=") 60]))
  ∧ (mode ∉ [lit "arabic"; lit "translation"; lit "both"] →
     format_verse (VDict d) mode
     = Return (join [0x0A%N]
         ([times (lit "=") 60; title d s; times (lit "=") 60]
            ++ (if truthy (VDict a) then location_lines a else [])
            ++ [[0x0A%N] ++ times (lit "=") 60]))).
Proof.
  intros Ha Hs. split_and!.
  - by apply format_verse_without_translation.
  - intros t text e Hmode Ht Hne Htext Hedition.
    apply format_verse_lines; [done..|].
    rewrite (bool_decide_eq_true_2 _ Hmode), Ht, (truthy_dict t Hne).
    cbn [andb]. rewrite (translation_section_lines t e Hedition), Htext.
    reflexivity.
  - by rewrite (format_verse_without_translation d a s (lit "arabic")).
  - intros Hmode.
    assert (bool_decide (mode ∈ [lit "arabic"; lit "both"]) = false) as Harabic.
    { apply bool_decide_eq_false_2. intros Hin. apply Hmode.
      rewrite !elem_of_cons in Hin. rewrite !elem_of_cons. tauto. }
    assert (bool_decide (mode ∈ [lit "translation"; lit "both"]) = false)
      as Htranslation.
    { apply bool_decide_eq_false_2. intros Hin. apply Hmode.
      rewrite !elem_of_cons in Hin. rewrite !elem_of_cons. tauto. }
    rewrite (format_verse_without_translation d a s mode); [|done..|].
    + unfold block. by rewrite Harabic.
    + by rewrite Htranslation.
Qed.

Lemma strings_of_app index lines1 lines2 strings1 :
  strings_of index lines1 = Return strings1 →
  strings_of index (lines1 ++ lines2)
  = rest ← strings_of (index + Z.of_nat (length lines1)) lines2;
    Return (strings1 ++ rest).
Proof.
  revert index strings1.
  induction lines1 as [|l lines1 IH]; intros index strings1.
  - intros [= <-]. cbn [app length]. rewrite Z.add_0_r.
    by destruct (strings_of index lines2).
  - destruct l; try done. cbn [strings_of app].
    destruct (strings_of (index + 1) lines1) as [rest1| |] eqn:Hrest; try done.
    intros [= <-]. rewrite (IH _ _ Hrest). cbn [length].
    replace (index + 1 + Z.of_nat (length lines1))
      with (index + Z.of_nat (S (length lines1))) by lia.
    by destruct (strings_of _ lines2).
Qed.

(** X14. The text of a translation is put in the block as it is, not
    through an f-string: a block with a translation section is returned
    when the text is a string, and [format_verse] raises the [TypeError]
    of [str.join] when it is anything else (a JSON [null], a number). *)
Theorem format_verse_translation_text d t edition mode :
  verse_record_shape (VDict d) →
  translation_of d = VDict t → t ≠ ∅ →
  edition_of t = VDict edition →
  mode ∈ [lit "translation"; lit "both"] →
  (∀ s, translation_text t = VStr s →
        ∃ out, format_verse (VDict d) mode = Return out)
  ∧ ((∀ s, translation_text t ≠ VStr s) →
     ∃ index,
       4 ≤ index ≤ 7
       ∧ format_verse (VDict d) mode
         = Raise (TypeError
                    (lit "sequence item " ++ str_of_int index
                       ++ lit ": expected str instance, "
                       ++ type_name (translation_text t) ++ lit " found"))).
Proof.
  intros Hshape Ht Hne Hedition Hmode.
  destruct (format_lines_with_translation d t edition mode)
    as (head & asec & loc & _ & _ & _ & Hlines & Hhead & Hasec & Hloc
        & Hlen_head & Hlen_asec); [done..|].
  split.
  - intros s Hs. apply (format_verse_plain _ _ _ Hlines).
    rewrite !Forall_app. split_and!; [done..| |done|].
    + rewrite Hs. repeat constructor; by eexists.
    + repeat constructor; by eexists.
  - intros Hnot.
    exists (Z.of_nat (length (head ++ asec)) + 1).
    split; [rewrite length_app; lia|].
    unfold format_verse. rewrite Hlines. cbn [mbind result_bind].
    unfold join_values.
    destruct (strings_of_strings 0 (head ++ asec)) as [strings Hstrings];
      [by apply Forall_app|].
    rewrite app_assoc, (strings_of_app _ _ _ _ Hstrings).
    cbn [app strings_of]. rewrite Z.add_0_l.
    destruct (translation_text t) as [|b|z|s|l|d'] eqn:Htext;
      try done. by destruct (Hnot s).
Qed.

(** X15. The formatter needs a dictionary for the Arabic payload: on a
    record whose Arabic payload is anything else (a string, [None], a
    list), [format_verse] raises [AttributeError] in every mode. *)
Theorem format_verse_arabic_not_dict d arabic mode :
  d !! lit "arabic" = Some arabic →
  (∀ a, arabic ≠ VDict a) →
  format_verse (VDict d) mode
  = Raise (AttributeError
             (lit "'" ++ type_name arabic
                ++ lit "' object has no attribute 'get'")).
Proof.
  intros Harabic Hnot.
  unfold format_verse, format_lines, header. cbn [get mbind result_bind].
  rewrite Harabic. cbn [from_option id].
  destruct arabic as [|b|z|s|l|a]; try done. by destruct (Hnot a).
Qed.

Lemma header_Return verse_data arabic head :
  header verse_data arabic = Return head →
  ∃ verse_key title,
    get verse_data (lit "verse_key") (VStr (lit "Unknown")) = Return verse_key
    ∧ head = [rule;
              VStr (lit "Verse: " ++ str_of_value verse_key ++ lit " | Surah: "
                      ++ title);
              rule].
Proof.
  unfold header.
  destruct (get verse_data _ _) as [verse_key| |]; [|done..].
  cbn [mbind result_bind].
  destruct (get arabic _ _) as [surah| |]; [|done..]. cbn [mbind result_bind].
  destruct (get surah (lit "englishName") _) as [surah_name| |]; [|done..].
  cbn [mbind result_bind].
  destruct (get surah (lit "name") _) as [surah_arabic| |]; [|done..].
  cbn [mbind result_bind]. intros [= <-]. by eexists _, _.
Qed.

(** Whatever block [format_lines] returns is between the header and the
    closing rule. *)
Lemma format_lines_Return verse_data mode lines :
  format_lines verse_data mode = Return lines →
  ∃ arabic head middle,
    get verse_data (lit "arabic") (VDict ∅) = Return arabic
    ∧ header verse_data arabic = Return head
    ∧ lines = head ++ middle ++ [footer].
Proof.
  unfold format_lines.
  destruct (get verse_data (lit "arabic") _) as [arabic| |] eqn:Harabic; [|done..].
  cbn [mbind result_bind].
  destruct (get verse_data (lit "translation") _) as [translation| |]; [|done..].
  cbn [mbind result_bind].
  destruct (header verse_data arabic) as [head| |] eqn:Hhead; [|done..].
  cbn [mbind result_bind].
  intros Hlines. exists arabic, head.
  destruct (bool_decide (mode ∈ [lit "arabic"; lit "both"]) && truthy arabic);
    [destruct (arabic_section arabic) as [s1| |]|];
    cbn [mbind result_bind] in Hlines; try discriminate Hlines.
  all: destruct (bool_decide (mode ∈ [lit "translation"; lit "both"])
                   && truthy translation);
    [destruct (translation_section translation) as [s2| |]|];
    cbn [mbind result_bind] in Hlines; try discriminate Hlines.
  all: destruct (truthy arabic);
    [destruct (location_section arabic) as [s3| |]|];
    cbn [mbind result_bind] in Hlines; try discriminate Hlines.
  all: injection Hlines as <-; unfold footer.
  - exists (s1 ++ s2 ++ s3). by rewrite <- !app_assoc.
  - exists (s1 ++ s2). by rewrite <- !app_assoc.
  - exists (s1 ++ s3). by rewrite <- !app_assoc.
  - exists s1. by rewrite <- !app_assoc.
  - exists (s2 ++ s3). by rewrite <- !app_assoc.
  - exists s2. by rewrite <- !app_assoc.
  - exists s3. by rewrite <- !app_assoc.
  - by exists [].
Qed.

Lemma Return_inj {A} (x y : A) : Return x = Return y → x = y.
Proof. by intros [= ->]. Qed.

Lemma join_cons sep x items :
  items ≠ [] → join sep (x :: items) = x ++ sep ++ join sep items.
Proof. by destruct items. Qed.

Lemma join_snoc sep items z :
  items ≠ [] → join sep (items ++ [z]) = join sep items ++ sep ++ z.
Proof.
  induction items as [|x items IH]; [done|]. intros _.
  destruct items as [|y items]; [done|].
  change ((x :: y :: items) ++ [z]) with (x :: ((y :: items) ++ [z])).
  rewrite join_cons by (by destruct items).
  rewrite IH by done. rewrite (join_cons sep x (y :: items)) by done.
  by rewrite <- !app_assoc.
Qed.

(** X16. The frame of a block. Whatever [format_verse] returns for a
    record made by [get_verse], in any mode, starts with the rule of sixty
    "=" and the line that names the reference of the record, and ends with
    an empty line and the rule. *)
Theorem format_verse_frame verse_key arabic translation mode out :
  format_verse (verse_record verse_key arabic translation) mode = Return out →
  ∃ body,
    out = times (lit "=") 60 ++ [0x0A%N]
            ++ lit "Verse: " ++ verse_key ++ lit " | Surah: " ++ body
            ++ [0x0A; 0x0A]%N ++ times (lit "=") 60.
Proof.
  unfold format_verse.
  destruct (format_lines _ mode) as [lines| |] eqn:Hlines; [|done..].
  cbn [mbind result_bind]. unfold join_values.
  destruct (strings_of 0 lines) as [strings| |] eqn:Hstrings; [|done..].
  cbn [mbind result_bind]. intros [= <-].
  apply format_lines_Return in Hlines
    as (arabic' & head & middle & _ & Hhead & ->).
  apply header_Return in Hhead as (key & title & Hkey & ->).
  unfold verse_record in Hkey. cbn [get] in Hkey.
  rewrite lookup_insert_eq in Hkey. injection Hkey as <-.
  cbn [str_of_value] in Hstrings. unfold rule in Hstrings.
  match type of Hstrings with
  | strings_of 0 ([?r; ?t; ?r'] ++ ?rest) = _ =>
      change ([r; t; r'] ++ rest) with (r :: t :: r' :: rest) in Hstrings
  end.
  cbn [strings_of] in Hstrings.
  destruct (strings_of (0 + 1 + 1 + 1) (middle ++ [footer]))
    as [rest| |] eqn:Hrest; [|done..].
  cbn [mbind result_bind] in Hstrings.
  apply Return_inj in Hstrings. subst strings.
  assert (∃ middle', rest = middle' ++ [[0x0A%N] ++ times (lit "=") 60])
    as [middle' ->].
  { clear -Hrest. revert rest Hrest. generalize (0 + 1 + 1 + 1).
    induction middle as [|l middle IH]; intros index rest.
    - cbn. intros [= <-]. by exists [].
    - destruct l; try done. cbn [app strings_of].
      destruct (strings_of (index + 1) (middle ++ [footer])) as [rest'| |] eqn:Hr;
        [|done..].
      intros [= <-]. destruct (IH _ _ Hr) as [middle' ->].
      by exists (s :: middle'). }
  exists (title ++ [0x0A%N] ++ join [0x0A%N] (times (lit "=") 60 :: middle')).
  rewrite join_cons by done. rewrite join_cons by done.
  change (times (lit "=") 60 :: middle' ++ [[0x0A%N] ++ times (lit "=") 60])
    with ((times (lit "=") 60 :: middle') ++ [[0x0A%N] ++ times (lit "=") 60]).
  rewrite join_snoc by done.
  rewrite <- !app_assoc. reflexivity.
Qed.

End MoreFormatter.

Lemma sample_translation_shape :
  translation_of (sample_fields sample_translation)
  = VDict sample_translation_fields
  ∧ sample_translation_fields ≠ ∅
  ∧ edition_of sample_translation_fields
    = VDict (<[lit "englishName" := VStr (lit "Saheeh International")]> ∅).
Proof.
  split_and!; [by vm_compute | | by vm_compute].
  intros H. apply (f_equal (λ m, m !! lit "text")) in H.
  vm_compute in H. discriminate H.
Qed.

Lemma format_verse_block_witness :
  format_verse (W := friendly_world)
    (VDict (sample_fields sample_translation)) (lit "both")
  = Return (join [0x0A%N]
      [ times (lit "=") 60;
        lit "Verse: 1:1 | Surah: Al-Faatiha (" ++ RLM
          ++ [0x633; 0x648; 0x631; 0x629]%N ++ lit ")";
        times (lit "=") 60;
        [0x0A%N] ++ lit " Arabic Text:";
        RLM ++ [0x628; 0x650; 0x633; 0x652; 0x645; 0x650]%N;
        detail ++ lit "Verse 1 in Surah";
        [0x0A%N] ++ lit " English Translation:";
        lit "In the name of Allah";
        detail ++ lit "Translation: Saheeh International";
        [0x0A%N] ++ lit " Location:";
        detail ++ lit "Juz (Para): 1";
        detail ++ lit "Page: 1";
        [0x0A%N] ++ times (lit "=") 60 ])
  ∧ format_verse (W := friendly_world)
      (VDict (sample_fields sample_translation)) (lit "arabic")
    = Return (join [0x0A%N]
        [ times (lit "=") 60;
          lit "Verse: 1:1 | Surah: Al-Faatiha (" ++ RLM
            ++ [0x633; 0x648; 0x631; 0x629]%N ++ lit ")";
          times (lit "=") 60;
          [0x0A%N] ++ lit " Arabic Text:";
          RLM ++ [0x628; 0x650; 0x633; 0x652; 0x645; 0x650]%N;
          detail ++ lit "Verse 1 in Surah";
          [0x0A%N] ++ lit " Location:";
          detail ++ lit "Juz (Para): 1";
          detail ++ lit "Page: 1";
          [0x0A%N] ++ times (lit "=") 60 ])
  ∧ format_verse (W := friendly_world)
      (VDict (sample_fields VNone)) (lit "translation")
    = Return (join [0x0A%N]
        [ times (lit "=") 60;
          lit "Verse: 1:1 | Surah: Al-Faatiha (" ++ RLM
            ++ [0x633; 0x648; 0x631; 0x629]%N ++ lit ")";
          times (lit "=") 60;
          [0x0A%N] ++ lit " Location:";
          detail ++ lit "Juz (Para): 1";
          detail ++ lit "Page: 1";
          [0x0A%N] ++ times (lit "=") 60 ])
  ∧ format_verse (W := friendly_world)
      (VDict (sample_fields sample_translation)) (lit "json")
    = Return (join [0x0A%N]
        [ times (lit "=") 60;
          lit "Verse: 1:1 | Surah: Al-Faatiha (" ++ RLM
            ++ [0x633; 0x648; 0x631; 0x629]%N ++ lit ")";
          times (lit "=") 60;
          [0x0A%N] ++ lit " Location:";
          detail ++ lit "Juz (Para): 1";
          detail ++ lit "Page: 1";
          [0x0A%N] ++ times (lit "=") 60 ]).
Proof.
  destruct sample_translation_shape as (Ht & Hne & Hedition).
  split_and!.
  - rewrite (proj1 (proj2 (format_verse_block (W := friendly_world)
               (sample_fields sample_translation) sample_ayah_fields sample_surah
               (lit "both") eq_refl eq_refl))
             sample_translation_fields (lit "In the name of Allah")
             (<[lit "englishName" := VStr (lit "Saheeh International")]> ∅)).
    + vm_compute. reflexivity.
    + apply list_elem_of_further, list_elem_of_here.
    + exact Ht.
    + exact Hne.
    + vm_compute. reflexivity.
    + exact Hedition.
  - rewrite (proj1 (format_verse_block (W := friendly_world)
               (sample_fields sample_translation) sample_ayah_fields sample_surah
               (lit "arabic") eq_refl eq_refl)).
    + vm_compute. reflexivity.
    + vm_compute. reflexivity.
  - rewrite (proj1 (format_verse_block (W := friendly_world)
               (sample_fields VNone) sample_ayah_fields sample_surah
               (lit "translation") eq_refl eq_refl)).
    + vm_compute. reflexivity.
    + vm_compute. reflexivity.
  - rewrite (proj2 (proj2 (proj2 (format_verse_block (W := friendly_world)
               (sample_fields sample_translation) sample_ayah_fields sample_surah
               (lit "json") eq_refl eq_refl)))).
    + vm_compute. reflexivity.
    + rewrite !not_elem_of_cons.
      split_and!; try apply not_elem_of_nil;
        intros H; vm_compute in H; discriminate H.
Defined.

Lemma null_translation_shape :
  translation_of (sample_fields (VDict null_translation_fields))
  = VDict null_translation_fields
  ∧ null_translation_fields ≠ ∅
  ∧ edition_of null_translation_fields = VDict ∅.
Proof.
  split_and!; [by vm_compute | | by vm_compute].
  intros H. apply (f_equal (λ m, m !! lit "text")) in H.
  vm_compute in H. discriminate H.
Qed.

Lemma format_verse_translation_text_witness :
  (∃ out,
     format_verse (W := friendly_world)
       (VDict (sample_fields sample_translation)) (lit "both") = Return out)
  ∧ (∃ index,
       format_verse (W := friendly_world)
         (VDict (sample_fields (VDict null_translation_fields)))
         (lit "translation")
       = Raise (TypeError
                  (lit "sequence item " ++ str_of_int index
                     ++ lit ": expected str instance, NoneType found"))).
Proof.
  split.
  - destruct sample_translation_shape as (Ht & Hne & Hedition).
    destruct (format_verse_translation_text (W := friendly_world)
                (sample_fields sample_translation) sample_translation_fields
                (<[lit "englishName" := VStr (lit "Saheeh International")]> ∅)
                (lit "both") (sample_fields_shape sample_translation)
                Ht Hne Hedition) as [Hstr _].
    + apply list_elem_of_further, list_elem_of_here.
    + by apply (Hstr (lit "In the name of Allah")).
  - destruct null_translation_shape as (Ht & Hne & Hedition).
    destruct (format_verse_translation_text (W := friendly_world)
                (sample_fields (VDict null_translation_fields))
                null_translation_fields ∅ (lit "translation")
                (sample_fields_shape (VDict null_translation_fields))
                Ht Hne Hedition) as [_ Hnot].
    + apply list_elem_of_here.
    + destruct Hnot as (index & _ & Hraise); [by vm_compute|].
      by exists index.
Defined.

Lemma format_verse_arabic_not_dict_witness :
  format_verse (W := friendly_world)
    (verse_record (lit "1:1") (VStr (lit "Invalid reference")) VNone) (lit "both")
  = Raise (AttributeError (lit "'str' object has no attribute 'get'")).
Proof.
  apply (format_verse_arabic_not_dict (W := friendly_world) _
           (VStr (lit "Invalid reference")) (lit "both")); by vm_compute.
Defined.

Lemma format_verse_frame_witness :
  ∃ out body,
    format_verse (W := friendly_world)
      (verse_record (lit "1:1") sample_ayah sample_translation) (lit "both")
    = Return out
    ∧ out = times (lit "=") 60 ++ [0x0A%N]
              ++ lit "Verse: " ++ lit "1:1" ++ lit " | Surah: " ++ body
              ++ [0x0A; 0x0A]%N ++ times (lit "=") 60.
Proof.
  destruct (format_verse (W := friendly_world)
              (verse_record (lit "1:1") sample_ayah sample_translation)
              (lit "both")) as [out| |] eqn:Hout; [|by vm_compute in Hout..].
  destruct (format_verse_frame (W := friendly_world) _ _ _ _ _ Hout)
    as [body Hbody].
  exists out, body. split; [reflexivity | exact Hbody].
Defined.

(** ** More about [OutputFormatter.save_to_file] *)

Section MoreSaving.

Context {W : World}.

Implicit Types (σ : state) (content filename bytes : list N) (e : exn).

(** What [save_to_file] does to the world, however it ends. *)
Lemma save_to_file_state content filename σ :
  ∃ r σ',
    save_to_file content filename σ = (r, σ')
    ∧ no_exit r
    ∧ stdout σ' = stdout σ ∧ requested σ' = requested σ
    ∧ (files σ' = files σ ∧ os_open filename ≠ None
       ∨ files σ' = <[filename := []]> (files σ) ∧ os_open filename = None
       ∨ ∃ bytes, utf8_encode content = Some bytes
                  ∧ os_open filename = None
                  ∧ files σ' = <[filename := bytes]> (<[filename := []]> (files σ))).
Proof.
  unfold save_to_file, try_except, with_open_w, closing, open_w, write, close,
    mbind, M_bind, mret, M_ret, print_stderr.
  destruct (os_open filename) as [e|] eqn:Hopen.
  { destruct (is_IOError e); eexists _, _;
      (split; [reflexivity|]); split_and!; try done; by left. }
  destruct (utf8_encode content) as [bytes|] eqn:Hutf8.
  - destruct (os_write filename bytes) as [e|] eqn:Hwrite.
    + destruct (os_close filename) as [e'|] eqn:Hclose.
      * destruct (is_IOError e'); eexists _, _;
          (split; [reflexivity|]); split_and!; try done; right; by left.
      * destruct (is_IOError e); eexists _, _;
          (split; [reflexivity|]); split_and!; try done; right; by left.
    + destruct (os_close filename) as [e'|] eqn:Hclose.
      * destruct (is_IOError e'); eexists _, _;
          (split; [reflexivity|]); split_and!; try done;
          right; right; by exists bytes.
      * eexists _, _. split; [reflexivity|]. split_and!; try done.
        right; right. by exists bytes.
  - destruct (os_close filename) as [e'|] eqn:Hclose.
    + destruct (is_IOError e'); eexists _, _;
        (split; [reflexivity|]); split_and!; try done; right; by left.
    + eexists _, _. split; [reflexivity|]. split_and!; try done.
      right; by left.
Qed.

(** X18. However [save_to_file] ends, it prints nothing on the standard
    output, sends no request and leaves every other file alone. When the
    file cannot be opened, no file changes. Once it is opened, its former
    content is lost, even when the save fails afterwards: the file is
    empty, or holds the UTF-8 encoding of the content. *)
Theorem save_to_file_effects content filename σ :
  ∃ r σ',
    save_to_file content filename σ = (r, σ')
    ∧ no_exit r
    ∧ stdout σ' = stdout σ ∧ requested σ' = requested σ
    ∧ (∀ other, other ≠ filename → files σ' !! other = files σ !! other)
    ∧ (os_open filename ≠ None → files σ' = files σ)
    ∧ (os_open filename = None →
       files σ' !! filename = Some []
       ∨ ∃ bytes, utf8_encode content = Some bytes
                  ∧ files σ' !! filename = Some bytes).
Proof.
  destruct (save_to_file_state content filename σ)
    as (r & σ' & Hsave & Hexit & Hout & Hreq & Hfiles).
  exists r, σ'. split_and!; [done..| | |].
  - intros other Hother.
    destruct Hfiles as [[-> _] | [[-> _] | (bytes & _ & _ & ->)]];
      [done | by rewrite lookup_insert_ne | by rewrite !lookup_insert_ne].
  - intros Hopen.
    destruct Hfiles as [[-> _] | [[_ ?] | (bytes & _ & ? & _)]]; done.
  - intros Hopen.
    destruct Hfiles as [[_ ?] | [[-> _] | (bytes & ? & _ & ->)]]; [done| |].
    + left. by rewrite lookup_insert_eq.
    + right. exists bytes. split; [done|]. by rewrite lookup_insert_eq.
Qed.

End MoreSaving.

(** ** More about [main] *)

Section MoreMain.

Context {W : World}.

Implicit Types (σ : state) (e : exn) (args : Namespace.t).

(** Printing a list line by line, on a standard output that accepts
    everything. *)
Lemma print_each {A} (f : A → list N) (items : list A) σ :
  (∀ line, stdout_write line = None) →
  foldr (λ item rest, print (f item);; rest) (mret ()) items σ
  = (Return (),
     State (stdout σ ++ (f <$> items)) (stderr σ) (requested σ) (files σ)).
Proof.
  intros Hout. revert σ. induction items as [|item items IH]; intros σ.
  - cbn [foldr fmap list_fmap]. rewrite app_nil_r. by destruct σ.
  - cbn [foldr fmap list_fmap]. unfold mbind, M_bind. unfold print at 1.
    rewrite Hout, IH. cbn [stdout stderr requested files].
    by rewrite <- app_assoc.
Qed.

(** X19. With [--list-translations], [main] prints the heading and the
    eight keys of the catalogue, in the order of the catalogue, and
    returns: whatever the other arguments are, it validates nothing, sends
    no request and prints nothing on the standard error stream. *)
Theorem main_lists_translations (run_interactive_mode : M unit) args σ :
  Namespace.list_translations args = true →
  (∀ line, stdout_write line = None) →
  main run_interactive_mode args σ
  = (Return (),
     State (stdout σ ++ [lit "Available translations:";
                         lit "  - sahih"; lit "  - pickthall";
                         lit "  - yusufali"; lit "  - asad";
                         lit "  - hilali"; lit "  - shakir";
                         lit "  - wahiduddin"; lit "  - clearquran"])
           (stderr σ) (requested σ) (files σ)).
Proof.
  intros Hlist Hout. unfold main. rewrite Hlist. cbv zeta.
  unfold mbind at 1, M_bind at 1, print at 1. rewrite Hout.
  rewrite print_each by done. cbn [stdout stderr requested files].
  rewrite <- app_assoc. reflexivity.
Qed.

Lemma asked_requested args chapter verse σ σ1 σ2 :
  requested σ2 = requested σ1 →
  asked args chapter verse σ σ1 → asked args chapter verse σ σ2.
Proof. unfold asked. by intros ->. Qed.

(** The body of the [try] statement asks for the verse it has validated,
    and for nothing else. *)
Lemma one_shot_asked args reference chapter verse σ :
  validate_input reference = Return (chapter, verse) →
  asked args chapter verse σ (one_shot args reference σ).2.
Proof.
  intros Hvalid. unfold one_shot. unfold mbind at 1, M_bind at 1, lift at 1.
  rewrite Hvalid. cbv zeta. fold (translation_wanted args).
  fold (fetching chapter verse).
  unfold mbind at 1, M_bind at 1. cbn [print_stderr].
  fold (warned (fetching chapter verse) σ).
  unfold mbind at 1, M_bind at 1.
  pose proof (get_verse_state chapter verse (translation_wanted args)
                (warned (fetching chapter verse) σ)) as Hstate.
  destruct (get_verse chapter verse (translation_wanted args)
              (warned (fetching chapter verse) σ)) as [r σ2].
  cbn [snd] in Hstate.
  assert (asked args chapter verse σ σ2) as Hasked.
  { destruct Hstate as [-> | (key & Hkey & Hne & [-> | [warning ->]])];
      [by left|right; exists key; cbn; by rewrite <- app_assoc..]. }
  destruct r as [verse_data|e|code]; [|done..].
  unfold mbind at 1, M_bind at 1, lift at 1.
  destruct (format_verse verse_data (Namespace.format args))
    as [formatted_output|e|code]; [|done..].
  destruct (Namespace.output args) as [[|p path]|].
  1,3: unfold print; by destruct (stdout_write formatted_output).
  unfold mbind at 1, M_bind at 1.
  destruct (save_to_file_state formatted_output (p :: path) σ2)
    as (r & σ3 & -> & _ & _ & Hreq & _).
  assert (asked args chapter verse σ σ3) by by eapply asked_requested.
  by destruct r as [[|]|e|code].
Qed.

(** A report changes nothing but the standard error stream. *)
Lemma try_except_report_requested (body : M unit) σ :
  requested (try_except body report σ).2 = requested (body σ).2.
Proof.
  unfold try_except. destruct (body σ) as [[[]|e|code] σ1]; [done| |done].
  by destruct (report_total e σ1) as (h & line & after & -> & -> & _).
Qed.

(** X21. What a one-shot run asks the server. For a reference that
    [validate_input] accepts, [main] has sent, however it ends, the
    request for the Arabic text of that reference and after it at most the
    request for the edition of the translation it wants (none in format
    "arabic"); without a reference, or with a reference that
    [validate_input] refuses, it has sent no request at all. *)
Theorem main_requests (run_interactive_mode : M unit) args σ :
  Namespace.list_translations args = false →
  Namespace.interactive args = false →
  (∀ reference chapter verse,
     Namespace.verse args = Some reference →
     validate_input reference = Return (chapter, verse) →
     asked args chapter verse σ (main run_interactive_mode args σ).2)
  ∧ (Namespace.verse args = None
     ∨ (∃ reference e, Namespace.verse args = Some reference
                       ∧ validate_input reference = Raise e) →
     requested (main run_interactive_mode args σ).2 = requested σ).
Proof.
  intros Hlist Hinteractive. unfold main. rewrite Hlist, Hinteractive. split.
  - intros reference chapter verse -> Hvalid.
    destruct reference as [|c reference]; [done|].
    eapply asked_requested; [apply try_except_report_requested|].
    by apply one_shot_asked.
  - intros [-> | (reference & e & -> & Hraise)]; [done|].
    destruct reference as [|c reference]; [done|].
    rewrite try_except_report_requested.
    unfold one_shot, mbind at 1, M_bind at 1, lift at 1. by rewrite Hraise.
Qed.

(** X22. How [main] reports a failed fetch. When [get_verse] raises for a
    valid reference, [main] exits with status 1 after printing, on the
    standard error stream only, the lines of the class of the exception:
    a [ValueError] (an error the API reports, a body that is no JSON) goes
    under "Input Error", a [RequestException] under "Network Error", and
    what is left under "Unexpected Error". Nothing is printed on the
    standard output and no file is written. *)
Theorem main_reports_fetch_failure
    (run_interactive_mode : M unit) args c reference chapter verse e σ σ2 :
  Namespace.list_translations args = false →
  Namespace.interactive args = false →
  Namespace.verse args = Some (c :: reference) →
  validate_input (c :: reference) = Return (chapter, verse) →
  get_verse chapter verse (translation_wanted args)
    (warned (fetching chapter verse) σ) = (Raise e, σ2) →
  ∃ lines,
    main run_interactive_mode args σ
    = (Exit 1, State (stdout σ) (stderr σ2 ++ lines) (requested σ2) (files σ))
    ∧ (is_ValueError e = true →
       lines = [lit "Input Error: " ++ str_of_exn e;
                lit "Use --help for usage information."])
    ∧ (is_ValueError e = false → is_RequestException e = true →
       lines = [lit "Network Error: " ++ str_of_exn e;
                lit "Please check your internet connection and try again."])
    ∧ (is_KeyboardInterrupt e = true →
       lines = [[0x0A%N] ++ lit "Operation cancelled by user."])
    ∧ (is_ValueError e = false → is_RequestException e = false →
       is_KeyboardInterrupt e = false →
       lines = [lit "Unexpected Error: " ++ str_of_exn e;
                lit "Please try again or report this issue."]).
Proof.
  intros Hlist Hinteractive Hverse Hvalid Hfetch.
  destruct (quiet_get_verse chapter verse (translation_wanted args)
              (warned (fetching chapter verse) σ)) as [_ (Hout & Hfiles & _)].
  rewrite Hfetch in Hout, Hfiles. cbn [snd warned stdout files] in Hout, Hfiles.
  unfold main. rewrite Hlist, Hinteractive, Hverse.
  unfold try_except, one_shot. unfold mbind at 1, M_bind at 1, lift at 1.
  rewrite Hvalid. cbv zeta. fold (translation_wanted args).
  fold (fetching chapter verse).
  unfold mbind at 1, M_bind at 1. cbn [print_stderr].
  fold (warned (fetching chapter verse) σ).
  unfold mbind at 1, M_bind at 1. rewrite Hfetch.
  unfold report.
  destruct (is_ValueError e) eqn:H1;
    [|destruct (is_RequestException e) eqn:H2;
      [|destruct (is_KeyboardInterrupt e) eqn:H3;
        [|destruct (is_Exception e) eqn:H4]]];
    unfold mbind, M_bind, print_stderr, sys_exit, lift;
    cbn [stdout stderr requested files]; rewrite ?Hout, ?Hfiles.
  - eexists. split; [by rewrite <- app_assoc|].
    split_and!; try done. intros H3. by destruct e.
  - eexists. split; [by rewrite <- app_assoc|].
    split_and!; try done. intros H3. by destruct e.
  - eexists. split; [reflexivity|]. split_and!; done.
  - eexists. split; [by rewrite <- app_assoc|]. split_and!; done.
  - by destruct e.
Qed.

End MoreMain.

Lemma main_lists_translations_witness :
  main (W := friendly_world) (mret ()) list_args initial
  = (Return (),
     State [lit "Available translations:";
            lit "  - sahih"; lit "  - pickthall"; lit "  - yusufali";
            lit "  - asad"; lit "  - hilali"; lit "  - shakir";
            lit "  - wahiduddin"; lit "  - clearquran"]
       [] [] ∅).
Proof.
  apply (main_lists_translations (W := friendly_world) (mret ()) list_args initial);
    [reflexivity | intros line; reflexivity].
Defined.

Lemma main_reports_invalid_reference_witness :
  main (W := friendly_world) (mret ()) invalid_args initial
  = (Exit 1,
     warned (lit "Use --help for usage information.")
       (warned (lit "Input Error: "
                  ++ str_of_exn (ChapterRangeError 115)) initial)).
Proof.
  apply (main_reports_invalid_reference (W := friendly_world) (mret ())
           invalid_args 0x31%N (lit "15:1") (ChapterRangeError 115) initial);
    [reflexivity | reflexivity | reflexivity | by vm_compute].
Defined.

Lemma main_requests_witness :
  asked sample_args 1 1 initial
    (main (W := friendly_world) (mret ()) sample_args initial).2
  ∧ requested (main (W := friendly_world) (mret ()) invalid_args initial).2 = [].
Proof.
  split.
  - apply (proj1 (main_requests (W := friendly_world) (mret ()) sample_args
                    initial eq_refl eq_refl) (lit "1:1") 1 1);
      [reflexivity | by vm_compute].
  - apply (proj2 (main_requests (W := friendly_world) (mret ()) invalid_args
                    initial eq_refl eq_refl)).
    right. exists (lit "115:1"), (ChapterRangeError 115).
    split; [reflexivity | by vm_compute].
Defined.

Lemma main_reports_fetch_failure_witness :
  main (W := refusing_world) (mret ()) sample_args initial
  = (Exit 1,
     State [] [fetching 1 1; lit "Input Error: API Error: Bad Request";
               lit "Use --help for usage information."]
       [arabic_url 1 1] ∅).
Proof.
  destruct (main_reports_fetch_failure (W := refusing_world) (mret ())
              sample_args 0x31%N (lit ":1") 1 1
              (ValueError (lit "API Error: Bad Request")) initial
              (sent (arabic_url 1 1) (warned (fetching 1 1) initial)))
    as (lines & Hmain & Hvalue & _);
    [reflexivity | reflexivity | reflexivity | by vm_compute | by vm_compute |].
  rewrite Hmain, (Hvalue eq_refl). reflexivity.
Defined.

(** ** [run_interactive_mode] *)

Section InteractiveMode.

Context {W : World}.

Implicit Types (κ : console) (σ : state) (e : exn) (line prompt : list N).

(** *** Steps *)

Lemma run_print line κ :
  stdout_write line = None → run (print line) κ = (Return (), printed [line] κ).
Proof. intros Hout. unfold run, print. by rewrite Hout. Qed.

Lemma bind_print {A} line (k : IO A) κ :
  stdout_write line = None →
  (run (print line);; k) κ = k (printed [line] κ).
Proof. intros Hout. unfold mbind, IO_bind. by rewrite run_print. Qed.

Lemma bind_input {A} prompt (k : list N → IO A) κ line rest :
  stdin κ = Done line :: rest →
  (input prompt ≫= k) κ = k line (answered prompt κ).
Proof.
  intros Hin. unfold mbind, IO_bind, input, answered. by rewrite Hin.
Qed.

Lemma bind_input_Failed {A} prompt (k : list N → IO A) κ e rest :
  stdin κ = Failed e :: rest →
  (input prompt ≫= k) κ = (Raise e, answered prompt κ).
Proof.
  intros Hin. unfold mbind, IO_bind, input, answered. by rewrite Hin.
Qed.

Lemma bind_input_eof {A} prompt (k : list N → IO A) κ :
  stdin κ = [] →
  (input prompt ≫= k) κ
  = (Raise (OtherException (lit "EOF when reading a line")), answered prompt κ).
Proof.
  intros Hin. unfold mbind, IO_bind, input, answered. by rewrite Hin.
Qed.

Lemma printed_printed lines1 lines2 κ :
  printed lines2 (printed lines1 κ) = printed (lines1 ++ lines2) κ.
Proof. unfold printed. cbn. by rewrite <- app_assoc. Qed.

(** The banner, on a standard output that accepts it. *)
Lemma banner_printed κ :
  (∀ l, stdout_write l = None) →
  banner κ = (Return (), printed banner_lines κ).
Proof.
  intros Hout. unfold banner. rewrite !bind_print, run_print by done.
  by rewrite !printed_printed.
Qed.

(** The body up to the first [input]. *)
Lemma body_instructions κ :
  (∀ l, stdout_write l = None) →
  body κ
  = (line ← input verse_prompt;
     let user_input := strip line in
     if lower_in user_input [lit "quit"; lit "exit"; lit "q"] then
       run (print farewell);;
       mret Break
     else if lower_is user_input (lit "list") then
       let translations := get_available_translations in
       run (print ([0x0A%N] ++ lit " Available translations:"));;
       foldr (λ trans rest, run (print (lit "  - " ++ trans));; rest)
         (mret ()) translations;;
       run (print []);;
       mret Continue
     else if lower_is user_input (lit "help") then
       run (print ([0x0A%N] ++ lit " Examples:"));;
       run (print (lit "  2:255     - Ayat al-Kursi"));;
       run (print (lit "  1:1       - Al-Fatiha, verse 1"));;
       run (print (lit "  3:10      - Surah Al-Imran, verse 10"));;
       run (print (lit "  18:65     - Surah Al-Kahf, verse 65"));;
       run (print []);;
       mret Continue
     else
       match validate_input user_input with
       | Return (chapter, verse) => fetch_and_show chapter verse
       | Raise e =>
           if is_ValueError e then
             run (print (lit " Error: " ++ str_of_exn e));;
             run (print (lit "Please use format 'chapter:verse' (e.g., '2:255')"
                           ++ [0x0A%N]));;
             mret Continue
           else run (raise e)
       | Exit code => run (sys_exit code)
       end) (printed instructions κ).
Proof.
  intros Hout. unfold body. rewrite !bind_print by done.
  by rewrite printed_printed.
Qed.

(** X23. Leaving at once. With [quit], [exit] or [q] as the first
    answer (in any case, with white space around it), on a standard output
    that accepts everything, [run_interactive_mode] prints the banner, the
    two lines of instructions and the farewell, and returns: it has read
    one line, sent no request and written nothing else. *)
Theorem interactive_quit fuel κ line rest :
  (∀ l, stdout_write l = None) →
  stdin κ = Done line :: rest →
  lower_in (strip line) [lit "quit"; lit "exit"; lit "q"] = true →
  run_interactive_mode (S fuel) κ
  = Some (Return (),
          printed [farewell]
            (answered verse_prompt (printed (banner_lines ++ instructions) κ))).
Proof.
  intros Hout Hin Hquit. unfold run_interactive_mode.
  rewrite banner_printed by done. cbn [loop]. unfold iteration, try_io.
  rewrite body_instructions by done.
  rewrite (bind_input _ _ _ line rest) by exact Hin.
  cbv zeta. rewrite Hquit. rewrite bind_print by done.
  by rewrite printed_printed.
Qed.

(** X28. An interruption at the first prompt ends the session as [quit]
    does: the farewell is printed (after one more empty line) and
    [run_interactive_mode] returns. *)
Theorem interactive_interrupt fuel κ e rest :
  (∀ l, stdout_write l = None) →
  stdin κ = Failed e :: rest →
  is_KeyboardInterrupt e = true →
  run_interactive_mode (S fuel) κ
  = Some (Return (),
          printed [[0x0A%N] ++ farewell]
            (answered verse_prompt (printed (banner_lines ++ instructions) κ))).
Proof.
  intros Hout Hin He. unfold run_interactive_mode.
  rewrite banner_printed by done. cbn [loop]. unfold iteration, try_io.
  rewrite body_instructions by done.
  rewrite (bind_input_Failed _ _ _ e rest) by exact Hin.
  unfold recover. rewrite He. rewrite bind_print by done.
  by rewrite printed_printed.
Qed.

(** A turn of the loop on an exhausted standard input. *)
Lemma iteration_eof κ :
  (∀ l, stdout_write l = None) →
  stdin κ = [] →
  iteration κ
  = (Return Continue,
     printed [lit " An error occurred: EOF when reading a line";
              lit "Please try again." ++ [0x0A%N]]
       (answered verse_prompt (printed instructions κ))).
Proof.
  intros Hout Hin. unfold iteration, try_io.
  rewrite body_instructions by done.
  rewrite bind_input_eof by exact Hin.
  unfold recover. cbn [is_KeyboardInterrupt is_Exception].
  rewrite !bind_print by done. cbn [str_of_exn].
  by rewrite printed_printed.
Qed.

(** X27. At the end of the standard input the loop does not stop:
    [input] raises [EOFError], the loop reports it as an error and asks
    again. On an exhausted standard input, with a standard output that
    accepts everything, [run_interactive_mode] is still running after any
    number of turns. *)
Theorem interactive_never_ends_at_eof fuel κ :
  (∀ l, stdout_write l = None) →
  stdin κ = [] →
  run_interactive_mode fuel κ = None.
Proof.
  intros Hout Hin. unfold run_interactive_mode.
  rewrite banner_printed by done.
  assert (stdin (printed banner_lines κ) = []) as Hin' by exact Hin.
  revert Hin'. generalize (printed banner_lines κ). clear κ Hin.
  induction fuel as [|fuel IH]; intros κ Hin; [done|].
  cbn [loop]. rewrite iteration_eof by done. apply IH.
  cbn. by rewrite Hin.
Qed.

(** X24. A reference that [validate_input] refuses costs one turn and
    nothing else: the loop prints the message of the validator after
    " Error: " and a reminder of the format, sends no request and goes on
    with the next turn. *)
Theorem iteration_rejects_invalid_reference κ line rest e :
  (∀ l, stdout_write l = None) →
  stdin κ = Done line :: rest →
  is_command (strip line) = false →
  validate_input (strip line) = Raise e →
  iteration κ
  = (Return Continue,
     printed [lit " Error: " ++ str_of_exn e;
              lit "Please use format 'chapter:verse' (e.g., '2:255')" ++ [0x0A%N]]
       (answered verse_prompt (printed instructions κ))).
Proof.
  intros Hout Hin Hcommand Hraise.
  unfold is_command in Hcommand.
  apply orb_false_elim in Hcommand as [[Hquit Hlist]%orb_false_elim Hhelp].
  unfold iteration, try_io. rewrite body_instructions by done.
  rewrite (bind_input _ _ _ line rest) by exact Hin.
  cbv zeta. rewrite Hquit, Hlist, Hhelp, Hraise.
  rewrite (validate_input_raises_ValueError _ _ Hraise).
  rewrite !bind_print by done.
  by rewrite printed_printed.
Qed.

(** *** What a session leaves alone *)

Lemma calm_refl κ : calm κ κ.
Proof. split; [done|]. exists []. by rewrite app_nil_r. Qed.

Lemma calm_trans κ1 κ2 κ3 : calm κ1 κ2 → calm κ2 κ3 → calm κ1 κ3.
Proof.
  intros [Hf1 (l1 & He1 & Hw1)] [Hf2 (l2 & He2 & Hw2)].
  split; [congruence|]. exists (l1 ++ l2).
  split; [by rewrite He2, He1, <- app_assoc | by apply Forall_app].
Qed.

Lemma well_behaved_ret {A} (a : A) : well_behaved (mret a).
Proof. intros κ. split; [done | apply calm_refl]. Qed.

Lemma well_behaved_bind {A B} (m : IO A) (f : A → IO B) :
  well_behaved m → (∀ a, well_behaved (f a)) → well_behaved (m ≫= f).
Proof.
  intros Hm Hf κ. unfold mbind, IO_bind. destruct (Hm κ) as [Hexit Hcalm].
  destruct (m κ) as [[a|e|code] κ1]; cbn [fst snd] in *.
  - destruct (Hf a κ1) as [? ?]. split; [done|]. by eapply calm_trans.
  - done.
  - by destruct (Hexit code).
Qed.

Lemma well_behaved_try_io {A} (body : IO A) handler :
  well_behaved body → (∀ e h, handler e = Some h → well_behaved h) →
  well_behaved (try_io body handler).
Proof.
  intros Hbody Hhandler κ. unfold try_io. destruct (Hbody κ) as [Hexit Hcalm].
  destruct (body κ) as [[a|e|code] κ1]; cbn [fst snd] in *; [done| |done].
  destruct (handler e) as [h|] eqn:Hh; [|done].
  destruct (Hhandler e h Hh κ1) as [? ?]. split; [done|]. by eapply calm_trans.
Qed.

Lemma well_behaved_run {A} (m : M A) : mild m → well_behaved (run m).
Proof.
  intros Hm κ. unfold run. destruct (Hm (world κ)) as (Hexit & Hfiles & Herr).
  by destruct (m (world κ)) as [r σ].
Qed.

Lemma calm_world κ κ' : world κ' = world κ → calm κ κ'.
Proof.
  intros Hworld. unfold calm. rewrite Hworld. split; [done|].
  exists []. by rewrite app_nil_r.
Qed.

Lemma well_behaved_input prompt : well_behaved (input prompt).
Proof.
  intros κ. unfold input.
  destruct (stdin κ) as [|[line|e] rest]; (split; [done | by apply calm_world]).
Qed.

Lemma mild_print line : mild (print line).
Proof.
  intros σ. unfold print. destruct (stdout_write line); cbn;
    (split_and!; [done..|]); exists []; by rewrite app_nil_r.
Qed.

Lemma mild_lift {A} (r : result A) : no_exit r → mild (lift r).
Proof.
  intros Hr σ. split_and!; [done..|]. exists []. by rewrite app_nil_r.
Qed.

Lemma mild_get_verse chapter verse translation :
  mild (get_verse chapter verse translation).
Proof.
  intros σ.
  destruct (quiet_get_verse chapter verse translation σ)
    as [Hexit (_ & Hfiles & _)].
  split_and!; [done..|].
  destruct (get_verse_state chapter verse translation σ)
    as [-> | (key & _ & _ & [-> | [warning ->]])].
  - exists []. by rewrite app_nil_r.
  - exists []. by rewrite app_nil_r.
  - exists [lit "Warning: " ++ warning]. split; [done|].
    apply Forall_singleton. by exists warning.
Qed.

Lemma well_behaved_print line : well_behaved (run (print line)).
Proof. apply well_behaved_run, mild_print. Qed.

Lemma well_behaved_print_each {A} (f : A → list N) (items : list A) :
  well_behaved (foldr (λ item rest, run (print (f item));; rest) (mret ()) items).
Proof.
  induction items as [|item items IH]; [apply well_behaved_ret|].
  cbn [foldr]. apply well_behaved_bind; [apply well_behaved_print | done].
Qed.

#[local] Ltac well_behaved_steps :=
  repeat first
    [ apply well_behaved_ret
    | apply well_behaved_print
    | apply well_behaved_input
    | apply well_behaved_print_each
    | apply well_behaved_bind; [|intros ?]
    | match goal with
      | |- well_behaved (if ?b then _ else _) => destruct b
      end ].

Lemma well_behaved_fetch_and_show chapter verse :
  well_behaved (fetch_and_show chapter verse).
Proof.
  unfold fetch_and_show. cbv zeta. well_behaved_steps.
  - apply well_behaved_run, mild_get_verse.
  - apply well_behaved_run, mild_lift, no_exit_format_verse.
Qed.

Lemma well_behaved_body : well_behaved body.
Proof.
  unfold body.
  do 2 (apply well_behaved_bind; [apply well_behaved_print | intros _]).
  apply well_behaved_bind; [apply well_behaved_input | intros line]. cbv zeta.
  destruct (lower_in _ _); [well_behaved_steps|].
  destruct (lower_is _ (lit "list")); [well_behaved_steps|].
  destruct (lower_is _ (lit "help")); [well_behaved_steps|].
  pose proof (no_exit_validate_input (strip line)) as Hvalid.
  destruct (validate_input (strip line)) as [[chapter verse]|e|code].
  - apply well_behaved_fetch_and_show.
  - well_behaved_steps. by apply well_behaved_run, mild_lift.
  - by destruct (Hvalid code).
Qed.

Lemma well_behaved_iteration : well_behaved iteration.
Proof.
  unfold iteration. apply well_behaved_try_io; [apply well_behaved_body|].
  intros e h Hh. unfold recover in Hh.
  destruct (is_KeyboardInterrupt e);
    [injection Hh as <-; well_behaved_steps|].
  destruct (is_Exception e); [injection Hh as <-; well_behaved_steps|done].
Qed.

(** No failure ends the session: on a standard output that accepts
    everything, a turn of the loop ends with [continue] or [break]. *)
Lemma iteration_returns κ :
  (∀ l, stdout_write l = None) →
  ∃ c κ', iteration κ = (Return c, κ').
Proof.
  intros Hout. unfold iteration, try_io.
  destruct (well_behaved_body κ) as [Hexit _].
  destruct (body κ) as [[c|e|code] κ1]; cbn [fst] in Hexit;
    [by eexists _, _| |by destruct (Hexit code)].
  unfold recover. destruct (is_KeyboardInterrupt e) eqn:He.
  - rewrite bind_print by done. by eexists _, _.
  - assert (is_Exception e = true) as -> by by destruct e.
    rewrite !bind_print by done. by eexists _, _.
Qed.

(** X26. A session that ends, ends well. On a standard output that
    accepts everything, whatever is typed and whatever the server does,
    [run_interactive_mode] ends by returning only: no exception leaves it
    and it does not exit; it has written no file, and nothing on the
    standard error stream but warnings of [get_verse]. *)
Theorem interactive_session_ends_well fuel κ r κ' :
  (∀ l, stdout_write l = None) →
  run_interactive_mode fuel κ = Some (r, κ') →
  r = Return ()
  ∧ files (world κ') = files (world κ)
  ∧ ∃ lines, stderr (world κ') = stderr (world κ) ++ lines
             ∧ Forall warning_line lines.
Proof.
  intros Hout. unfold run_interactive_mode. rewrite banner_printed by done.
  assert (calm κ (printed banner_lines κ)) as Hbanner.
  { split; [done|]. exists []. by rewrite app_nil_r. }
  revert Hbanner. generalize (printed banner_lines κ) as κ1.
  induction fuel as [|fuel IH]; intros κ1 Hcalm Hloop; [done|].
  cbn [loop] in Hloop.
  destruct (iteration_returns κ1 Hout) as (c & κ2 & Hturn).
  pose proof (well_behaved_iteration κ1) as [_ Hcalm2].
  rewrite Hturn in Hloop, Hcalm2. cbn [snd] in Hcalm2.
  assert (calm κ κ2) as Hcalm' by by eapply calm_trans.
  destruct c.
  - by apply (IH κ2).
  - injection Hloop as <- <-. by destruct Hcalm' as [? ?].
Qed.

(** *** What a session asks the server *)

Lemma sends_bind_l {A B} (Q : list (list N) → list (list N) → Prop)
    (m : IO A) (f : A → IO B) :
  (∀ l, Q l l) → keeps_requests m → (∀ a, sends Q (f a)) → sends Q (m ≫= f).
Proof.
  intros HQ Hm Hf κ. unfold mbind, IO_bind. specialize (Hm κ).
  destruct (m κ) as [[a|e|code] κ1]; cbn [snd] in *.
  - specialize (Hf a κ1). by rewrite Hm in Hf.
  - rewrite Hm. apply HQ.
  - rewrite Hm. apply HQ.
Qed.

Lemma keeps_requests_sends {A} (Q : list (list N) → list (list N) → Prop) (m : IO A) :
  (∀ l, Q l l) → keeps_requests m → sends Q m.
Proof. intros HQ Hm κ. rewrite (Hm κ). apply HQ. Qed.

Lemma keeps_requests_ret {A} (a : A) : keeps_requests (mret a).
Proof. by intros κ. Qed.

Lemma keeps_requests_bind {A B} (m : IO A) (f : A → IO B) :
  keeps_requests m → (∀ a, keeps_requests (f a)) → keeps_requests (m ≫= f).
Proof. by apply sends_bind_l. Qed.

Lemma keeps_requests_print line : keeps_requests (run (print line)).
Proof. intros κ. unfold run, print. by destruct (stdout_write line). Qed.

Lemma keeps_requests_lift {A} (r : result A) : keeps_requests (run (lift r)).
Proof. by intros κ. Qed.

Lemma keeps_requests_input prompt : keeps_requests (input prompt).
Proof. intros κ. unfold input. by destruct (stdin κ) as [|[line|e] rest]. Qed.

Lemma keeps_requests_print_each {A} (f : A → list N) (items : list A) :
  keeps_requests
    (foldr (λ item rest, run (print (f item));; rest) (mret ()) items).
Proof.
  induction items as [|item items IH]; [apply keeps_requests_ret|].
  cbn [foldr]. apply keeps_requests_bind; [apply keeps_requests_print | done].
Qed.

#[local] Ltac keeps_requests_steps :=
  repeat first
    [ apply keeps_requests_ret
    | apply keeps_requests_print
    | apply keeps_requests_lift
    | apply keeps_requests_input
    | apply keeps_requests_print_each
    | apply keeps_requests_bind; [|intros ?]
    | match goal with
      | |- keeps_requests (if ?b then _ else _) => destruct b
      end ].

Lemma sends_bind_r {A B} Q (m : IO A) (f : A → IO B) :
  sends Q m → (∀ a, keeps_requests (f a)) → sends Q (m ≫= f).
Proof.
  intros Hm Hf κ. unfold mbind, IO_bind. specialize (Hm κ).
  destruct (m κ) as [[a|e|code] κ1]; cbn [snd] in *; [|done..].
  by rewrite (Hf a κ1).
Qed.

Lemma sends_try_io {A} Q (body : IO A) handler :
  sends Q body → (∀ e h, handler e = Some h → keeps_requests h) →
  sends Q (try_io body handler).
Proof.
  intros Hbody Hhandler κ. unfold try_io. specialize (Hbody κ).
  destruct (body κ) as [[a|e|code] κ1]; cbn [snd] in *; [done| |done].
  destruct (handler e) as [h|] eqn:Hh; [|done].
  by rewrite (Hhandler e h Hh κ1).
Qed.

(** The requests of [get_verse], for a key of the catalogue. *)
Lemma sends_get_verse chapter verse key :
  key ∈ get_available_translations →
  sends (fetched chapter verse) (run (get_verse chapter verse (Some key))).
Proof.
  intros Hkey κ. unfold run.
  pose proof (get_verse_state chapter verse (Some key) (world κ)) as Hstate.
  destruct (get_verse chapter verse (Some key) (world κ)) as [r σ].
  cbn [fst snd world] in *.
  destruct Hstate as [-> | (key' & [= <-] & _ & [-> | [warning ->]])].
  - by left.
  - right. exists key. split; [done|]. cbn. by rewrite <- app_assoc.
  - right. exists key. split; [done|]. cbn. by rewrite <- app_assoc.
Qed.

Lemma sends_bind_post {A B} (Q : list (list N) → list (list N) → Prop)
    (P : A → Prop) (m : IO A) (f : A → IO B) :
  (∀ l, Q l l) → keeps_requests m →
  (∀ κ a, (m κ).1 = Return a → P a) →
  (∀ a, P a → sends Q (f a)) →
  sends Q (m ≫= f).
Proof.
  intros HQ Hm HP Hf κ. unfold mbind, IO_bind.
  specialize (Hm κ). specialize (HP κ).
  destruct (m κ) as [[a|e|code] κ1]; cbn [fst snd] in *.
  - specialize (Hf a (HP a eq_refl) κ1). by rewrite Hm in Hf.
  - rewrite Hm. apply HQ.
  - rewrite Hm. apply HQ.
Qed.

(** The requests of the questions, the fetch and the block: those of a
    fetch, or none when the turn fails before the fetch. *)
Lemma sends_fetch_and_show chapter verse :
  sends (λ before after, after = before ∨ fetched chapter verse before after)
    (fetch_and_show chapter verse).
Proof.
  unfold fetch_and_show.
  do 2 (apply sends_bind_l; [by left | apply keeps_requests_print | intros _]).
  apply sends_bind_l; [by left | apply keeps_requests_input | intros line]. cbv zeta.
  apply (sends_bind_post _ (λ key, key ∈ get_available_translations)).
  - by left.
  - keeps_requests_steps.
  - intros κ key. destruct (bool_decide _) eqn:Hin.
    + apply bool_decide_eq_true in Hin. by intros [= <-].
    + unfold mbind, IO_bind.
      destruct (run (print _) κ) as [[[]|e|code] κ1]; [|done..].
      intros [= <-]. apply list_elem_of_here.
  - intros key Hkey.
    do 2 (apply sends_bind_l; [by left | apply keeps_requests_print | intros _]).
    apply sends_bind_l; [by left | apply keeps_requests_input | intros format_line].
    cbv zeta.
    do 2 (apply sends_bind_l; [by left | apply keeps_requests_print | intros _]).
    apply sends_bind_r.
    + intros κ. right. by apply sends_get_verse.
    + intros verse_data. keeps_requests_steps.
Qed.

Lemma asked_at_terminal_refl l : asked_at_terminal l l.
Proof. by left. Qed.

Lemma sends_body : sends asked_at_terminal body.
Proof.
  unfold body.
  do 2 (apply sends_bind_l;
          [apply asked_at_terminal_refl | apply keeps_requests_print | intros _]).
  apply sends_bind_l;
    [apply asked_at_terminal_refl | apply keeps_requests_input | intros line]. cbv zeta.
  destruct (lower_in _ _);
    [apply keeps_requests_sends;
       [apply asked_at_terminal_refl | keeps_requests_steps]|].
  destruct (lower_is _ (lit "list"));
    [apply keeps_requests_sends;
       [apply asked_at_terminal_refl | keeps_requests_steps]|].
  destruct (lower_is _ (lit "help"));
    [apply keeps_requests_sends;
       [apply asked_at_terminal_refl | keeps_requests_steps]|].
  destruct (validate_input (strip line)) as [[chapter verse]|e|code] eqn:Hvalid.
  - apply validate_input_Return in Hvalid
      as (g1 & g2 & c & v & _ & _ & _ & _ & _ & Hvalid).
    apply range_checks_Return in Hvalid as ([= <- <-] & Hc & m & Hm & Hv).
    intros κ.
    destruct (sends_fetch_and_show chapter verse κ) as [-> | Hfetched];
      [by left|].
    right. by exists chapter, verse, m.
  - apply keeps_requests_sends; [apply asked_at_terminal_refl|].
    destruct (is_ValueError e); [keeps_requests_steps | by intros κ].
  - apply keeps_requests_sends; [apply asked_at_terminal_refl | by intros κ].
Qed.

(** X25. What a turn of the loop asks the server, whatever is typed and
    however the turn ends: nothing, or the Arabic text of a reference of
    the table (a chapter of 1..114 and a verse of that chapter) and after
    it at most one edition, which is an edition of the catalogue: an
    unknown translation is never asked for. *)
Theorem iteration_requests κ :
  asked_at_terminal (requested (world κ)) (requested (world (iteration κ).2)).
Proof.
  apply (sends_try_io asked_at_terminal body recover); [apply sends_body|].
  intros e h Hh. unfold recover in Hh.
  destruct (is_KeyboardInterrupt e);
    [injection Hh as <-; keeps_requests_steps|].
  destruct (is_Exception e); [injection Hh as <-; keeps_requests_steps|done].
Qed.

(** *** A fetch at the terminal *)

Lemma bind_run {A B} (m : M A) (k : A → IO B) κ a σ :
  m (world κ) = (Return a, σ) →
  (run m ≫= k) κ = k a (Console σ (stdin κ) (prompts κ)).
Proof. intros Hm. unfold mbind, IO_bind, run. by rewrite Hm. Qed.

(** X29. A fetch at the terminal. After a valid reference and the
    answers to the three questions that follow, on a standard output that
    accepts everything, a turn whose fetch and formatting succeed fetches
    the verse with the translation chosen (the answer when it is a key of
    the catalogue, "sahih" otherwise), in every format, and prints its
    block in the format chosen (the answer when it is one of the three
    formats, "both" otherwise) between two rules of sixty "-"; it then
    ends the session with the farewell when the last answer is [n], [no],
    [quit] or [exit], and goes on with the next turn otherwise. *)
Theorem iteration_shows_verse
    κ reference t f c rest chapter verse verse_data σ2 block :
  (∀ l, stdout_write l = None) →
  stdin κ = Done reference :: Done t :: Done f :: Done c :: rest →
  is_command (strip reference) = false →
  validate_input (strip reference) = Return (chapter, verse) →
  get_verse chapter verse (Some (chosen_translation t))
    (State (stdout (world κ) ++ instructions ++ questions t chapter verse)
           (stderr (world κ)) (requested (world κ)) (files (world κ)))
  = (Return verse_data, σ2) →
  format_verse verse_data (chosen_format f) = Return block →
  iteration κ
  = (Return (if lower_in (strip c) [lit "n"; lit "no"; lit "quit"; lit "exit"]
             then Break else Continue),
     Console
       (State (stdout σ2
                 ++ [block; times (lit "-") 60;
                     lit " Would you like to fetch another verse? (y/n)";
                     if lower_in (strip c)
                          [lit "n"; lit "no"; lit "quit"; lit "exit"]
                     then farewell else []])
              (stderr σ2) (requested σ2) (files σ2))
       rest
       (prompts κ ++ [verse_prompt; lit "Translation: "; lit "Format: ";
                      lit "Continue: "])).
Proof.
  intros Hout Hin Hcommand Hvalid Hfetch Hformat.
  unfold is_command in Hcommand.
  apply orb_false_elim in Hcommand as [[Hquit Hlist]%orb_false_elim Hhelp].
  destruct κ as [[out err req fs] ins ps]. cbn [stdin] in Hin. subst ins.
  cbn [world stdout stderr requested files] in Hfetch.
  cbn [prompts].
  unfold iteration, try_io. rewrite body_instructions by done.
  unfold printed; cbn [world stdin prompts stdout stderr requested files].
  rewrite (bind_input _ _ _ reference (Done t :: Done f :: Done c :: rest))
    by reflexivity.
  cbv zeta. rewrite Hquit, Hlist, Hhelp, Hvalid.
  unfold printed, answered;
    cbn [world stdin prompts stdout stderr requested files tail].
  unfold fetch_and_show. rewrite !bind_print by done.
  unfold printed, answered;
    cbn [world stdin prompts stdout stderr requested files tail].
  rewrite (bind_input _ _ _ t (Done f :: Done c :: rest)) by reflexivity.
  unfold printed, answered;
    cbn [world stdin prompts stdout stderr requested files tail].
  cbv zeta. unfold chosen_translation, questions in Hfetch.
  unfold chosen_format in Hformat.
  cbv zeta in Hfetch.
  set (translation := if bool_decide (strip t = []) then lit "sahih"
                      else strip t) in *.
  unfold mbind at 1, IO_bind at 1.
  destruct (bool_decide (translation ∈ get_available_translations));
    [|rewrite bind_print by done]; unfold mret at 1, IO_ret at 1.
  all: rewrite !bind_print by done.
  all: unfold printed, answered;
    cbn [world stdin prompts stdout stderr requested files tail].
  all: rewrite (bind_input _ _ _ f (Done c :: rest)) by reflexivity.
  all: cbv zeta; rewrite !bind_print by done.
  all: unfold printed, answered;
    cbn [world stdin prompts stdout stderr requested files tail].
  all: rewrite (bind_run _ _ _ verse_data σ2);
    [|rewrite <- Hfetch; f_equal;
      cbn [world stdout stderr requested files];
      f_equal; rewrite <- ?app_assoc; reflexivity].
  all: rewrite (bind_run _ _ _ block _) by (unfold lift; by rewrite Hformat).
  all: rewrite !bind_print by done.
  all: unfold printed, answered;
    cbn [world stdin prompts stdout stderr requested files tail].
  all: rewrite (bind_input _ _ _ c rest) by reflexivity.
  all: cbv zeta; destruct (lower_in (strip c) _).
  all: rewrite bind_print by done; unfold mret, IO_ret.
  all: unfold printed, answered;
    cbn [world stdin prompts stdout stderr requested files tail].
  all: f_equal; (f_equal; [f_equal|]); rewrite <- ?app_assoc; reflexivity.
Qed.

End InteractiveMode.

Lemma interactive_quit_witness :
  run_interactive_mode (W := friendly_world) 1 (terminal [Done (lit " QUIT ")])
  = Some (Return (),
          printed [farewell]
            (answered verse_prompt
               (printed (banner_lines ++ instructions)
                  (terminal [Done (lit " QUIT ")])))).
Proof.
  apply (interactive_quit (W := friendly_world) 0 _ (lit " QUIT ") []);
    [intros l; reflexivity | reflexivity | by vm_compute].
Defined.

Lemma iteration_rejects_invalid_reference_witness :
  iteration (W := friendly_world) (terminal [Done (lit "115:1")])
  = (Return Continue,
     printed [lit " Error: " ++ str_of_exn (ChapterRangeError 115);
              lit "Please use format 'chapter:verse' (e.g., '2:255')" ++ [0x0A%N]]
       (answered verse_prompt
          (printed instructions (terminal [Done (lit "115:1")])))).
Proof.
  apply (iteration_rejects_invalid_reference (W := friendly_world) _
           (lit "115:1") [] (ChapterRangeError 115));
    [intros l; reflexivity | reflexivity | by vm_compute | by vm_compute].
Defined.

Lemma interactive_session_ends_well_witness :
  ∃ κ',
    run_interactive_mode (W := friendly_world) 1 (terminal [Done (lit "q")])
    = Some (Return (), κ')
    ∧ files (world κ') = ∅
    ∧ ∃ lines, stderr (world κ') = lines ∧ Forall warning_line lines.
Proof.
  destruct (run_interactive_mode (W := friendly_world) 1
              (terminal [Done (lit "q")])) as [[r κ']|] eqn:Hrun;
    [|by vm_compute in Hrun].
  destruct (interactive_session_ends_well (W := friendly_world) 1 _ r κ'
              (λ _, eq_refl) Hrun) as (-> & Hfiles & lines & Herr & Hlines).
  exists κ'. split; [reflexivity|]. split; [exact Hfiles|].
  exists lines. split; [exact Herr | exact Hlines].
Defined.

Lemma interactive_never_ends_at_eof_witness :
  run_interactive_mode (W := friendly_world) 1000 (terminal []) = None.
Proof.
  apply (interactive_never_ends_at_eof (W := friendly_world) 1000 (terminal []));
    [intros l; reflexivity | reflexivity].
Defined.

Lemma interactive_interrupt_witness :
  run_interactive_mode (W := friendly_world) 1
    (terminal [Failed KeyboardInterrupt])
  = Some (Return (),
          printed [[0x0A%N] ++ farewell]
            (answered verse_prompt
               (printed (banner_lines ++ instructions)
                  (terminal [Failed KeyboardInterrupt])))).
Proof.
  apply (interactive_interrupt (W := friendly_world) 0 _ KeyboardInterrupt []);
    [intros l; reflexivity | reflexivity | reflexivity].
Defined.

Lemma iteration_shows_verse_witness :
  ∃ block σ2,
    format_verse (W := friendly_world)
      (verse_record (lit "1:1") sample_ayah sample_translation) (lit "arabic")
    = Return block
    ∧ iteration (W := friendly_world)
        (terminal [Done (lit "1:1"); Done (lit "klingon"); Done (lit " arabic ");
                   Done (lit "No")])
      = (Return Break,
         Console
           (State (stdout σ2
                     ++ [block; times (lit "-") 60;
                         lit " Would you like to fetch another verse? (y/n)";
                         farewell])
                  (stderr σ2) (requested σ2) (files σ2))
           []
           [verse_prompt; lit "Translation: "; lit "Format: "; lit "Continue: "])
    ∧ requested σ2 = [arabic_url 1 1; translation_url 1 1 (lit "en.sahih")].
Proof.
  destruct (format_verse (W := friendly_world)
              (verse_record (lit "1:1") sample_ayah sample_translation)
              (lit "arabic")) as [block| |] eqn:Hblock;
    [|by vm_compute in Hblock..].
  destruct (get_verse (W := friendly_world) 1 1 (Some (lit "sahih"))
              (State ([] ++ instructions ++ questions (lit "klingon") 1 1)
                 [] [] ∅)) as [r σ2] eqn:Hfetch.
  assert (r = Return (verse_record (lit "1:1") sample_ayah sample_translation)
          ∧ requested σ2 = [arabic_url 1 1; translation_url 1 1 (lit "en.sahih")])
    as [-> Hrequested].
  { vm_compute in Hfetch. injection Hfetch as <- <-. split; reflexivity. }
  exists block, σ2. split; [reflexivity|]. split; [|exact Hrequested].
  apply (iteration_shows_verse (W := friendly_world)
           (terminal [Done (lit "1:1"); Done (lit "klingon");
                      Done (lit " arabic "); Done (lit "No")])
           (lit "1:1") (lit "klingon") (lit " arabic ") (lit "No") [] 1 1
           (verse_record (lit "1:1") sample_ayah sample_translation) σ2 block).
  - intros l; reflexivity.
  - reflexivity.
  - by vm_compute.
  - by vm_compute.
  - exact Hfetch.
  - exact Hblock.
Defined.
